(** * VulnBoard: the board state engine, its view projector and its sanitizers

    A shallow embedding of
    - [src/utils/inputSanitization.js]  (sanitizeInput, sanitizeEmail,
      sanitizeNumber, sanitizeTaskData),
    - [src/hooks/useTaskManagement.js]  (processedTasks, addNewTask, updateTask),
    - [src/components/kanban/AddTaskModal.jsx] (handleSubmit),
    - [src/store/slices/authSlice.js]   (login, signup),
    and of the reducers of [kanbanSlice.js] the hook dispatches to, which are
    modelled from the design document and marked as such.

    Conventions of the embedding.
    - A JavaScript string is a [string]: a sequence of code units below 256
      (the Latin-1 range of UTF-16).
    - A JavaScript number is a [number]: NaN, the two infinities, or an exact
      rational.  The rounding of IEEE doubles shows in one place, the gauge
      of the task card, whose division and multiplication are taken from a
      class of rounded operations.
    - [Array.prototype.sort] is the engine's: a class with what the
      language promises of it.  The sort of V8 is given as one engine.
    - An object used as a dictionary is a [gmap]; an array is a [list]; an
      array with identity (one that can be aliased and sorted in place) is a
      location in a [heap]. *)

From Stdlib Require Import ZArith QArith Qround Bool Ascii String List Lia.
From Stdlib Require Import Permutation Sorted Lqa.
From stdpp Require Import gmap strings list fin_maps.

Local Open Scope Z_scope.

(* ===================================================================== *)
(** * JavaScript values                                                   *)
(* ===================================================================== *)

Module JS.

(** ** Numbers *)

Inductive number : Type :=
| NaN
| NegInf
| Fin (q : Q)
| PosInf.

Definition isNaN (n : number) : bool :=
  match n with NaN => true | _ => false end.

Definition isFinite (n : number) : bool :=
  match n with Fin _ => true | _ => false end.

(** [Math.min] and [Math.max]: NaN is contagious. *)
Definition Math_min (a b : number) : number :=
  match a, b with
  | NaN, _ | _, NaN => NaN
  | NegInf, _ | _, NegInf => NegInf
  | PosInf, x | x, PosInf => x
  | Fin p, Fin q => if Qle_bool p q then a else b
  end.

Definition Math_max (a b : number) : number :=
  match a, b with
  | NaN, _ | _, NaN => NaN
  | PosInf, _ | _, PosInf => PosInf
  | NegInf, x | x, NegInf => x
  | Fin p, Fin q => if Qle_bool q p then a else b
  end.

Definition Math_floor (n : number) : number :=
  match n with
  | Fin q => Fin (inject_Z (Qfloor q))
  | _ => n
  end.

(** [a - b], as a comparator computes it. *)
Definition sub (a b : number) : number :=
  match a, b with
  | NaN, _ | _, NaN => NaN
  | PosInf, PosInf | NegInf, NegInf => NaN
  | PosInf, _ | _, NegInf => PosInf
  | NegInf, _ | _, PosInf => NegInf
  | Fin p, Fin q => Fin (p - q)
  end.

(** A number is falsy when it is 0 or NaN. *)
Definition truthyNum (n : number) : bool :=
  match n with
  | NaN => false
  | Fin q => negb (Qeq_bool q 0)
  | _ => true
  end.

Definition ofZ (z : Z) : number := Fin (inject_Z z).

(** ** Values of any type, as a sanitizer receives them *)

#[local] Set Warnings "-register-all".
Inductive value : Type :=
| VUndefined
| VNull
| VBool (b : bool)
| VNum (n : number)
| VStr (s : string)
| VArr (l : list value).

(** ** The host: builtins whose result depends on the engine or the locale *)

Class Host : Type := {
  (** [String(v)] for a value that is not a number. *)
  ToString : value -> string;
  (** [parseFloat] on a string: the longest numeric prefix, else NaN. *)
  parseFloatString : string -> number;
  (** [new Date(s).getTime()], [None] for an invalid date. *)
  Date_parse : string -> option Z;
  (** [a.localeCompare(b)]: negative, zero or positive. *)
  localeCompare : string -> string -> Z
}.

(** [parseFloat(v)] converts [v] to a string and parses it; on a number the
    two steps cancel out. *)
Definition parseFloat `{Host} (v : value) : number :=
  match v with
  | VNum n => n
  | VStr s => parseFloatString s
  | _ => parseFloatString (ToString v)
  end.

End JS.
Export JS.

(* ===================================================================== *)
(** * Strings and the regular expressions of the sanitizers               *)
(* ===================================================================== *)

Module Str.

Definition code (c : ascii) : nat := nat_of_ascii c.

Definition inRange (lo hi : nat) (c : ascii) : bool :=
  (lo <=? code c)%nat && (code c <=? hi)%nat.

Definition isChar (k : nat) (c : ascii) : bool := (code c =? k)%nat.

Definition isUpper (c : ascii) : bool := inRange 65 90 c.
Definition isLower (c : ascii) : bool := inRange 97 122 c.
Definition isDigit (c : ascii) : bool := inRange 48 57 c.

(** [\w] *)
Definition isWord (c : ascii) : bool :=
  isUpper c || isLower c || isDigit c || isChar 95 c.

(** [\s], and the characters [trim] removes. *)
Definition isSpace (c : ascii) : bool :=
  inRange 9 13 c || isChar 32 c || isChar 160 c.

(** [toLowerCase] on one code unit of the Latin-1 range. *)
Definition toLowerChar (c : ascii) : ascii :=
  if isUpper c || (inRange 192 222 c && negb (isChar 215 c))
  then ascii_of_nat (code c + 32)
  else c.

Fixpoint toLowerCase (s : string) : string :=
  match s with
  | EmptyString => EmptyString
  | String c s' => String (toLowerChar c) (toLowerCase s')
  end.

Fixpoint isPrefixOf (p s : string) : bool :=
  match p, s with
  | EmptyString, _ => true
  | String a p', String b s' => Ascii.eqb a b && isPrefixOf p' s'
  | String _ _, EmptyString => false
  end.

(** [s.includes(t)] *)
Fixpoint includes (s t : string) : bool :=
  isPrefixOf t s ||
  match s with
  | EmptyString => false
  | String _ s' => includes s' t
  end.

(** [s.substring(0, n)] for [n] within the string or beyond it. *)
Fixpoint take (n : nat) (s : string) : string :=
  match n, s with
  | S k, String c s' => String c (take k s')
  | _, _ => EmptyString
  end.

Fixpoint trimStart (s : string) : string :=
  match s with
  | String c s' => if isSpace c then trimStart s' else s
  | EmptyString => EmptyString
  end.

Fixpoint trimEnd (s : string) : string :=
  match s with
  | EmptyString => EmptyString
  | String c s' =>
      match trimEnd s' with
      | EmptyString => if isSpace c then EmptyString else String c EmptyString
      | r => String c r
      end
  end.

Definition trim (s : string) : string := trimEnd (trimStart s).

(** Every character of [s] satisfies [p]. *)
Fixpoint allChars (p : ascii -> bool) (s : string) : bool :=
  match s with
  | EmptyString => true
  | String c s' => p c && allChars p s'
  end.

(** How many characters satisfying [p] the string starts with. *)
Fixpoint spanLength (p : ascii -> bool) (s : string) : nat :=
  match s with
  | String c s' => if p c then S (spanLength p s') else O
  | EmptyString => O
  end.

Fixpoint drop (n : nat) (s : string) : string :=
  match n, s with
  | S k, String _ s' => drop k s'
  | _, _ => s
  end.

(** The position of the first occurrence of [c]. *)
Fixpoint indexOfChar (c : ascii) (s : string) : option nat :=
  match s with
  | EmptyString => None
  | String d s' =>
      if Ascii.eqb c d then Some O else option_map S (indexOfChar c s')
  end.

(** The position of the last occurrence of [c]. *)
Fixpoint lastIndexOfChar (c : ascii) (s : string) : option nat :=
  match s with
  | EmptyString => None
  | String d s' =>
      match lastIndexOfChar c s' with
      | Some i => Some (S i)
      | None => if Ascii.eqb c d then Some O else None
      end
  end.

(** A regular expression is used through one question: how long is its match
    that starts at the head of the input, if there is one. *)
Definition Regex : Type := string -> option nat.

(** [s.replace(re, by)] for a global [re]: matches are taken from the left
    and do not overlap.  [skip] counts the characters of the current match
    that are still to be passed over. *)
Fixpoint replaceFrom (re : Regex) (by_ : string) (skip : nat) (s : string)
  : string :=
  match s with
  | EmptyString => EmptyString
  | String c s' =>
      match skip with
      | S k => replaceFrom re by_ k s'
      | O =>
          match re s with
          | Some (S k) => (by_ ++ replaceFrom re by_ k s')%string
          | _ => String c (replaceFrom re by_ O s')
          end
      end
  end.

Definition replaceAll (re : Regex) (by_ : string) (s : string) : string :=
  replaceFrom re by_ O s.

(** [/[...]/]: one character of a class. *)
Definition charClass (p : ascii -> bool) : Regex :=
  fun s => match s with
           | String c _ => if p c then Some 1%nat else None
           | EmptyString => None
           end.

(** [/<[^>]*>/]: from a less-than sign to the first greater-than sign after
    it. *)
Definition htmlTag : Regex :=
  fun s => match s with
           | String c s' =>
               if isChar 60 c
               then option_map (fun i => S (S i)) (indexOfChar ">"%char s')
               else None
           | EmptyString => None
           end.

(** [/javascript:/i] and the like: a literal, compared without case. *)
Definition literalCI (lit : string) : Regex :=
  fun s => if isPrefixOf (toLowerCase lit) (toLowerCase s)
           then Some (String.length lit) else None.

(** [/on\w+\s*=/i]: the letters o and n, the whole run of word characters
    after them (at least one), the whole run of white space after that, and
    an equals sign. *)
Definition eventHandler : Regex :=
  fun s =>
    if isPrefixOf "on" (toLowerCase s) then
      let s1 := drop 2 s in
      let w := spanLength isWord s1 in
      let s2 := drop w s1 in
      let sp := spanLength isSpace s2 in
      match w, drop sp s2 with
      | S _, String c _ =>
          if isChar 61 c then Some (2 + w + sp + 1)%nat else None
      | _, _ => None
      end
    else None.

End Str.

(* ===================================================================== *)
(** * inputSanitization.js                                                *)
(* ===================================================================== *)

Module Sanitize.
Import Str.

Record InputOptions : Type := {
  maxLength : option Z;
  allowHTML : option bool;
  preserveNewlines : option bool
}.

(** The empty object, the default of the [options] parameter. *)
Definition noOptions : InputOptions :=
  {| maxLength := None; allowHTML := None; preserveNewlines := None |}.

(** [/[\x00-\x08\x0B\x0C\x0E-\x1F\x7F]/] *)
Definition isControl (c : ascii) : bool :=
  inRange 0 8 c || isChar 11 c || isChar 12 c || inRange 14 31 c || isChar 127 c.

(** The class of the characters less-than, greater-than, double quote and
    single quote. *)
Definition isDangerous (c : ascii) : bool :=
  isChar 60 c || isChar 62 c || isChar 34 c || isChar 39 c.

(** [/[\r\n]/] *)
Definition isNewline (c : ascii) : bool := isChar 13 c || isChar 10 c.

Definition sanitizeInput (input : value) (options : InputOptions) : string :=
  match input with
  | VStr input =>
      let maxLength := default 1000 (maxLength options) in
      let allowHTML := default false (allowHTML options) in
      let preserveNewlines := default true (preserveNewlines options) in
      let sanitized := input in
      let sanitized := replaceAll (charClass isControl) EmptyString sanitized in
      let sanitized :=
        if negb allowHTML then
          replaceAll eventHandler EmptyString
            (replaceAll (literalCI "javascript:") EmptyString
               (replaceAll (charClass isDangerous) EmptyString
                  (replaceAll htmlTag EmptyString sanitized)))
        else sanitized in
      let sanitized :=
        if negb preserveNewlines
        then replaceAll (charClass isNewline) " " sanitized
        else sanitized in
      let sanitized := trim sanitized in
      if Z.of_nat (String.length sanitized) >? maxLength
      then take (Z.to_nat maxLength) sanitized
      else sanitized
  | _ => EmptyString
  end.

(** [/[^a-z0-9@.\-_+]/] *)
Definition isEmailJunk (c : ascii) : bool :=
  negb (isLower c || isDigit c || isChar 64 c || isChar 46 c || isChar 45 c
        || isChar 95 c || isChar 43 c).

(** [[a-zA-Z0-9._%+-]] *)
Definition isLocalPart (c : ascii) : bool :=
  isLower c || isUpper c || isDigit c || isChar 46 c || isChar 95 c
  || isChar 37 c || isChar 43 c || isChar 45 c.

(** [[a-zA-Z0-9.-]] *)
Definition isDomainPart (c : ascii) : bool :=
  isLower c || isUpper c || isDigit c || isChar 46 c || isChar 45 c.

Definition isLetter (c : ascii) : bool := isLower c || isUpper c.

(** [/^[a-zA-Z0-9._%+-]+@[a-zA-Z0-9.-]+\.[a-zA-Z]{2,}$/.test(s)].  The local
    part is the whole run before the at sign (the class has no at sign); the
    top-level domain has no dot, so it starts after the last dot. *)
Definition emailRegex_test (s : string) : bool :=
  let n := spanLength isLocalPart s in
  match n, drop n s with
  | S _, String c rest =>
      isChar 64 c &&
      match lastIndexOfChar "."%char rest with
      | Some i =>
          let dom := take i rest in
          let tld := drop (S i) rest in
          (1 <=? String.length dom)%nat && allChars isDomainPart dom
          && (2 <=? String.length tld)%nat && allChars isLetter tld
      | None => false
      end
  | _, _ => false
  end.

Definition sanitizeEmail (email : value) : string :=
  match email with
  | VStr email =>
      let sanitized :=
        trim (replaceAll (charClass isEmailJunk) EmptyString (toLowerCase email)) in
      if emailRegex_test sanitized then sanitized else EmptyString
  | _ => EmptyString
  end.

Record NumberOptions : Type := {
  min : option number;
  max : option number;
  defaultValue : option number;
  allowFloat : option bool
}.

Definition sanitizeNumber `{Host} (input : value) (options : NumberOptions)
  : number :=
  let min := default NegInf (min options) in
  let max := default PosInf (max options) in
  let defaultValue := default (ofZ 0) (defaultValue options) in
  let allowFloat := default true (allowFloat options) in
  let num := parseFloat input in
  if isNaN num || negb (isFinite num) then defaultValue
  else
    let num := if negb allowFloat then Math_floor num else num in
    (* Clamp to bounds *)
    Math_max min (Math_min max num).

(** Truthiness, for the guards [if (taskData.title)] and the like. *)
Definition truthy (v : value) : bool :=
  match v with
  | VUndefined | VNull => false
  | VBool b => b
  | VNum n => truthyNum n
  | VStr s => negb (String.eqb s EmptyString)
  | VArr _ => true
  end.

(** [allowed.includes(v)] for an array of strings: the member equal to [v]. *)
Definition memberOf (allowed : list string) (v : value) : option string :=
  match v with
  | VStr s => if existsb (String.eqb s) allowed then Some s else None
  | _ => None
  end.

(** The raw task object a form hands over: a missing key is [VUndefined]. *)
Record RawTaskData : Type := {
  raw_title : value;
  raw_details : value;
  raw_priority : value;
  raw_rating : value;
  raw_labels : value;
  raw_status : value
}.

(** What [sanitizeTaskData] returns: only the keys that passed. *)
Record SanitizedTaskData : Type := {
  s_title : option string;
  s_details : option string;
  s_priority : option string;
  s_rating : option number;
  s_labels : option (list string);
  s_status : option string
}.

Definition emptySanitized : SanitizedTaskData :=
  {| s_title := None; s_details := None; s_priority := None;
     s_rating := None; s_labels := None; s_status := None |}.

Definition allowedPriorities : list string := ["Critical"; "High"; "Medium"; "Low"].
Definition allowedStatuses : list string :=
  [EmptyString; "active"; "completed"; "archived"].

Definition opts (n : Z) (html nl : option bool) : InputOptions :=
  {| maxLength := Some n; allowHTML := html; preserveNewlines := nl |}.

(** [taskData] is [None] when the argument is falsy or not an object. *)
Definition sanitizeTaskData `{Host} (taskData : option RawTaskData)
  : SanitizedTaskData :=
  match taskData with
  | None => emptySanitized
  | Some taskData =>
    {| (* Title - required, max 200 characters *)
       s_title :=
         if truthy (raw_title taskData)
         then Some (sanitizeInput (raw_title taskData)
                      (opts 200 (Some false) (Some false)))
         else None;
       (* Details/Description - optional, max 2000 characters *)
       s_details :=
         if truthy (raw_details taskData)
         then Some (sanitizeInput (raw_details taskData)
                      (opts 2000 (Some false) (Some true)))
         else None;
       (* Priority - must be from allowed values *)
       s_priority :=
         if truthy (raw_priority taskData)
         then memberOf allowedPriorities (raw_priority taskData)
         else None;
       (* Rating - number between 0 and 10 *)
       s_rating :=
         match raw_rating taskData with
         | VUndefined => None
         | r => Some (sanitizeNumber r
                        {| min := Some (ofZ 0); max := Some (ofZ 10);
                           defaultValue := Some (ofZ 0);
                           allowFloat := Some true |})
         end;
       (* Labels - array of strings *)
       s_labels :=
         match raw_labels taskData with
         | VArr labels =>
             Some (firstn 10                       (* .slice(0, 10) *)
                     (List.filter
                        (fun label => (0 <? String.length label)%nat)
                        (List.map
                           (fun label =>
                              sanitizeInput label (opts 50 (Some false) None))
                           labels)))
         | _ => None
         end;
       (* Status - string with limited options *)
       s_status :=
         if truthy (raw_status taskData)
         then memberOf allowedStatuses (raw_status taskData)
         else None |}
  end.

End Sanitize.

(* ===================================================================== *)
(** * Tasks and the board store                                           *)
(* ===================================================================== *)

Module Board.
Import Str Sanitize.

(** A stored task.  [title] and [details] are strings, as [addNewTask] builds
    them and as the search filter takes them to be.  [labels] and [rating]
    may be missing on a stored task: the projector guards both
    ([task.labels && ...], [a.rating || 0]). *)
Record Task : Type := {
  id : Z;
  title : string;
  details : string;
  labels : option (list string);
  priority : string;
  rating : option number;
  starred : bool;
  status : string;
  createdAt : string;
  dueDate : string;
  priorityColor : string
}.

(** The [taskData] of [addNewTask] and the [data] of [updateTask]: an object
    with any subset of the keys of a task; [None] is a key that is absent. *)
Record TaskData : Type := {
  td_id : option Z;
  td_title : option string;
  td_details : option string;
  td_labels : option (list string);
  td_priority : option string;
  td_rating : option number;
  td_starred : option bool;
  td_status : option string;
  td_createdAt : option string;
  td_dueDate : option string;
  td_priorityColor : option string
}.

Definition noTaskData : TaskData :=
  {| td_id := None; td_title := None; td_details := None; td_labels := None;
     td_priority := None; td_rating := None; td_starred := None;
     td_status := None; td_createdAt := None; td_dueDate := None;
     td_priorityColor := None |}.

(** [{ ...task, ...data }]: every key present in [data] wins. *)
Definition spread (task : Task) (data : TaskData) : Task :=
  {| id := default (id task) (td_id data);
     title := default (title task) (td_title data);
     details := default (details task) (td_details data);
     labels := match td_labels data with
               | Some l => Some l
               | None => labels task
               end;
     priority := default (priority task) (td_priority data);
     rating := match td_rating data with
               | Some r => Some r
               | None => rating task
               end;
     starred := default (starred task) (td_starred data);
     status := default (status task) (td_status data);
     createdAt := default (createdAt task) (td_createdAt data);
     dueDate := default (dueDate task) (td_dueDate data);
     priorityColor := default (priorityColor task) (td_priorityColor data) |}.

(** [x || d] on an optional string: absent and empty are falsy. *)
Definition orString (x : option string) (d : string) : string :=
  match x with
  | Some s => if String.eqb s EmptyString then d else s
  | None => d
  end.

Definition orNumber (x : option number) (d : number) : number :=
  match x with
  | Some n => if truthyNum n then n else d
  | None => d
  end.

Definition orBool (x : option bool) (d : bool) : bool :=
  match x with
  | Some true => true
  | _ => d
  end.

Definition getPriorityColor (priority : string) : string :=
  if String.eqb priority "Critical" then "#8b1538"
  else if String.eqb priority "High" then "#dc2626"
  else if String.eqb priority "Medium" then "#f97316"
  else if String.eqb priority "Low" then "#eab308"
  else "#f97316".

(** [Math.floor(1000 + Math.random() * 9000)], [random] being the value
    [Math.random()] returned. *)
Definition generateId (random : Q) : Z := Qfloor (1000 + random * 9000)%Q.

(** [addNewTask(columnId, taskData)] up to its [dispatch]: the payload of the
    [addTask] action.  [random] is what [Math.random()] returned and [now]
    what [new Date().toISOString()] returned. *)
Definition addNewTask (columnId : string) (taskData : TaskData)
    (random : Q) (now : string) : string * Task :=
  let newTask :=
    spread
      {| id := generateId random;
         title := orString (td_title taskData) "New Task";
         details := orString (td_details taskData) EmptyString;
         labels := Some (default [] (td_labels taskData));
         priority := orString (td_priority taskData) "Medium";
         rating := Some (orNumber (td_rating taskData) (Fin 8.8));
         starred := orBool (td_starred taskData) false;
         status := orString (td_status taskData) EmptyString;
         createdAt := now;
         dueDate := orString (td_dueDate taskData) EmptyString;
         priorityColor :=
           getPriorityColor (orString (td_priority taskData) "Medium") |}
      taskData in
  (columnId, newTask).

(** [updateTask(taskId, data)] up to its [dispatch]: the payload of the
    [editTask] action. *)
Definition updateTask (taskId : Z) (data : TaskData) : Z * TaskData :=
  (taskId, data).

(** ** AddTaskModal.jsx *)

Record FormData : Type := {
  fd_title : string;
  fd_priority : string;
  fd_rating : string;
  fd_labels : list string
}.

Definition rawOfForm (formData : FormData) : RawTaskData :=
  {| raw_title := VStr (fd_title formData);
     raw_details := VUndefined;
     raw_priority := VStr (fd_priority formData);
     raw_rating := VStr (fd_rating formData);
     raw_labels := VArr (List.map VStr (fd_labels formData));
     raw_status := VUndefined |}.

Definition ltNum (a b : number) : bool :=
  match a, b with
  | NaN, _ | _, NaN => false
  | Fin p, Fin q => negb (Qle_bool q p)
  | NegInf, NegInf | PosInf, PosInf => false
  | NegInf, _ | _, PosInf => true
  | _, _ => false
  end.

(** [validateForm]: the flag [isValid] and the sanitized data. *)
Definition validateForm `{Host} (formData : FormData)
  : bool * SanitizedTaskData :=
  let sanitizedData := sanitizeTaskData (Some (rawOfForm formData)) in
  let titleOk :=
    match s_title sanitizedData with
    | Some t =>
        negb (String.eqb t EmptyString)
        && negb (String.length (trim t) =? 0)%nat
        && negb (200 <? String.length t)%nat
    | None => false
    end in
  let priorityOk := negb (String.eqb (fd_priority formData) EmptyString) in
  let ratingOk :=
    negb (String.eqb (fd_rating formData) EmptyString)
    && negb (String.eqb (trim (fd_rating formData)) EmptyString)
    && (let rating := parseFloat (VStr (fd_rating formData)) in
        negb (isNaN rating || ltNum rating (ofZ 0) || ltNum (ofZ 10) rating)) in
  (titleOk && priorityOk && ratingOk, sanitizedData).

(** [handleSubmit]: what is passed to [onSubmit], [None] when the form is
    not valid and nothing is submitted. *)
Definition handleSubmit `{Host} (columnId : string) (formData : FormData)
  : option (string * TaskData) :=
  let '(isValid, sanitizedData) := validateForm formData in
  if negb isValid then None
  else
    let rating := parseFloat (VStr (fd_rating formData)) in
    Some (columnId,
          {| td_id := None;
             td_title := s_title sanitizedData;
             td_details := None;
             td_labels := Some (default [] (s_labels sanitizedData));
             td_priority := Some (fd_priority formData);
             td_rating := Some (Math_min (Math_max rating (ofZ 0)) (ofZ 10));
             td_starred := Some false;
             td_status := None;
             td_createdAt := None;
             td_dueDate := None;
             td_priorityColor := None |}).

(** The board passes [addNewTask] as the [onSubmit] of the modal. *)
Definition submitNewTask `{Host} (columnId : string) (formData : FormData)
    (random : Q) (now : string) : option (string * Task) :=
  match handleSubmit columnId formData with
  | Some (c, taskData) => Some (addNewTask c taskData random now)
  | None => None
  end.

(** ** The kanban slice of the store *)

Record Column : Type := { col_id : string; col_title : string; order : Z }.
Record Label : Type := { label_id : string; name : string; color : string }.

(** [state.kanban].  [tasks] is the object keyed by column id that holds the
    ordered task list of each column. *)
Record Kanban : Type := {
  columns : list Column;
  tasks : gmap string (list Task);
  boardLabels : list Label
}.

Definition withTasks (k : Kanban) (t : gmap string (list Task)) : Kanban :=
  {| columns := columns k; tasks := t; boardLabels := boardLabels k |}.

Inductive Error : Type :=
| ValidationError (field : string)
| NotFoundError
| StateIntegrityViolation.

Inductive Result (A : Type) : Type :=
| Ok (a : A)
| Err (e : Error).
Arguments Ok {A} a.
Arguments Err {A} e.

(** The cap on the labels of a task: the 10 of [slice(0, 10)] in
    [sanitizeTaskData], the design cap of section 4.3. *)
Definition labelCap : nat := 10.

(** Modelled from the spec: the validation layer of the board store
    (section 4.3), which kanbanSlice.js would hold and which is not under
    src/.  Rating is clamped to [0,10], as [sanitizeTaskData] clamps it;
    the labels are cut to the design cap of 10, as [sanitizeTaskData] cuts
    them; a priority outside the enum is rejected. *)
Definition clampRating `{Host} (r : number) : number :=
  sanitizeNumber (VNum r)
    {| min := Some (ofZ 0); max := Some (ofZ 10);
       defaultValue := Some (ofZ 0); allowFloat := Some true |}.

(** Modelled from the spec: membership in the priority enum (section 4.3),
    with the enum as [sanitizeTaskData] lists it; kanbanSlice.js is not under
    src/. *)
Definition validPriority (p : string) : bool :=
  existsb (String.eqb p) allowedPriorities.

(** Modelled from the spec: validation of the fields of a patch (section
    4.3); kanbanSlice.js is not under src/. *)
Definition validatePatch `{Host} (data : TaskData) : Result TaskData :=
  if match td_priority data with Some p => validPriority p | None => true end
  then
    Ok {| td_id := td_id data;
          td_title := td_title data;
          td_details := td_details data;
          td_labels := option_map (firstn labelCap) (td_labels data);
          td_priority := td_priority data;
          td_rating := option_map clampRating (td_rating data);
          td_starred := td_starred data;
          td_status := td_status data;
          td_createdAt := td_createdAt data;
          td_dueDate := td_dueDate data;
          td_priorityColor := td_priorityColor data |}
  else Err (ValidationError "priority").

(** Modelled from the spec: validation of a whole task (section 4.3);
    kanbanSlice.js is not under src/. *)
Definition validateTask `{Host} (task : Task) : Result Task :=
  if validPriority (priority task)
  then
    Ok {| id := id task;
          title := title task;
          details := details task;
          labels := option_map (firstn labelCap) (labels task);
          priority := priority task;
          rating := option_map clampRating (rating task);
          starred := starred task;
          status := status task;
          createdAt := createdAt task;
          dueDate := dueDate task;
          priorityColor := priorityColor task |}
  else Err (ValidationError "priority").

(** Modelled from the spec: the [addTask] reducer of kanbanSlice.js, which
    is not under src/.  Section 4.1: the task is appended to the end of the
    list of [columnId]; NotFoundError if [columnId] does not exist. *)
Definition addTask `{Host} (payload : string * Task) (k : Kanban)
  : Result Kanban :=
  let '(columnId, task) := payload in
  match tasks k !! columnId with
  | None => Err NotFoundError
  | Some l =>
      match validateTask task with
      | Err e => Err e
      | Ok task => Ok (withTasks k (<[columnId := l ++ [task]]> (tasks k)))
      end
  end.

Definition hasId (taskId : Z) (t : Task) : bool := Z.eqb (id t) taskId.

(** Some stored task, in some column, satisfies [p]. *)
Definition anyTask (p : Task -> bool) (k : Kanban) : bool :=
  existsb (fun cl => existsb p cl.2) (map_to_list (tasks k)).

(** A task with this id is stored in some column. *)
Definition taskExists (taskId : Z) (k : Kanban) : bool :=
  anyTask (hasId taskId) k.

(** Modelled from the spec: the [editTask] reducer of kanbanSlice.js, which
    is not under src/.  Section 4.1: the validated fields are merged into
    the task wherever it resides, column membership does not change;
    NotFoundError if the task is missing. *)
Definition editTask `{Host} (payload : Z * TaskData) (k : Kanban)
  : Result Kanban :=
  let '(taskId, data) := payload in
  if taskExists taskId k then
    match validatePatch data with
    | Err e => Err e
    | Ok data =>
        Ok (withTasks k
              (List.map (fun t => if hasId taskId t then spread t data else t)
                 <$> tasks k))
    end
  else Err NotFoundError.

Definition hasLabel (labelId : string) (t : Task) : bool :=
  match labels t with
  | Some ls => existsb (String.eqb labelId) ls
  | None => false
  end.

(** Modelled from the spec: the [addLabelToTask] reducer of kanbanSlice.js
    (attachLabel), which is not under src/.  Section 4.1: attaching a label
    that is attached already is a no-op; section 4.3: the cap on the label
    count is checked again. *)
Definition attachLabel (taskId : Z) (labelId : string) (k : Kanban)
  : Result Kanban :=
  if taskExists taskId k then
    if anyTask (fun t => hasId taskId t && negb (hasLabel labelId t)
                         && (labelCap <=? length (default [] (labels t)))%nat) k
    then Err (ValidationError "labels")
    else
      Ok (withTasks k
            (List.map (fun t =>
                if hasId taskId t && negb (hasLabel labelId t)
                then spread t {| td_id := None; td_title := None;
                                 td_details := None;
                                 td_labels :=
                                   Some (default [] (labels t) ++ [labelId]);
                                 td_priority := None; td_rating := None;
                                 td_starred := None; td_status := None;
                                 td_createdAt := None; td_dueDate := None;
                                 td_priorityColor := None |}
                else t)
               <$> tasks k))
  else Err NotFoundError.

End Board.

(* ===================================================================== *)
(** * The view projector: processedTasks of useTaskManagement.js          *)
(* ===================================================================== *)

Module Projector.
Import Str Sanitize Board.

(** [filters.label]: null, one label id, or an array of label ids. *)
Inductive LabelFilter : Type :=
| NoLabel
| OneLabel (labelId : string)
| ManyLabels (labelIds : list string).

(** [state.filter] *)
Record Filters : Type := {
  search : string;
  label : LabelFilter;
  fpriority : option string;
  sort : string
}.

Definition nonEmpty (s : string) : bool := negb (String.eqb s EmptyString).

(** The predicate of the search filter. *)
Definition matchesSearch (search : string) (task : Task) : bool :=
  includes (toLowerCase (title task)) (toLowerCase search)
  || includes (toLowerCase (details task)) (toLowerCase search).

(** [arr.includes(x)] on an array of strings. *)
Definition arrayIncludes (arr : list string) (x : string) : bool :=
  existsb (String.eqb x) arr.

(** The predicate of the label filter for an array of ids:
    [task.labels && filters.label.some(id => task.labels.includes(id))]. *)
Definition hasSomeLabel (labelIds : list string) (task : Task) : bool :=
  match labels task with
  | Some taskLabels => existsb (fun labelId => arrayIncludes taskLabels labelId) labelIds
  | None => false
  end.

(** Modelled from the spec: [filterTasksByLabel] of
    utils/filterTasksByLabel.js, which is not under src/.  Section 4.2: for a
    single id, keep the tasks whose labels contain it. *)
Definition filterTasksByLabel (columnTasks : list Task) (labelId : string)
  : list Task :=
  List.filter (hasLabel labelId) columnTasks.

(** The three filter stages; [None] when the stage is switched off and the
    array is passed on as it is. *)
Definition searchStage (filters : Filters) : option (list Task -> list Task) :=
  if nonEmpty (search filters)
  then Some (List.filter (matchesSearch (search filters)))
  else None.

Definition labelStage (filters : Filters) : option (list Task -> list Task) :=
  match label filters with
  | NoLabel => None
  | OneLabel labelId =>
      if nonEmpty labelId
      then Some (fun columnTasks => filterTasksByLabel columnTasks labelId)
      else None
  | ManyLabels labelIds => Some (List.filter (hasSomeLabel labelIds))
  end.

Definition priorityStage (filters : Filters) : option (list Task -> list Task) :=
  match fpriority filters with
  | Some p =>
      if nonEmpty p
      then Some (List.filter (fun task => String.eqb (priority task) p))
      else None
  | None => None
  end.

(** ** Sorting *)

(** [priorityOrder[p]] as the subtraction sees it: a missing key is
    [undefined], which the subtraction turns into NaN. *)
Definition priorityOrder (p : string) : number :=
  if String.eqb p "Critical" then ofZ 4
  else if String.eqb p "High" then ofZ 3
  else if String.eqb p "Medium" then ofZ 2
  else if String.eqb p "Low" then ofZ 1
  else NaN.

(** [new Date(s)] in a subtraction. *)
Definition dateValue `{Host} (s : string) : number :=
  match Date_parse s with
  | Some t => ofZ t
  | None => NaN
  end.

Definition ratingOrZero (t : Task) : number := orNumber (rating t) (ofZ 0).

Definition Comparator : Type := Task -> Task -> number.

(** The comparator chosen by [filters.sort]; [None] for a key outside the
    enum, for which the array is not sorted. *)
Definition comparatorOf `{Host} (sort : string) : option Comparator :=
  if String.eqb sort "date" then
    Some (fun a b => sub (dateValue (createdAt b)) (dateValue (createdAt a)))
  else if String.eqb sort "date-asc" then
    Some (fun a b => sub (dateValue (createdAt a)) (dateValue (createdAt b)))
  else if String.eqb sort "priority" then
    Some (fun a b => sub (priorityOrder (priority b)) (priorityOrder (priority a)))
  else if String.eqb sort "priority-asc" then
    Some (fun a b => sub (priorityOrder (priority a)) (priorityOrder (priority b)))
  else if String.eqb sort "title" then
    Some (fun a b => ofZ (localeCompare (title a) (title b)))
  else if String.eqb sort "title-desc" then
    Some (fun a b => ofZ (localeCompare (title b) (title a)))
  else if String.eqb sort "rating" then
    Some (fun a b => sub (ratingOrZero b) (ratingOrZero a))
  else if String.eqb sort "rating-asc" then
    Some (fun a b => sub (ratingOrZero a) (ratingOrZero b))
  else None.

(** The comparator says that [a] goes after [b]: its result is positive.
    NaN counts as zero. *)
Definition goesAfter (cmp : Comparator) (a b : Task) : bool :=
  ltNum (ofZ 0) (cmp a b).

(** The comparator says that [a] goes before [b]: its result is negative. *)
Definition goesBefore (cmp : Comparator) (a b : Task) : bool :=
  ltNum (cmp a b) (ofZ 0).

(** The comparator makes no difference between [a] and [b]. *)
Definition tied (cmp : Comparator) (a b : Task) : bool :=
  negb (goesAfter cmp a b) && negb (goesAfter cmp b a).

(** The sorted arrangement in which tied elements keep their order: every
    element is put in front of the first element it does not go after. *)
Fixpoint insertSorted (cmp : Comparator) (x : Task) (l : list Task)
  : list Task :=
  match l with
  | [] => [x]
  | y :: l' =>
      if goesAfter cmp x y then y :: insertSorted cmp x l' else x :: l
  end.

Definition stableSort (cmp : Comparator) (l : list Task) : list Task :=
  fold_right (insertSorted cmp) [] l.

(** A consistent comparator for the elements of [l], as the language
    standard has it, a NaN result being read as zero the way [sort] reads
    it: [a] goes before [b] exactly when [b] goes after [a], and not going
    after is transitive.  Such a comparator cuts [l] into classes of tied
    elements and puts the classes in an order. *)
Definition consistentOn (cmp : Comparator) (l : list Task) : Prop :=
  (forall a b, In a l -> In b l -> goesBefore cmp a b = goesAfter cmp b a)
  /\ (forall a b c, In a l -> In b l -> In c l ->
        goesAfter cmp a b = false -> goesAfter cmp b c = false ->
        goesAfter cmp a c = false).

(** [Array.prototype.sort(cmp)] is the engine's.  The language promises that
    the result is a rearrangement of the array and, for a consistent
    comparator, that it is sorted with tied elements in the order they had,
    which is the arrangement [stableSort] gives.  For any other comparator
    (one that gives NaN for a priority outside the enum or a date that does
    not parse) the order is the engine's choice. *)
Class Engine : Type := {
  Array_sort : Comparator -> list Task -> list Task;
  Array_sort_rearranges :
    forall cmp l, Permutation (Array_sort cmp l) l;
  Array_sort_consistent :
    forall cmp l, consistentOn cmp l -> Array_sort cmp l = stableSort cmp l
}.

Definition sortStage `{Host} `{Engine} (filters : Filters)
  : list Task -> list Task :=
  match comparatorOf (sort filters) with
  | Some cmp => Array_sort cmp
  | None => fun columnTasks => columnTasks
  end.

Definition applyStage (stage : option (list Task -> list Task))
    (columnTasks : list Task) : list Task :=
  match stage with
  | Some f => f columnTasks
  | None => columnTasks
  end.

(** The tasks of a column that pass the three filters, in stored order. *)
Definition filterColumn (filters : Filters) (columnTasks : list Task)
  : list Task :=
  applyStage (priorityStage filters)
    (applyStage (labelStage filters)
       (applyStage (searchStage filters) columnTasks)).

(** The body of the [forEach] of [processedTasks], on the contents of the
    array of one column. *)
Definition processColumn `{Host} `{Engine} (filters : Filters)
    (columnTasks : list Task) : list Task :=
  sortStage filters (filterColumn filters columnTasks).

(** ** Arrays with identity *)

(** The heap holds the arrays; an array is known by its address.  A new
    array gets the next free address. *)
Abbreviation loc := nat (only parsing).
Abbreviation heap := (list (list Task)) (only parsing).

(** A computation that reads and writes arrays. *)
Definition Heap (A : Type) : Type := heap -> heap * A.

Definition ret {A} (a : A) : Heap A := fun h => (h, a).
Definition bind {A B} (m : Heap A) (f : A -> Heap B) : Heap B :=
  fun h => let '(h', a) := m h in f a h'.

Notation "'let!' x ':=' m 'in' k" := (bind m (fun x => k))
  (at level 10, x name, m at level 100, k at level 200).

(** The contents of the array at [l]. *)
Definition read (l : loc) : Heap (list Task) :=
  fun h => (h, default [] (h !! l)).

(** A new array with these contents: [[...arr]], [arr.filter(f)]. *)
Definition alloc (contents : list Task) : Heap loc :=
  fun h => (h ++ [contents], length h).

(** Overwriting the contents of the array at [l]: [arr.sort(cmp)]. *)
Definition write (l : loc) (contents : list Task) : Heap unit :=
  fun h => (<[l := contents]> h, tt).

(** [columnTasks = columnTasks.filter(...)] under its guard. *)
Definition runStage (stage : option (list Task -> list Task))
    (columnTasks : loc) : Heap loc :=
  match stage with
  | Some f => let! arr := read columnTasks in alloc (f arr)
  | None => ret columnTasks
  end.

(** The body of the [forEach] of [processedTasks] for the column whose
    stored array is at [stored]; the result is the address put into
    [result[columnId]]. *)
Definition projectColumn `{Host} `{Engine} (filters : Filters) (stored : loc)
  : Heap loc :=
  let! arr := read stored in
  let! columnTasks := alloc arr in               (* [...kanban.tasks[columnId]] *)
  let! columnTasks := runStage (searchStage filters) columnTasks in
  let! columnTasks := runStage (labelStage filters) columnTasks in
  let! columnTasks := runStage (priorityStage filters) columnTasks in
  let! arr := read columnTasks in
  let! _done := write columnTasks (sortStage filters arr) in   (* in place *)
  ret columnTasks.

Fixpoint forEachColumn `{Host} `{Engine} (filters : Filters)
    (entries : list (string * loc)) (result : gmap string loc)
  : Heap (gmap string loc) :=
  match entries with
  | [] => ret result
  | (columnId, stored) :: rest =>
      let! columnTasks := projectColumn filters stored in
      forEachColumn filters rest (<[columnId := columnTasks]> result)
  end.

(** [processedTasks]: [kanbanTasks] is [kanban.tasks], which gives for each
    column id the address of the stored array. *)
Definition processedTasks `{Host} `{Engine} (filters : Filters)
    (kanbanTasks : gmap string loc) : Heap (gmap string loc) :=
  forEachColumn filters (map_to_list kanbanTasks) ∅.

End Projector.

(* ===================================================================== *)
(** * The sort of one engine                                              *)
(* ===================================================================== *)

(** The sort of V8, the engine of Node and Chrome, on an array of fewer than
    64 elements, for which its TimSort has one run: the run the array starts
    with is found and made ascending, and every later element is put into
    it by a binary search.  The comparator is called through [Compare],
    which reads NaN as zero. *)
Module V8.
Import Board Projector.

(** [order < 0] *)
Definition negative (order : number) : bool := ltNum order (ofZ 0).

(** The loop of [CountAndMakeRun]: the elements that continue the run after
    [previousElement], and what is left of the array.  A descending run goes
    on while [order < 0], an ascending one while [order >= 0]. *)
Fixpoint continueRun (cmp : Comparator) (isDescending : bool)
    (previousElement : Task) (work : list Task) : list Task * list Task :=
  match work with
  | [] => ([], [])
  | currentElement :: rest =>
      let order := cmp currentElement previousElement in
      if Bool.eqb (negative order) isDescending then
        let '(run, after) := continueRun cmp isDescending currentElement rest in
        (currentElement :: run, after)
      else ([], work)
  end.

(** [CountAndMakeRun]: the run at the start of the array, reversed when it
    is descending, and the elements after it. *)
Definition countAndMakeRun (cmp : Comparator) (work : list Task)
  : list Task * list Task :=
  match work with
  | elementHigh :: elementLow :: rest =>
      let isDescending := negative (cmp elementLow elementHigh) in
      let '(run, after) := continueRun cmp isDescending elementLow rest in
      let run := elementHigh :: elementLow :: run in
      (if isDescending then rev run else run, after)
  | _ => (work, [])
  end.

(** The binary search of [BinaryInsertionSort] for the place of [pivot] in
    the sorted part; [fuel] bounds the turns of the loop. *)
Fixpoint search (cmp : Comparator) (pivot : Task) (sorted : list Task)
    (fuel left right : nat) : nat :=
  match fuel with
  | O => left
  | S fuel =>
      if (left <? right)%nat then
        let mid := (left + (right - left) / 2)%nat in
        let order := cmp pivot (List.nth mid sorted pivot) in
        if negative order
        then search cmp pivot sorted fuel left mid
        else search cmp pivot sorted fuel (S mid) right
      else left
  end.

(** One turn of the outer loop of [BinaryInsertionSort]. *)
Definition insertPivot (cmp : Comparator) (sorted : list Task) (pivot : Task)
  : list Task :=
  let left := search cmp pivot sorted (length sorted) O (length sorted) in
  List.firstn left sorted ++ pivot :: List.skipn left sorted.

Definition sort (cmp : Comparator) (work : list Task) : list Task :=
  let '(run, rest) := countAndMakeRun cmp work in
  fold_left (insertPivot cmp) rest run.

End V8.

(* ===================================================================== *)
(** * authSlice.js: the login and signup thunks                           *)
(* ===================================================================== *)

Module Auth.
Import Str Sanitize Board.

Record User : Type := {
  user_id : Z;
  email : string;
  password : string;
  user_createdAt : string
}.

(** The user data a thunk returns: the user without the password. *)
Record UserInfo : Type := { info_email : string; info_id : Z }.

(** What [JSON.parse(localStorage.getItem('kanban_registered_users'))] finds. *)
Inductive StoredUsers : Type :=
| NoItem                       (* no item under the key *)
| Unparsable                   (* the item is not JSON: the parse throws *)
| NotAnArray                   (* JSON, but not an array *)
| UserList (users : list User).

Record Storage : Type := {
  registeredUsers : StoredUsers;
  savedBoards : gmap string Kanban;
  (** [localStorage.setItem] throws: the quota is used up or the storage is
      switched off. *)
  full : bool
}.

(** The redux state the thunks see: [state.auth.user] and [state.kanban].
    The reducers of the auth slice, which record the outcome of a thunk in
    [state.auth], do not touch [state.kanban] and are left out. *)
Record Store : Type := {
  authUser : option UserInfo;
  kanban : Kanban
}.

Record World : Type := {
  store : Store;
  localStorage : Storage
}.

Inductive Outcome : Type :=
| Fulfilled (user : UserInfo)
| Rejected (message : string).

(** What a call of [loadPersistedState] can come to. *)
Inductive Loaded : Type :=
| LoadThrows                           (* the call throws *)
| LoadNull                             (* it returns null *)
| LoadObject (kanban : option Kanban). (* an object, with or without a kanban key *)

(** utils/persistState.js and the seed of kanbanSlice.js are not under src/:
    the thunks are modelled for any such collaborator. *)
Class Persist : Type := {
  (** [resetKanbanState] restores this state. *)
  initialState : Kanban;
  (** [clearUserData(email)]; [None] when the call throws. *)
  clearUserData : Storage -> string -> option Storage;
  loadPersistedState : Storage -> string -> Loaded
}.

(** [getRegisteredUsers]: the parse is inside a try whose catch returns the
    empty array.  [None] is a value that is not an array. *)
Definition getRegisteredUsers (ls : Storage) : option (list User) :=
  match registeredUsers ls with
  | NoItem => Some []
  | Unparsable => Some []
  | NotAnArray => None
  | UserList users => Some users
  end.

(** [saveRegisteredUsers]: what [setItem] throws is caught and logged, and
    the caller goes on. *)
Definition saveRegisteredUsers (users : list User) (ls : Storage) : Storage :=
  if full ls then ls
  else {| registeredUsers := UserList users; savedBoards := savedBoards ls;
          full := full ls |}.

(** Modelled from the spec: the reducers [resetKanbanState] and
    [setKanbanFromLocalStorage] of kanbanSlice.js, which is not under src/.
    Section 6: resetState restores the default seed, replaceState hydrates
    the store wholesale.  The two definitions are a [dispatch] of each on the
    store. *)
Definition resetKanbanState `{Persist} (s : Store) : Store :=
  {| authUser := authUser s; kanban := initialState |}.

Definition setKanbanFromLocalStorage (payload : Kanban) (s : Store) : Store :=
  {| authUser := authUser s; kanban := payload |}.

Definition isEmpty (s : string) : bool := String.eqb s EmptyString.

Definition passwordOptions : InputOptions :=
  {| maxLength := Some 100; allowHTML := Some false;
     preserveNewlines := Some false |}.

Definition loginFailed : string := "Login failed. Please try again.".
Definition signupFailed : string := "Signup failed. Please try again.".

(** The payload creator of the [login] thunk, run without another action in
    between.  What is thrown inside the [try] is caught and turned into the
    rejection [loginFailed]; the world is then the one reached when the
    exception was thrown. *)
Definition login `{Persist} (email_ password_ : value) (w : World)
  : World * Outcome :=
  (* Sanitize and validate inputs *)
  let sanitizedEmail := sanitizeEmail email_ in
  let sanitizedPassword := sanitizeInput password_ passwordOptions in
  if isEmpty sanitizedEmail then
    (w, Rejected "Please enter a valid email address")
  else if isEmpty sanitizedPassword
          || (String.length sanitizedPassword <? 1)%nat then
    (w, Rejected "Password is required")
  else
    match getRegisteredUsers (localStorage w) with
    | None => (w, Rejected loginFailed)      (* [find] is not a function *)
    | Some registeredUsers =>
      match List.find (fun u => String.eqb (email u) sanitizedEmail)
              registeredUsers with
      | None => (w, Rejected "User not registered. Please sign up first.")
      | Some user =>
        if negb (String.eqb (password user) sanitizedPassword) then
          (w, Rejected "Invalid password")
        else
          (* Check if switching users and clear previous data if needed *)
          let switched : option World :=
            match authUser (store w) with
            | Some current =>
                if negb (String.eqb (info_email current) sanitizedEmail) then
                  match clearUserData (localStorage w) (info_email current) with
                  | Some ls =>
                      Some {| store := resetKanbanState (store w);
                              localStorage := ls |}
                  | None => None
                  end
                else Some w
            | None => Some w
            end in
          match switched with
          | None => (w, Rejected loginFailed)
          | Some w1 =>
            (* Load user's kanban data *)
            match loadPersistedState (localStorage w1) sanitizedEmail with
            | LoadThrows => (w1, Rejected loginFailed)
            | LoadNull => (w1, Rejected loginFailed)   (* destructuring null *)
            | LoadObject (Some kanban) =>
                ({| store := setKanbanFromLocalStorage kanban (store w1);
                    localStorage := localStorage w1 |},
                 Fulfilled {| info_email := email user; info_id := user_id user |})
            | LoadObject None =>
                ({| store := resetKanbanState (store w1);
                    localStorage := localStorage w1 |},
                 Fulfilled {| info_email := email user; info_id := user_id user |})
            end
          end
      end
    end.

(** The payload creator of the [signup] thunk.  [nowMs] is what [Date.now()]
    returned and [nowIso] what [new Date().toISOString()] returned. *)
Definition signup (email_ password_ : value) (nowMs : Z) (nowIso : string)
    (w : World) : World * Outcome :=
  let sanitizedEmail := sanitizeEmail email_ in
  let sanitizedPassword := sanitizeInput password_ passwordOptions in
  (* Enhanced validation *)
  if isEmpty sanitizedEmail then
    (w, Rejected "Please enter a valid email address")
  else if isEmpty sanitizedPassword
          || (String.length sanitizedPassword <? 6)%nat then
    (w, Rejected "Password must be at least 6 characters long")
  else if (50 <? String.length sanitizedPassword)%nat then
    (w, Rejected "Password must be less than 50 characters")
  else
    match getRegisteredUsers (localStorage w) with
    | None => (w, Rejected signupFailed)
    | Some registeredUsers =>
      match List.find (fun u => String.eqb (email u) sanitizedEmail)
              registeredUsers with
      | Some existingUser =>
          (w, Rejected "User already registered. Please login instead.")
      | None =>
          let newUser :=
            {| user_id := nowMs; email := sanitizedEmail;
               password := sanitizedPassword; user_createdAt := nowIso |} in
          ({| store := store w;
              localStorage :=
                saveRegisteredUsers (registeredUsers ++ [newUser])
                  (localStorage w) |},
           Fulfilled {| info_email := email newUser; info_id := user_id newUser |})
      end
    end.

End Auth.

(* ===================================================================== *)
(** * Concrete collaborators, for running the model                       *)
(* ===================================================================== *)

Module Sample.
Import Str Sanitize Board Projector Auth.

(** A host whose collation compares lengths and whose dates are the length
    of the text; enough to run the model. *)
#[export] Instance host : Host := {|
  ToString := fun _ => EmptyString;
  parseFloatString := fun _ => NaN;
  Date_parse := fun s => Some (Z.of_nat (String.length s));
  localeCompare := fun a b => Z.of_nat (String.length a) - Z.of_nat (String.length b)
|}.

Definition seed : Kanban :=
  {| columns := [ {| col_id := "backlog"; col_title := "Backlog"; order := 0 |};
                  {| col_id := "todo"; col_title := "To Do"; order := 1 |} ];
     tasks := {[ "backlog" := []; "todo" := [] ]};
     boardLabels := [] |}.

(** Modelled from the spec: [loadPersistedState] of utils/persistState.js,
    which is not under src/.  Section 6: [loadPersistedState(userKey)] gives
    the saved snapshot of the user, or null when there is none.
    [clearUserData] drops what is saved for the user, as its name and the
    comment at its call say. *)
#[export] Instance persist : Persist := {|
  initialState := seed;
  clearUserData := fun ls user =>
    Some {| registeredUsers := registeredUsers ls;
            savedBoards := delete user (savedBoards ls);
            full := full ls |};
  loadPersistedState := fun ls user =>
    match savedBoards ls !! user with
    | Some k => LoadObject (Some k)
    | None => LoadNull
    end
|}.


Definition task (i : Z) (t : string) (p : string) (r : Q) (ls : list string)
  : Task :=
  {| id := i; title := t; details := EmptyString; labels := Some ls;
     priority := p; rating := Some (Fin r); starred := false;
     status := EmptyString; createdAt := "2026-01-01T00:00:00.000Z";
     dueDate := EmptyString; priorityColor := getPriorityColor p |}.

(** A board with one task in the backlog, a signed-in user, and one more
    registered user who has saved nothing yet. *)
Definition busyBoard : Kanban :=
  {| columns := columns seed;
     tasks := {[ "backlog" := [task 1001 "Rotate the signing keys" "High" 7.5 []];
                 "todo" := [] ]};
     boardLabels := [] |}.

Definition alice : UserInfo := {| info_email := "alice@corp.io"; info_id := 1 |}.

Definition bob : User :=
  {| user_id := 2; email := "bob@corp.io"; password := "hunter22";
     user_createdAt := "2026-01-01T00:00:00.000Z" |}.

Definition busyWorld : World :=
  {| store := {| authUser := Some alice; kanban := busyBoard |};
     localStorage := {| registeredUsers := UserList [bob];
                        savedBoards := ∅; full := false |} |}.

(** Three tasks and a filter with a search string, two label ids and a
    priority. *)
Definition fixInjection : Task :=
  task 1 "Fix SQL injection in login" "High" 9.1 ["lbl-A"].
Definition updateDocs : Task :=
  task 2 "Update the runbook" "High" 3 ["lbl-A"; "lbl-C"].
Definition auditQueries : Task :=
  task 3 "Audit sql queries" "Low" 5 ["lbl-B"].
Definition rotateKeys : Task :=
  task 4 "Rotate the signing keys" "Critical" 7.5 [].

Definition backlog : list Task :=
  [auditQueries; fixInjection; rotateKeys; updateDocs].

(** Seven findings of a scanner; the fifth has a priority that is not of
    the enum, the last two are both High. *)
Definition finding (i : Z) (p : string) : Task :=
  task i "Scanner finding" p 5 [].

Definition mixedBacklog : list Task :=
  [finding 1 "Critical"; finding 2 "Critical"; finding 3 "Medium";
   finding 4 "High"; finding 5 "Urgent"; finding 6 "High"; finding 7 "High"].

Definition sqlFilters : Filters :=
  {| search := "SQL"; label := ManyLabels ["lbl-A"; "lbl-B"];
     fpriority := Some "High"; sort := "priority" |}.

Definition bySort (key : string) : Filters :=
  {| search := EmptyString; label := NoLabel; fpriority := None; sort := key |}.

(** A task data with twelve labels. *)
Definition twelveLabels : TaskData :=
  {| td_id := None; td_title := Some "Triage the scanner findings";
     td_details := None;
     td_labels := Some ["l1"; "l2"; "l3"; "l4"; "l5"; "l6"; "l7"; "l8"; "l9";
                        "l10"; "l11"; "l12"];
     td_priority := Some "Low"; td_rating := Some (Fin 4); td_starred := None;
     td_status := None; td_createdAt := None; td_dueDate := None;
     td_priorityColor := None |}.

Definition today : string := "2026-11-03T10:00:00.000Z".

Definition afterAdd : Kanban :=
  match addTask (addNewTask "backlog" twelveLabels 0.5 today) seed with
  | Ok k => k
  | Err _ => seed
  end.

End Sample.

(* ===================================================================== *)
(** * The vocabulary of the statements                                    *)
(* ===================================================================== *)

Module Vocabulary.
Import Str Sanitize Board Projector.

(** [x] put behind the elements it does not go before: the place in the
    sorted part of an element that came last in the array. *)
Fixpoint insertLast (cmp : Comparator) (x : Task) (l : list Task) : list Task :=
  match l with
  | [] => [x]
  | y :: l' => if goesBefore cmp x y then x :: l else y :: insertLast cmp x l'
  end.

(** Every element of [run] stands to the one in front of it, [previous] for
    the first, as the run has it: it goes before it in a descending run and
    does not in an ascending one. *)
Fixpoint isRun (cmp : Comparator) (isDescending : bool) (previous : Task)
    (run : list Task) : Prop :=
  match run with
  | [] => True
  | current :: rest =>
      goesBefore cmp current previous = isDescending
      /\ isRun cmp isDescending current rest
  end.

(** A character other than less-than, greater-than and the two quotes. *)
Definition harmless (c : ascii) : bool := negb (isDangerous c).

(** [t] occurs in [s]: [s] is some text, then [t], then some text. *)
Definition isSubstringOf (t s : string) : Prop :=
  exists pre suf, s = (pre ++ t ++ suf)%string.

(** [a] occurs in [l] at a position before an occurrence of [b]. *)
Inductive before (a b : Task) : list Task -> Prop :=
| before_here l : In b l -> before a b (a :: l)
| before_later x l : before a b l -> before a b (x :: l).

(** The rank of a priority, as the design gives it. *)
Definition priorityRank (p : string) : Z :=
  if String.eqb p "Critical" then 4
  else if String.eqb p "High" then 3
  else if String.eqb p "Medium" then 2
  else if String.eqb p "Low" then 1
  else 0.

Definition rankOf (t : Task) : Z := priorityRank (priority t).

(** From the heap [h0] on, only new arrays were made and written: [h] is [h0]
    with more arrays after it, and [l] is one of the new ones, holding [c]. *)
Definition holds (h0 h : list (list Task)) (l : nat) (c : list Task) : Prop :=
  (exists ext, h = h0 ++ ext) /\ (length h0 <= l)%nat /\ h !! l = Some c.

(** The patch with the one key rating. *)
Definition ratingPatch (r : Z) : TaskData :=
  {| td_id := None; td_title := None; td_details := None; td_labels := None;
     td_priority := None; td_rating := Some (ofZ r); td_starred := None;
     td_status := None; td_createdAt := None; td_dueDate := None;
     td_priorityColor := None |}.

(** The task with id [taskId] is stored, and whatever is stored under that id
    has the rating [r]. *)
Definition readsBackRating (taskId : Z) (r : number) (k : Kanban) : Prop :=
  (exists c l t, tasks k !! c = Some l /\ In t l /\ id t = taskId)
  /\ (forall c l t, tasks k !! c = Some l -> In t l -> id t = taskId ->
                    rating t = Some r).

(** No stored task has more than ten labels. *)
Definition withinCap (k : Kanban) : Prop :=
  forall c l t ls,
    tasks k !! c = Some l -> In t l -> labels t = Some ls ->
    (length ls <= labelCap)%nat.

End Vocabulary.
Export Vocabulary.

Module LoginVocabulary.
Import Str Sanitize Board Auth.





End LoginVocabulary.
Export LoginVocabulary.

(* ===================================================================== *)
(** * inputSanitization.js: file names, columns, labels, nested data      *)
(* ===================================================================== *)

Module SanitizeMore.
Import Str Sanitize.

(** The class of the characters slash, backslash, colon, star, question
    mark, double quote, less-than, greater-than and bar. *)
Definition isPathChar (c : ascii) : bool :=
  isChar 47 c || isChar 92 c || isChar 58 c || isChar 42 c || isChar 63 c
  || isChar 34 c || isChar 60 c || isChar 62 c || isChar 124 c.

Definition isDot (c : ascii) : bool := isChar 46 c.

(** [/\.{2,}/]: a whole run of two dots or more. *)
Definition dotRun : Regex :=
  fun s => let n := spanLength isDot s in
           if (2 <=? n)%nat then Some n else None.

(** [sanitizeFilename(filename, maxLength = 255)] *)
Definition sanitizeFilename (filename : value) (maxLength : option Z) : string :=
  match filename with
  | VStr filename =>
      let maxLength := default 255 maxLength in
      (* Remove path traversal attempts and dangerous characters *)
      let replaced :=
        replaceAll dotRun "."
          (replaceAll (charClass isPathChar) "_" filename) in
      let sanitized := trim (drop (spanLength isDot replaced) replaced) in
      (* Limit length and ensure it's not empty *)
      let result := take (Z.to_nat maxLength) sanitized in
      if String.eqb result EmptyString then "untitled" else result
  | _ => EmptyString
  end.

(** The raw column object: a missing key is [VUndefined]. *)
Record RawColumnData : Type := {
  rawc_title : value;
  rawc_order : value
}.

Record SanitizedColumnData : Type := {
  sc_title : option string;
  sc_order : option number
}.

(** [columnData] is [None] when the argument is falsy or not an object. *)
Definition sanitizeColumnData `{Host} (columnData : option RawColumnData)
  : SanitizedColumnData :=
  match columnData with
  | None => {| sc_title := None; sc_order := None |}
  | Some columnData =>
    {| (* Title - required, max 100 characters *)
       sc_title :=
         if truthy (rawc_title columnData)
         then Some (sanitizeInput (rawc_title columnData)
                      (opts 100 (Some false) (Some false)))
         else None;
       (* Order - number *)
       sc_order :=
         match rawc_order columnData with
         | VUndefined => None
         | order =>
             Some (sanitizeNumber order
                     {| min := Some (ofZ 0); max := Some (ofZ 1000);
                        defaultValue := Some (ofZ 0);
                        allowFloat := Some false |})
         end |}
  end.

Record RawLabelData : Type := {
  rawl_name : value;
  rawl_color : value
}.

Record SanitizedLabelData : Type := {
  sl_name : option string;
  sl_color : option string
}.

(** [[A-Fa-f0-9]] *)
Definition isHex (c : ascii) : bool :=
  inRange 65 70 c || inRange 97 102 c || isDigit c.

(** [/^#([A-Fa-f0-9]{6}|[A-Fa-f0-9]{3})$/.test(s)] *)
Definition colorRegex_test (s : string) : bool :=
  match s with
  | String c digits =>
      isChar 35 c && allChars isHex digits
      && ((String.length digits =? 6)%nat || (String.length digits =? 3)%nat)
  | EmptyString => false
  end.

(** [labelData] is [None] when the argument is falsy or not an object. *)
Definition sanitizeLabelData (labelData : option RawLabelData)
  : SanitizedLabelData :=
  match labelData with
  | None => {| sl_name := None; sl_color := None |}
  | Some labelData =>
    {| (* Name - required, max 50 characters *)
       sl_name :=
         if truthy (rawl_name labelData)
         then Some (sanitizeInput (rawl_name labelData)
                      (opts 50 (Some false) (Some false)))
         else None;
       (* Color - hex color code validation *)
       sl_color :=
         if truthy (rawl_color labelData)
         then
           let cleanColor :=
             sanitizeInput (rawl_color labelData) (opts 7 (Some false) None) in
           if colorRegex_test cleanColor then Some cleanColor else None
         else None |}
  end.

(** ** deepSanitize *)

(** A value with its parts: arrays of values and objects.  The entries of an
    object are listed in the order [Object.entries] gives them. *)
#[local] Set Warnings "-register-all".
Inductive data : Type :=
| DUndefined
| DNull
| DBool (b : bool)
| DNum (n : number)
| DStr (s : string)
| DArr (items : list data)
| DObj (entries : list (string * data)).

(** [obj[key] = v]: the value of an entry that is there is replaced, a new
    entry goes to the end. *)
Fixpoint assign (obj : list (string * data)) (key : string) (v : data)
  : list (string * data) :=
  match obj with
  | [] => [(key, v)]
  | (k, x) :: rest =>
      if String.eqb k key then (k, v) :: rest
      else (k, x) :: assign rest key v
  end.

Definition keyOptions : InputOptions :=
  {| maxLength := Some 100; allowHTML := Some false; preserveNewlines := None |}.

Fixpoint deepSanitize (obj : data) (options : InputOptions) : data :=
  match obj with
  | DNull | DUndefined => obj
  | DStr s => DStr (sanitizeInput (VStr s) options)
  | DArr items => DArr (List.map (fun item => deepSanitize item options) items)
  | DObj entries =>
      DObj (fold_left
              (fun sanitized entry =>
                 let '(key, value) := entry in
                 (* Sanitize both key and value *)
                 let cleanKey := sanitizeInput (VStr key) keyOptions in
                 if negb (String.eqb cleanKey EmptyString)
                 then assign sanitized cleanKey (deepSanitize value options)
                 else sanitized)
              entries [])
  (* For primitive types (number, boolean, etc.), return as-is *)
  | DBool _ | DNum _ => obj
  end.

End SanitizeMore.

(* ===================================================================== *)
(** * KanbanTaskCard.jsx: what the card shows of a task                   *)
(* ===================================================================== *)

Module Card.
Import Str Sanitize Board.

(** The [priorityColor] of the card. *)
Definition cardPriorityColor (priority : string) : string :=
  if String.eqb priority "Critical" then "#8b1538"
  else if String.eqb priority "High" then "#dc2626"
  else if String.eqb priority "Medium" then "#f97316"
  else if String.eqb priority "Low" then "#eab308"
  else "#6b7280".

(** [task.rating || 8.8] *)
Definition ratingValue (task : Task) : number :=
  orNumber (rating task) (Fin 8.8).

(** [Math.round]: the nearest integer, a half going up. *)
Definition Math_round (n : number) : number :=
  match n with
  | Fin q => Fin (inject_Z (Qfloor (q + (1 # 2))%Q))
  | _ => n
  end.

(** ** The arithmetic of doubles *)

(** A division or a multiplication of doubles gives the double nearest to
    the exact result.  What the gauge needs of that, for operands from 0 to
    1024: the result is a finite number, not negative, and is off the exact
    result by no more than [roundoff], which is 2^-50, times the exact
    result plus [tiniest], which is 2^-60.  (The standard promises the
    smaller bounds 2^-53 and 2^-1075; the wider ones also cover a rating
    that is written with more digits than a double holds.) *)
Definition roundoff : Q := Eval vm_compute in 1 # (2 ^ 50).
Definition tiniest : Q := Eval vm_compute in 1 # (2 ^ 60).

(** [r] is the exact value [exact], rounded. *)
Definition rounded (exact : Q) (r : number) : Prop :=
  match r with
  | Fin q =>
      (0 <= q)%Q
      /\ (exact * (1 - roundoff) - tiniest <= q)%Q
      /\ (q <= exact * (1 + roundoff) + tiniest)%Q
  | _ => False
  end.

Class Doubles : Type := {
  (** [x / y] *)
  divide : Q -> Q -> number;
  (** [x * y] *)
  times : Q -> Q -> number;
  divide_rounded :
    forall x y, (0 <= x)%Q -> (x <= 1024)%Q -> (1 <= y)%Q -> (y <= 1024)%Q ->
                rounded (x / y) (divide x y);
  times_rounded :
    forall x y, (0 <= x)%Q -> (x <= 1024)%Q -> (0 <= y)%Q -> (y <= 1024)%Q ->
                rounded (x * y) (times x y)
}.

(** [(n / 10) * 12]; an infinity and NaN go through both operations. *)
Definition twelfths `{Doubles} (n : number) : number :=
  match n with
  | Fin q =>
      match divide q 10 with
      | Fin d => times d 12
      | other => other
      end
  | _ => n
  end.

Definition filledSegments `{Doubles} (task : Task) : number :=
  Math_round (twelfths (ratingValue task)).

(** [ratingSegments]: the [filled] flag of the twelve segments, in order. *)
Definition ratingSegments `{Doubles} (task : Task) : list bool :=
  List.map (fun i => ltNum (ofZ (Z.of_nat i)) (filledSegments task)) (seq 0 12).

(** [getTaskLabels]: the label records of the ids of the task; an id without
    a record gives [undefined], which [filter(Boolean)] drops. *)
Definition getTaskLabels (task : Task) (availableLabels : list Label)
  : list Label :=
  match labels task with
  | None => []
  | Some taskLabels =>
      omap (fun labelId =>
              List.find (fun label => String.eqb (label_id label) labelId)
                availableLabels)
        taskLabels
  end.

Definition getFirstLabelColor (task : Task) (availableLabels : list Label)
  : string :=
  match getTaskLabels task availableLabels with
  | first :: _ => color first
  | [] => "#6b7280"
  end.

End Card.

(* ===================================================================== *)
(** * AddTaskModal.jsx: the submit button                                 *)
(* ===================================================================== *)

Module Modal.
Import Str Board.

(** [isFormValid]: the submit button is disabled when this is false. *)
Definition isFormValid (formData : FormData) : bool :=
  negb (String.eqb (trim (fd_title formData)) EmptyString)
  && negb (String.eqb (fd_priority formData) EmptyString)
  && negb (String.eqb (trim (fd_rating formData)) EmptyString).

End Modal.

(* ===================================================================== *)
(** * More vocabulary                                                     *)
(* ===================================================================== *)

Module Properties.
Import Str Sanitize SanitizeMore Board Projector Card.

(** A character outside the class of control characters that
    [sanitizeInput] removes. *)
Definition printable (c : ascii) : bool := negb (isControl c).

Definition startsWithSpace (s : string) : bool :=
  match s with
  | String c _ => isSpace c
  | EmptyString => false
  end.

(** A character no step of [sanitizeInput] reacts to: no control character,
    none of the four dangerous characters, no colon, no equals sign, no
    white space. *)
Definition inert (c : ascii) : bool :=
  negb (isControl c || isDangerous c || isChar 58 c || isChar 61 c
        || isSpace c).

(** [sanitizeInput] on a string, before the cut to [maxLength]. *)
Definition stripped (options : InputOptions) (s : string) : string :=
  let allowHTML := default false (allowHTML options) in
  let preserveNewlines := default true (preserveNewlines options) in
  let sanitized := replaceAll (charClass isControl) EmptyString s in
  let sanitized :=
    if negb allowHTML then
      replaceAll eventHandler EmptyString
        (replaceAll (literalCI "javascript:") EmptyString
           (replaceAll (charClass isDangerous) EmptyString
              (replaceAll htmlTag EmptyString sanitized)))
    else sanitized in
  let sanitized :=
    if negb preserveNewlines
    then replaceAll (charClass isNewline) " " sanitized
    else sanitized in
  trim sanitized.

(** A character [sanitizeEmail] keeps: a lower-case letter, a digit, or one
    of the at sign, dot, hyphen, underscore and plus. *)
Definition emailChar (c : ascii) : bool := negb (isEmailJunk c).

(** An address in the form [sanitizeEmail] accepts. *)
Definition wellFormedEmail (s : string) : bool :=
  allChars emailChar s && emailRegex_test s.

(** The order of the numbers; NaN is in no relation. *)
Definition leNum (a b : number) : Prop :=
  match a, b with
  | NaN, _ | _, NaN => False
  | NegInf, _ => True
  | _, PosInf => True
  | Fin p, Fin q => (p <= q)%Q
  | _, _ => False
  end.

(** [Math.max(lo, Math.min(hi, n))] *)
Definition clamp (lo hi n : number) : number := Math_max lo (Math_min hi n).
Arguments clamp : simpl never.

Definition isInteger (n : number) : Prop := exists z : Z, n = ofZ z.

(** The number is the integer [z] for some [z] from [lo] to [hi]. *)
Definition integerWithin (lo hi : Z) (n : number) : Prop :=
  exists z : Z, n = ofZ z /\ lo <= z <= hi.

(** The number is finite and lies from [lo] to [hi]. *)
Definition finiteWithin (lo hi : Z) (n : number) : Prop :=
  exists q : Q, n = Fin q /\ (inject_Z lo <= q)%Q /\ (q <= inject_Z hi)%Q.

Definition startsWithDot (s : string) : bool :=
  match s with
  | String c _ => isDot c
  | EmptyString => false
  end.

(** No dot of the text is followed by a dot. *)
Fixpoint noDoubleDot (s : string) : bool :=
  match s with
  | EmptyString => true
  | String c rest => negb (isDot c && startsWithDot rest) && noDoubleDot rest
  end.

(** A text of at most [n] characters, none of them dangerous. *)
Definition cleanText (n : nat) (s : string) : Prop :=
  (String.length s <= n)%nat /\ allChars harmless s = true.

(** The instant of the creation of a task, 0 when the date does not
    parse. *)
Definition createdTime `{Host} (t : Task) : Z :=
  default 0 (Date_parse (createdAt t)).

(** How far the two roundings can move twelve tenths of a rating of at
    most 10. *)
Definition gaugeSlack : Q := Eval vm_compute in 1 # (2 ^ 40).

(** The id is the id of one of the labels. *)
Definition hasRecord (availableLabels : list Label) (labelId : string) : bool :=
  existsb (fun label => String.eqb (label_id label) labelId) availableLabels.

(** A key that is not empty, has at most 100 characters and none of the
    dangerous ones. *)
Definition cleanKey (k : string) : bool :=
  negb (String.eqb k EmptyString) && (String.length k <=? 100)%nat
  && allChars harmless k.

(** A text with none of the dangerous characters that fits the [maxLength]
    of the options. *)
Definition cleanValue (options : InputOptions) (s : string) : bool :=
  allChars harmless s
  && (Z.of_nat (String.length s) <=? default 1000 (maxLength options)).

(** Every key of every object in the data passes [okKey] and every string
    value in it passes [okValue]. *)
Fixpoint everywhere (okKey okValue : string -> bool) (d : data) : bool :=
  match d with
  | DStr s => okValue s
  | DArr items => forallb (everywhere okKey okValue) items
  | DObj entries =>
      forallb (fun entry => okKey entry.1 && everywhere okKey okValue entry.2)
        entries
  | _ => true
  end.

End Properties.
Export Properties.

(* ===================================================================== *)
(** * More sample data                                                    *)
(* ===================================================================== *)

Module MoreSamples.
Import Str Sanitize SanitizeMore Board Projector Auth Card Modal Sample.

(** A host that reads the numeral 7.5 and no other. *)
Definition decimalHost : Host := {|
  ToString := fun _ => EmptyString;
  parseFloatString := fun s => if String.eqb s "7.5" then Fin 7.5 else NaN;
  Date_parse := fun s => Some (Z.of_nat (String.length s));
  localeCompare := fun a b => Z.of_nat (String.length a) - Z.of_nat (String.length b)
|}.

(** Two lines, the second after a line feed. *)
Definition twoLines : string := "  first" ++ String "010"%char "second".

Definition ratingBounds : NumberOptions :=
  {| min := Some (ofZ 0); max := Some (ofZ 10); defaultValue := Some (ofZ 0);
     allowFloat := Some true |}.

Definition orderBounds : NumberOptions :=
  {| min := Some (ofZ 0); max := Some (ofZ 1000); defaultValue := Some (ofZ 0);
     allowFloat := Some false |}.

Definition rawTask : RawTaskData :=
  {| raw_title := VStr "<b>Fix</b> the login";
     raw_details := VUndefined;
     raw_priority := VStr "High";
     raw_rating := VNum (ofZ 15);
     raw_labels := VArr [VStr "lbl-A"; VNum (ofZ 3)];
     raw_status := VStr "active" |}.

Definition rawColumn : RawColumnData :=
  {| rawc_title := VStr "In <i>review</i>"; rawc_order := VNum (Fin 2.5) |}.

Definition newForm : FormData :=
  {| fd_title := "Rotate the signing keys"; fd_priority := "High";
     fd_rating := "7.5"; fd_labels := ["lbl-A"] |}.

(** What the modal submits for [newForm]. *)
Definition submitted : string * TaskData :=
  default ("backlog", noTaskData) (@handleSubmit decimalHost "backlog" newForm).

Definition noLabels : Filters :=
  {| search := EmptyString; label := ManyLabels []; fpriority := None;
     sort := EmptyString |}.

(** Carol signs up while Alice is signed in. *)
Definition carolSignup : World * Outcome :=
  signup (VStr "Carol@Corp.io") (VStr "s3cret-pw") 3 today busyWorld.

Definition carol : UserInfo := {| info_email := "carol@corp.io"; info_id := 3 |}.

(** Nobody is signed in; Bob is registered and has a saved board. *)
Definition quietWorld : World :=
  {| store := {| authUser := None; kanban := seed |};
     localStorage := {| registeredUsers := UserList [bob];
                        savedBoards := {[ "bob@corp.io" := busyBoard ]};
                        full := false |} |}.

Definition bobLogin : World * Outcome :=
  login (VStr "bob@corp.io") (VStr "hunter22") quietWorld.

(** An arithmetic that rounds: every result goes to the nearest multiple of
    2^-61, a half going up. *)
Definition gridStep : Q := Eval vm_compute in 1 # (2 ^ 61).
Definition gridSize : Q := Eval vm_compute in inject_Z (2 ^ 61).
Definition toGrid (x : Q) : Q :=
  inject_Z (Qfloor (x * gridSize + (1 # 2))) * gridStep.

(** A host that knows three instants. *)
Definition calendarHost : Host := {|
  ToString := fun _ => EmptyString;
  parseFloatString := fun _ => NaN;
  Date_parse := fun s =>
    if String.eqb s "2026-10-30T08:15:00.000Z" then Some 1793348100000
    else if String.eqb s "2026-11-02T17:40:00.000Z" then Some 1793641200000
    else if String.eqb s "2026-11-03T10:00:00.000Z" then Some 1793700000000
    else None;
  localeCompare := fun a b => Z.of_nat (String.length a) - Z.of_nat (String.length b)
|}.

Definition dated (i : Z) (t : string) (created : string) : Task :=
  {| id := i; title := t; details := EmptyString; labels := Some [];
     priority := "Medium"; rating := Some (Fin 5); starred := false;
     status := EmptyString; createdAt := created;
     dueDate := EmptyString; priorityColor := getPriorityColor "Medium" |}.

Definition patchGateway : Task :=
  dated 11 "Patch the gateway" "2026-11-02T17:40:00.000Z".
Definition rotateTokens : Task :=
  dated 12 "Rotate the tokens" "2026-10-30T08:15:00.000Z".
Definition reviewFindings : Task :=
  dated 13 "Review the findings" "2026-11-03T10:00:00.000Z".

(** Three tasks, stored neither oldest first nor newest first. *)
Definition datedBacklog : list Task :=
  [patchGateway; rotateTokens; reviewFindings].

(** A persistence that gives an object, without the kanban key when nothing
    is saved for the user, as the [login] thunk reads it. *)
Definition objectLoad : Persist := {|
  initialState := seed;
  clearUserData := fun ls user =>
    Some {| registeredUsers := registeredUsers ls;
            savedBoards := delete user (savedBoards ls);
            full := full ls |};
  loadPersistedState := fun ls user => LoadObject (savedBoards ls !! user)
|}.

(** The world after the signup of Carol is recorded: she is the user of the
    store, the board is the one she saw. *)
Definition carolWorld : World :=
  {| store := {| authUser := Some carol; kanban := busyBoard |};
     localStorage := localStorage carolSignup.1 |}.

Definition boardLabelsSample : list Label :=
  [ {| label_id := "lbl-A"; name := "security"; color := "#dc2626" |};
    {| label_id := "lbl-B"; name := "backend"; color := "#2563eb" |} ].

Definition nested : data :=
  DObj [ ("title", DStr "<script>alert(1)</script>Task");
         ("<b>", DNum (ofZ 1));
         ("items", DArr [DStr "a > b"; DNull; DObj [("on<x", DBool true)]]) ].

End MoreSamples.

(* ===================================================================== *)
(** * Facts about strings                                                 *)
(* ===================================================================== *)

Section StringFacts.
Import Str.

Lemma length_take (n : nat) (s : string) :
  (String.length (take n s) <= n)%nat.
Proof.
  revert s; induction n as [|n IH]; intros [|c s]; simpl; try lia.
  specialize (IH s); lia.
Qed.

Lemma allChars_append (p : ascii -> bool) (a b : string) :
  allChars p a = true -> allChars p b = true ->
  allChars p (a ++ b)%string = true.
Proof.
  induction a as [|c a IH]; simpl; intros Ha Hb; [exact Hb|].
  apply andb_true_iff in Ha as [Hc Ha]. rewrite Hc; simpl. auto.
Qed.

Lemma allChars_take (p : ascii -> bool) (n : nat) (s : string) :
  allChars p s = true -> allChars p (take n s) = true.
Proof.
  revert s; induction n as [|n IH]; intros [|c s]; simpl; auto.
  intros H. apply andb_true_iff in H as [Hc Hs]. rewrite Hc; simpl. auto.
Qed.

Lemma allChars_trimStart (p : ascii -> bool) (s : string) :
  allChars p s = true -> allChars p (trimStart s) = true.
Proof.
  induction s as [|c s IH]; simpl; auto.
  intros H. destruct (isSpace c); [|exact H].
  apply andb_true_iff in H as [_ Hs]. auto.
Qed.

Lemma allChars_trimEnd (p : ascii -> bool) (s : string) :
  allChars p s = true -> allChars p (trimEnd s) = true.
Proof.
  induction s as [|c s IH]; simpl; auto.
  intros H. apply andb_true_iff in H as [Hc Hs]. specialize (IH Hs).
  destruct (trimEnd s) as [|d r].
  - destruct (isSpace c); simpl; auto. rewrite Hc; reflexivity.
  - change (p c && allChars p (String d r) = true). rewrite Hc; simpl. exact IH.
Qed.

Lemma allChars_trim (p : ascii -> bool) (s : string) :
  allChars p s = true -> allChars p (trim s) = true.
Proof. intros H. apply allChars_trimEnd, allChars_trimStart, H. Qed.

(** A replacement brings in only the characters of the replacement text. *)
Lemma allChars_replaceFrom (p : ascii -> bool) (re : Regex) (by_ : string)
    (skip : nat) (s : string) :
  allChars p by_ = true -> allChars p s = true ->
  allChars p (replaceFrom re by_ skip s) = true.
Proof.
  intros Hby. revert skip.
  induction s as [|c s IH]; intros skip H; simpl; auto.
  simpl in H. apply andb_true_iff in H as [Hc Hs].
  destruct skip as [|k]; [|auto].
  destruct (re (String c s)) as [[|k]|].
  - simpl. rewrite Hc. simpl. auto.
  - apply allChars_append; auto.
  - simpl. rewrite Hc. simpl. auto.
Qed.

(** Deleting the characters of a class leaves none of them. *)
Lemma allChars_delete_class (p : ascii -> bool) (skip : nat) (s : string) :
  allChars (fun c => negb (p c))
    (replaceFrom (charClass p) EmptyString skip s) = true.
Proof.
  revert skip. induction s as [|c s IH]; intros skip; simpl; auto.
  destruct skip as [|k]; [|apply IH].
  destruct (p c) eqn:Hp; simpl.
  - apply IH.
  - rewrite Hp. simpl. apply IH.
Qed.

Lemma isPrefixOf_spec (p s : string) :
  isPrefixOf p s = true <-> exists suf, s = (p ++ suf)%string.
Proof.
  revert s. induction p as [|a p IH]; intros s; simpl.
  - split; [intros _; exists s; reflexivity|reflexivity].
  - destruct s as [|b s].
    + split; [discriminate|]. intros [suf Hs]. discriminate Hs.
    + rewrite andb_true_iff, Ascii.eqb_eq, IH. split.
      * intros [-> [suf ->]]. exists suf. reflexivity.
      * intros [suf Hs]. injection Hs as -> ->. split; eauto.
Qed.

Lemma includes_unfold (s t : string) :
  includes s t =
  isPrefixOf t s || match s with
                    | EmptyString => false
                    | String _ s' => includes s' t
                    end.
Proof. destruct s; reflexivity. Qed.

Lemma includes_spec (s t : string) :
  includes s t = true <-> isSubstringOf t s.
Proof.
  unfold isSubstringOf. split.
  - induction s as [|c s IH]; rewrite includes_unfold, orb_true_iff.
    + intros [Hp|Hf]; [|discriminate].
      apply isPrefixOf_spec in Hp as [suf ->]. exists EmptyString, suf. reflexivity.
    + intros [Hp|Hi].
      * apply isPrefixOf_spec in Hp as [suf ->]. exists EmptyString, suf. reflexivity.
      * destruct (IH Hi) as (pre & suf & ->). exists (String c pre), suf. reflexivity.
  - intros (pre & suf & ->). induction pre as [|c pre IH].
    + change (EmptyString ++ t ++ suf)%string with (t ++ suf)%string.
      rewrite includes_unfold.
      replace (isPrefixOf t (t ++ suf)) with true; [reflexivity|].
      symmetry. apply isPrefixOf_spec. eauto.
    + change (String c pre ++ t ++ suf)%string
        with (String c (pre ++ t ++ suf))%string.
      rewrite includes_unfold, IH. apply orb_true_r.
Qed.

End StringFacts.

(* ===================================================================== *)
(** * sanitizeInput                                                       *)
(* ===================================================================== *)

Section SanitizeInputFacts.
Import Str Sanitize.

(** C9 (as amended).  For every input value and every options object,
    [sanitizeInput] returns a string whose length is at most [maxLength]
    (default 1000) when [maxLength] is not negative, and the empty string
    when it is negative; when [allowHTML] is false the result has none of
    the characters less-than, greater-than, double quote and single quote;
    an input that is not a string gives the empty string. *)
Theorem sanitizeInput_bounded_and_harmless
    (input : value) (options : InputOptions) :
  let limit := default 1000 (maxLength options) in
  let out := sanitizeInput input options in
  Z.of_nat (String.length out) <= Z.max 0 limit
  /\ (limit < 0 -> out = EmptyString)
  /\ (default false (allowHTML options) = false -> allChars harmless out = true)
  /\ ((forall s, input <> VStr s) -> out = EmptyString).
Proof.
  intros limit out. subst out limit.
  destruct input as [| |b|n|s|l];
    try (simpl; repeat split; intros; try reflexivity; lia).
  unfold sanitizeInput.
  set (limit := default 1000 (maxLength options)).
  set (body := trim _).
  repeat split.
  - destruct (Z.gtb_spec (Z.of_nat (String.length body)) limit).
    + pose proof (length_take (Z.to_nat limit) body). lia.
    + lia.
  - intros Hneg.
    destruct (Z.gtb_spec (Z.of_nat (String.length body)) limit); [|lia].
    replace (Z.to_nat limit) with O by lia. reflexivity.
  - intros Hhtml.
    assert (Hbody : allChars harmless body = true).
    { subst body. rewrite Hhtml. simpl negb. cbv iota.
      apply allChars_trim.
      assert (Hclean : allChars harmless
                (replaceAll eventHandler EmptyString
                   (replaceAll (literalCI "javascript:") EmptyString
                      (replaceAll (charClass isDangerous) EmptyString
                         (replaceAll htmlTag EmptyString
                            (replaceAll (charClass isControl) EmptyString s)))))
                = true).
      { unfold replaceAll.
        apply allChars_replaceFrom; [reflexivity|].
        apply allChars_replaceFrom; [reflexivity|].
        apply allChars_delete_class. }
      destruct (negb (default true (preserveNewlines options))).
      - apply allChars_replaceFrom; [reflexivity|exact Hclean].
      - exact Hclean. }
    destruct (Z.of_nat (String.length body) >? limit).
    + apply allChars_take, Hbody.
    + exact Hbody.
  - intros Hns. exfalso. apply (Hns s). reflexivity.
Qed.

Lemma sanitizeInput_bounded_witness :
  Z.of_nat (String.length
              (sanitizeInput (VStr "<b onclick='x'>hello</b> world")
                 (opts 5 (Some false) None))) <= Z.max 0 5
  /\ sanitizeInput (VNum (ofZ 7)) noOptions = EmptyString
  /\ allChars harmless
       (sanitizeInput (VStr "<b onclick='x'>hello</b> world")
          (opts 5 (Some false) None)) = true.
Proof.
  pose proof (sanitizeInput_bounded_and_harmless
                (VStr "<b onclick='x'>hello</b> world")
                (opts 5 (Some false) None)) as (Hlen & _ & Hsafe & _).
  pose proof (sanitizeInput_bounded_and_harmless (VNum (ofZ 7)) noOptions)
    as (_ & _ & _ & Hns).
  split; [exact Hlen|]. split.
  - apply Hns. intros s Hs. discriminate Hs.
  - apply Hsafe. reflexivity.
Defined.

(** C9 as stated fails for a negative [maxLength]: the result is empty, and
    its length 0 is not at most -1. *)
Lemma sanitizeInput_negative_maxLength :
  sanitizeInput (VStr "abc") (opts (-1) None None) = EmptyString
  /\ ~ (Z.of_nat (String.length (sanitizeInput (VStr "abc") (opts (-1) None None)))
        <= default 1000 (maxLength (opts (-1) None None))).
Proof. split; [reflexivity|]. simpl. lia. Qed.

End SanitizeInputFacts.

(* ===================================================================== *)
(** * The sort of the projector                                           *)
(* ===================================================================== *)

Section StableSortFacts.
Import Str Sanitize Board Projector.

Lemma before_split (a b : Task) (l : list Task) :
  before a b l <-> exists l1 l2 l3, l = l1 ++ a :: l2 ++ b :: l3.
Proof.
  split.
  - induction 1 as [l Hin | x l _ (l1 & l2 & l3 & ->)].
    + apply in_split in Hin as (l2 & l3 & ->). exists [], l2, l3. reflexivity.
    + exists (x :: l1), l2, l3. reflexivity.
  - intros (l1 & l2 & l3 & ->).
    induction l1 as [|x l1 IH]; simpl.
    + apply before_here. apply in_or_app. right. left. reflexivity.
    + apply before_later, IH.
Qed.

Lemma insertSorted_perm (cmp : Comparator) (x : Task) (l : list Task) :
  Permutation (insertSorted cmp x l) (x :: l).
Proof.
  induction l as [|y l IH]; simpl; [reflexivity|].
  destruct (goesAfter cmp x y); [|reflexivity].
  rewrite IH. apply perm_swap.
Qed.

Lemma stableSort_perm (cmp : Comparator) (l : list Task) :
  Permutation (stableSort cmp l) l.
Proof.
  induction l as [|x l IH]; simpl; [reflexivity|].
  rewrite insertSorted_perm. apply perm_skip, IH.
Qed.

Lemma stableSort_In (cmp : Comparator) (l : list Task) (t : Task) :
  In t (stableSort cmp l) <-> In t l.
Proof.
  split; apply Permutation_in;
    [apply stableSort_perm | symmetry; apply stableSort_perm].
Qed.

(** An inserted element stays in front of what it does not go after. *)
Lemma before_insertSorted_new (cmp : Comparator) (a b : Task) (l : list Task) :
  In b l -> goesAfter cmp a b = false -> before a b (insertSorted cmp a l).
Proof.
  intros Hin Hab. induction l as [|y l IH]; [destruct Hin|].
  simpl. destruct (goesAfter cmp a y) eqn:Hay.
  - apply before_later, IH. destruct Hin as [->|Hin]; [congruence|exact Hin].
  - apply before_here, Hin.
Qed.

(** An insertion does not swap two elements that are there already. *)
Lemma before_insertSorted_old (cmp : Comparator) (a b x : Task) (l : list Task) :
  before a b l -> before a b (insertSorted cmp x l).
Proof.
  induction 1 as [l Hin | y l Hb IH]; simpl.
  - destruct (goesAfter cmp x a).
    + apply before_here.
      apply (Permutation_in b (symmetry (insertSorted_perm cmp x l))).
      right. exact Hin.
    + apply before_later, before_here, Hin.
  - destruct (goesAfter cmp x y).
    + apply before_later, IH.
    + apply before_later, before_later, Hb.
Qed.

Lemma stableSort_stable (cmp : Comparator) (a b : Task) (l : list Task) :
  before a b l -> goesAfter cmp a b = false -> before a b (stableSort cmp l).
Proof.
  intros Hb Hab. induction Hb as [l Hin | x l Hb IH]; simpl.
  - apply before_insertSorted_new; [|exact Hab].
    apply stableSort_In, Hin.
  - apply before_insertSorted_old, IH.
Qed.

(** Insertion keeps a list sorted by a key the comparator agrees with. *)
Lemma insertSorted_sorted (key : Task -> Z) (cmp : Comparator) (x : Task)
    (l : list Task) :
  (forall y, In y l -> goesAfter cmp x y = (key y <? key x)) ->
  StronglySorted (fun a b => key a <= key b) l ->
  StronglySorted (fun a b => key a <= key b) (insertSorted cmp x l).
Proof.
  intros Hcmp Hs. induction Hs as [|y l Hs IH Hall]; simpl.
  - repeat constructor.
  - rewrite (Hcmp y (or_introl eq_refl)).
    destruct (Z.ltb_spec (key y) (key x)) as [Hlt|Hge].
    + constructor.
      * apply IH. intros z Hz. apply Hcmp. right. exact Hz.
      * apply List.Forall_forall. intros z Hz.
        apply (Permutation_in z (insertSorted_perm cmp x l)) in Hz.
        destruct Hz as [<-|Hz]; [lia|].
        rewrite List.Forall_forall in Hall. apply Hall, Hz.
    + constructor; [constructor; assumption|].
      constructor; [exact Hge|].
      apply List.Forall_forall. intros z Hz.
      rewrite List.Forall_forall in Hall. specialize (Hall z Hz). lia.
Qed.

Lemma stableSort_sorted (key : Task -> Z) (cmp : Comparator) (l : list Task) :
  (forall a b, In a l -> In b l -> goesAfter cmp a b = (key b <? key a)) ->
  StronglySorted (fun a b => key a <= key b) (stableSort cmp l).
Proof.
  induction l as [|x l IH]; intros Hcmp; simpl; [constructor|].
  apply insertSorted_sorted.
  - intros y Hy. apply Hcmp; [left; reflexivity|].
    right. apply stableSort_In in Hy. exact Hy.
  - apply IH. intros a b Ha Hb. apply Hcmp; right; assumption.
Qed.

(** ** Consistent comparators *)

Lemma goesBefore_not_after (cmp : Comparator) (a b : Task) :
  goesBefore cmp a b = true -> goesAfter cmp a b = false.
Proof.
  unfold goesBefore, goesAfter, ltNum, ofZ.
  destruct (cmp a b) as [| |q|]; try discriminate; try reflexivity.
  intros Hneg. apply negb_true_iff in Hneg. apply negb_false_iff.
  apply Qle_bool_iff. apply Qlt_le_weak, Qnot_le_lt.
  intros Hle. apply Qle_bool_iff in Hle. congruence.
Qed.

Lemma consistentOn_incl (cmp : Comparator) (l l' : list Task) :
  (forall t, In t l' -> In t l) -> consistentOn cmp l -> consistentOn cmp l'.
Proof.
  intros Hincl [Hanti Htrans]. split.
  - intros a b Ha Hb. apply Hanti; auto.
  - intros a b c Ha Hb Hc. apply Htrans; auto.
Qed.

(** Strictly before is transitive too. *)
Lemma goesAfter_trans (cmp : Comparator) (l : list Task) (a b c : Task) :
  consistentOn cmp l -> In a l -> In b l -> In c l ->
  goesAfter cmp a b = true -> goesAfter cmp b c = true ->
  goesAfter cmp a c = true.
Proof.
  intros [Hanti Htrans] Ha Hb Hc Hab Hbc.
  destruct (goesAfter cmp a c) eqn:Hac; [reflexivity|].
  assert (Hcb : goesAfter cmp c b = false).
  { apply goesBefore_not_after. rewrite (Hanti c b Hc Hb). exact Hbc. }
  rewrite (Htrans a c b Ha Hc Hb Hac Hcb) in Hab. discriminate Hab.
Qed.

(** The stable sort of a consistent comparator is in order: no element goes
    after a later one. *)
Lemma insertSorted_ordered (cmp : Comparator) (x : Task) (l : list Task) :
  consistentOn cmp (x :: l) ->
  StronglySorted (fun a b => goesAfter cmp a b = false) l ->
  StronglySorted (fun a b => goesAfter cmp a b = false) (insertSorted cmp x l).
Proof.
  intros Hcons Hs. induction Hs as [|y l Hs IH Hall]; simpl.
  - repeat constructor.
  - destruct (goesAfter cmp x y) eqn:Hxy.
    + constructor.
      * apply IH. eapply consistentOn_incl; [|exact Hcons].
        intros t [<-|Ht]; [left; reflexivity|right; right; exact Ht].
      * apply List.Forall_forall. intros z Hz.
        apply (Permutation_in z (insertSorted_perm cmp x l)) in Hz.
        destruct Hz as [<-|Hz].
        -- apply goesBefore_not_after.
           rewrite (proj1 Hcons y x); [exact Hxy|right; left|left]; reflexivity.
        -- rewrite List.Forall_forall in Hall. apply Hall, Hz.
    + constructor; [constructor; assumption|].
      constructor; [exact Hxy|].
      apply List.Forall_forall. intros z Hz.
      rewrite List.Forall_forall in Hall.
      apply (proj2 Hcons x y z); [left; reflexivity|right; left; reflexivity
                                 |right; right; exact Hz|exact Hxy|].
      apply Hall, Hz.
Qed.

Lemma stableSort_ordered (cmp : Comparator) (l : list Task) :
  consistentOn cmp l ->
  StronglySorted (fun a b => goesAfter cmp a b = false) (stableSort cmp l).
Proof.
  induction l as [|x l IH]; intros Hcons; simpl; [constructor|].
  apply insertSorted_ordered.
  - eapply consistentOn_incl; [|exact Hcons].
    intros t [<-|Ht]; [left; reflexivity|].
    right. apply stableSort_In in Ht. exact Ht.
  - apply IH. eapply consistentOn_incl; [|exact Hcons].
    intros t Ht. right. exact Ht.
Qed.

End StableSortFacts.

(* ===================================================================== *)
(** * The sort of V8 keeps the promise of the language                    *)
(* ===================================================================== *)

Section V8Facts.
Import Board Projector Vocabulary.

(** ** The sorted part grows at its end *)

Lemma insert_commute (cmp : Comparator) (a x : Task) (s : list Task) :
  consistentOn cmp (a :: x :: s) ->
  insertSorted cmp a (insertLast cmp x s)
  = insertLast cmp x (insertSorted cmp a s).
Proof.
  intros [Hanti Htrans].
  induction s as [|e s IH]; simpl.
  - rewrite (Hanti x a) by (simpl; auto).
    destruct (goesAfter cmp a x); reflexivity.
  - assert (Hs : consistentOn cmp (a :: x :: s)).
    { apply (consistentOn_incl cmp (a :: x :: e :: s));
        [|split; assumption].
      intros t [<-|[<-|Ht]]; simpl; auto. }
    destruct (goesBefore cmp x e) eqn:Hxe; destruct (goesAfter cmp a e) eqn:Hae;
      simpl; rewrite ?Hxe, ?Hae.
    + (* x before e, a after e: a goes after x as well *)
      assert (Hax : goesAfter cmp a x = true).
      { destruct (goesAfter cmp a x) eqn:Hax; [reflexivity|].
        apply goesBefore_not_after in Hxe.
        assert (Hle : goesAfter cmp a e = false)
          by (apply (Htrans a x e); simpl; auto).
        congruence. }
      rewrite Hax. reflexivity.
    + rewrite (Hanti x a) by (simpl; auto).
      destruct (goesAfter cmp a x); simpl; rewrite ?Hxe, ?Hae; reflexivity.
    + rewrite (IH (proj1 Hs) (proj2 Hs)). reflexivity.
    + (* x not before e, a not after e: x is not before a *)
      assert (Hxa : goesBefore cmp x a = false).
      { rewrite (Hanti x a) by (simpl; auto).
        apply (Htrans a e x); simpl; auto.
        rewrite <- (Hanti x e) by (simpl; auto). exact Hxe. }
      rewrite ?Hxa, ?Hxe. reflexivity.
Qed.

Lemma stableSort_snoc (cmp : Comparator) (l : list Task) (x : Task) :
  consistentOn cmp (l ++ [x]) ->
  stableSort cmp (l ++ [x]) = insertLast cmp x (stableSort cmp l).
Proof.
  induction l as [|a l IH]; intros Hcons; [reflexivity|].
  change (stableSort cmp ((a :: l) ++ [x]))
    with (insertSorted cmp a (stableSort cmp (l ++ [x]))).
  rewrite IH.
  - apply insert_commute. eapply consistentOn_incl; [|exact Hcons].
    intros t [<-|[<-|Ht]].
    + left. reflexivity.
    + right. apply in_or_app. right. left. reflexivity.
    + right. apply in_or_app. left. apply stableSort_In in Ht. exact Ht.
  - eapply consistentOn_incl; [|exact Hcons]. intros t Ht. right. exact Ht.
Qed.

(** ** The binary search *)

Lemma insertLast_split (cmp : Comparator) (x : Task) (s1 s2 : list Task) :
  List.Forall (fun e => goesBefore cmp x e = false) s1 ->
  List.Forall (fun e => goesBefore cmp x e = true) s2 ->
  insertLast cmp x (s1 ++ s2) = s1 ++ x :: s2.
Proof.
  intros H1 H2. induction H1 as [|e s1 He _ IH]; simpl.
  - destruct H2 as [|e s2 He _]; simpl; [reflexivity|]. rewrite He. reflexivity.
  - rewrite He, IH. reflexivity.
Qed.

Lemma search_split (cmp : Comparator) (x : Task) (s1 s2 : list Task) :
  List.Forall (fun e => goesBefore cmp x e = false) s1 ->
  List.Forall (fun e => goesBefore cmp x e = true) s2 ->
  forall fuel left right,
    (left <= length s1 <= right)%nat -> (right <= length (s1 ++ s2))%nat ->
    (right - left <= fuel)%nat ->
    V8.search cmp x (s1 ++ s2) fuel left right = length s1.
Proof.
  intros H1 H2.
  induction fuel as [|fuel IH]; intros left right Hin Hlen Hfuel;
    cbn [V8.search]; [lia|].
  destruct (Nat.ltb_spec left right) as [Hlt|Hge]; [|lia].
  cbv zeta. set (mid := (left + (right - left) / 2)%nat).
  assert (Hmid : (left <= mid < right)%nat).
  { subst mid. split; [lia|].
    assert ((right - left) / 2 < right - left)%nat by (apply Nat.div_lt; lia).
    lia. }
  replace (V8.negative (cmp x (List.nth mid (s1 ++ s2) x)))
    with (goesBefore cmp x (List.nth mid (s1 ++ s2) x)) by reflexivity.
  destruct (Nat.lt_ge_cases mid (length s1)) as [Hin1|Hin2].
  - rewrite app_nth1 by exact Hin1.
    rewrite List.Forall_forall in H1.
    rewrite (H1 _ (nth_In s1 x Hin1)).
    apply IH; lia.
  - rewrite app_nth2 by exact Hin2.
    rewrite List.Forall_forall in H2.
    rewrite length_app in Hlen.
    rewrite (H2 (List.nth (mid - length s1) s2 x)) by (apply nth_In; lia).
    apply IH; [lia|rewrite length_app; lia|lia].
Qed.

Lemma insertPivot_split (cmp : Comparator) (x : Task) (s1 s2 : list Task) :
  List.Forall (fun e => goesBefore cmp x e = false) s1 ->
  List.Forall (fun e => goesBefore cmp x e = true) s2 ->
  V8.insertPivot cmp (s1 ++ s2) x = insertLast cmp x (s1 ++ s2).
Proof.
  intros H1 H2. unfold V8.insertPivot.
  rewrite (search_split cmp x s1 s2 H1 H2) by (rewrite ?length_app; lia).
  rewrite insertLast_split by assumption.
  rewrite firstn_app, Nat.sub_diag, firstn_all, firstn_O, app_nil_r.
  rewrite skipn_app, Nat.sub_diag, skipn_all. reflexivity.
Qed.

(** In a list in order, the elements [x] goes before are the last ones. *)
Lemma ordered_split (cmp : Comparator) (x : Task) (s : list Task) :
  consistentOn cmp (x :: s) ->
  StronglySorted (fun a b => goesAfter cmp a b = false) s ->
  exists s1 s2,
    s = s1 ++ s2
    /\ List.Forall (fun e => goesBefore cmp x e = false) s1
    /\ List.Forall (fun e => goesBefore cmp x e = true) s2.
Proof.
  intros Hcons Hs. induction Hs as [|e s Hs IH Hall].
  - exists [], []. repeat split; constructor.
  - assert (Hsub : consistentOn cmp (x :: s)).
    { eapply consistentOn_incl; [|exact Hcons].
      intros t [<-|Ht]; simpl; auto. }
    destruct Hcons as [Hanti Htrans].
    destruct (goesBefore cmp x e) eqn:Hxe.
    + exists [], (e :: s). split; [reflexivity|]. split; [constructor|].
      constructor; [exact Hxe|].
      apply List.Forall_forall. intros z Hz.
      rewrite List.Forall_forall in Hall. specialize (Hall z Hz).
      destruct (goesBefore cmp x z) eqn:Hxz; [reflexivity|].
      rewrite (Hanti x z) in Hxz by (simpl; auto).
      rewrite (Hanti x e) in Hxe by (simpl; auto).
      assert (Hex : goesAfter cmp e x = false)
        by (apply (Htrans e z x); simpl; auto).
      congruence.
    + destruct (IH Hsub) as (s1 & s2 & -> & H1 & H2).
      exists (e :: s1), s2. split; [reflexivity|]. split; [|exact H2].
      constructor; assumption.
Qed.

Lemma insertPivot_last (cmp : Comparator) (l : list Task) (x : Task) :
  consistentOn cmp (l ++ [x]) ->
  V8.insertPivot cmp (stableSort cmp l) x = stableSort cmp (l ++ [x]).
Proof.
  intros Hcons. rewrite stableSort_snoc by exact Hcons.
  destruct (ordered_split cmp x (stableSort cmp l)) as (s1 & s2 & Hs & H1 & H2).
  - eapply consistentOn_incl; [|exact Hcons].
    intros t [<-|Ht]; apply in_or_app.
    + right. left. reflexivity.
    + left. apply stableSort_In in Ht. exact Ht.
  - apply stableSort_ordered. eapply consistentOn_incl; [|exact Hcons].
    intros t Ht. apply in_or_app. left. exact Ht.
  - rewrite Hs. apply insertPivot_split; assumption.
Qed.

Lemma insertions_sort (cmp : Comparator) (rest pre : list Task) :
  consistentOn cmp (pre ++ rest) ->
  fold_left (V8.insertPivot cmp) rest (stableSort cmp pre)
  = stableSort cmp (pre ++ rest).
Proof.
  revert pre. induction rest as [|x rest IH]; intros pre Hcons; simpl.
  - rewrite app_nil_r. reflexivity.
  - rewrite insertPivot_last.
    + rewrite IH; rewrite <- app_assoc; [reflexivity|exact Hcons].
    + eapply consistentOn_incl; [|exact Hcons].
      intros t Ht. apply in_app_or in Ht as [Ht|[<-|[]]];
        apply in_or_app; [left; exact Ht|right; left; reflexivity].
Qed.

(** ** The run at the start *)

Lemma continueRun_spec (cmp : Comparator) (isDescending : bool)
    (work : list Task) :
  forall previous run after,
    V8.continueRun cmp isDescending previous work = (run, after) ->
    work = run ++ after /\ isRun cmp isDescending previous run.
Proof.
  induction work as [|current rest IH]; intros previous run after; simpl.
  - intros [= <- <-]. split; [reflexivity|exact I].
  - change (V8.negative (cmp current previous))
      with (goesBefore cmp current previous).
    destruct (Bool.eqb _ isDescending) eqn:Hd.
    + destruct (V8.continueRun cmp isDescending current rest) as [r a] eqn:Hr.
      intros [= <- <-]. destruct (IH current r a Hr) as [-> Hrun].
      split; [reflexivity|]. split; [apply Bool.eqb_prop, Hd|exact Hrun].
    + intros [= <- <-]. split; [reflexivity|exact I].
Qed.

(** An ascending run is sorted as it stands. *)
Lemma ascending_run_sorted (cmp : Comparator) (run : list Task) :
  forall previous,
    consistentOn cmp (previous :: run) ->
    isRun cmp false previous run ->
    stableSort cmp (previous :: run) = previous :: run.
Proof.
  induction run as [|current rest IH]; intros previous Hcons Hrun;
    [reflexivity|].
  destruct Hrun as [Hstep Hrun].
  change (stableSort cmp (previous :: current :: rest))
    with (insertSorted cmp previous (stableSort cmp (current :: rest))).
  rewrite IH; [|eapply consistentOn_incl; [|exact Hcons];
                 intros t Ht; right; exact Ht|exact Hrun].
  simpl. rewrite <- (proj1 Hcons current previous) by (simpl; auto).
  rewrite Hstep. reflexivity.
Qed.

Lemma insertSorted_end (cmp : Comparator) (x : Task) (s : list Task) :
  (forall y, In y s -> goesAfter cmp x y = true) ->
  insertSorted cmp x s = s ++ [x].
Proof.
  induction s as [|y s IH]; intros Hall; simpl; [reflexivity|].
  rewrite (Hall y) by (left; reflexivity).
  rewrite IH; [reflexivity|]. intros z Hz. apply Hall. right. exact Hz.
Qed.

Lemma descending_run_below (cmp : Comparator) (run : list Task) :
  forall previous,
    consistentOn cmp (previous :: run) ->
    isRun cmp true previous run ->
    forall y, In y run -> goesAfter cmp previous y = true.
Proof.
  induction run as [|current rest IH]; intros previous Hcons Hrun y;
    [intros []|].
  destruct Hrun as [Hstep Hrun].
  assert (Hpc : goesAfter cmp previous current = true).
  { rewrite <- (proj1 Hcons current previous) by (simpl; auto). exact Hstep. }
  intros [<-|Hy]; [exact Hpc|].
  apply (goesAfter_trans cmp (previous :: current :: rest) previous current y);
    simpl; auto.
  apply IH; [|exact Hrun|exact Hy].
  eapply consistentOn_incl; [|exact Hcons]. intros t Ht. right. exact Ht.
Qed.

(** A descending run is sorted once it is reversed. *)
Lemma descending_run_sorted (cmp : Comparator) (run : list Task) :
  forall previous,
    consistentOn cmp (previous :: run) ->
    isRun cmp true previous run ->
    stableSort cmp (previous :: run) = rev (previous :: run).
Proof.
  induction run as [|current rest IH]; intros previous Hcons Hrun;
    [reflexivity|].
  change (stableSort cmp (previous :: current :: rest))
    with (insertSorted cmp previous (stableSort cmp (current :: rest))).
  rewrite IH; [|eapply consistentOn_incl; [|exact Hcons];
                 intros t Ht; right; exact Ht|exact (proj2 Hrun)].
  rewrite insertSorted_end; [reflexivity|].
  intros y Hy. apply in_rev in Hy.
  apply (descending_run_below cmp (current :: rest) previous Hcons Hrun y Hy).
Qed.

(** ** The two promises *)

Lemma insertPivot_perm (cmp : Comparator) (s : list Task) (x : Task) :
  Permutation (V8.insertPivot cmp s x) (x :: s).
Proof.
  unfold V8.insertPivot. symmetry.
  rewrite <- (firstn_skipn (V8.search cmp x s (length s) 0 (length s)) s) at 1.
  apply Permutation_middle.
Qed.

Lemma insertions_perm (cmp : Comparator) (rest s : list Task) :
  Permutation (fold_left (V8.insertPivot cmp) rest s) (s ++ rest).
Proof.
  revert s. induction rest as [|x rest IH]; intros s; simpl.
  - rewrite app_nil_r. reflexivity.
  - rewrite IH, insertPivot_perm. apply Permutation_middle.
Qed.

Lemma V8_sort_rearranges (cmp : Comparator) (work : list Task) :
  Permutation (V8.sort cmp work) work.
Proof.
  unfold V8.sort, V8.countAndMakeRun.
  destruct work as [|elementHigh [|elementLow rest]]; [reflexivity..|].
  destruct (V8.continueRun cmp _ elementLow rest) as [run after] eqn:Hrun.
  apply continueRun_spec in Hrun as [-> _].
  rewrite insertions_perm.
  change (elementHigh :: elementLow :: run ++ after)
    with ((elementHigh :: elementLow :: run) ++ after).
  apply Permutation_app_tail.
  destruct (V8.negative _); [symmetry; apply Permutation_rev|reflexivity].
Qed.

Lemma V8_sort_consistent (cmp : Comparator) (work : list Task) :
  consistentOn cmp work -> V8.sort cmp work = stableSort cmp work.
Proof.
  intros Hcons. unfold V8.sort, V8.countAndMakeRun.
  destruct work as [|elementHigh [|elementLow rest]]; [reflexivity..|].
  destruct (V8.continueRun cmp _ elementLow rest) as [run after] eqn:Hrun.
  apply continueRun_spec in Hrun as [-> Hrun].
  change (elementHigh :: elementLow :: run ++ after)
    with ((elementHigh :: elementLow :: run) ++ after) in *.
  assert (Hfirst : consistentOn cmp (elementHigh :: elementLow :: run)).
  { eapply consistentOn_incl; [|exact Hcons].
    intros t Ht. apply in_or_app. left. exact Ht. }
  rewrite <- insertions_sort by exact Hcons. f_equal.
  change (V8.negative (cmp elementLow elementHigh))
    with (goesBefore cmp elementLow elementHigh) in *.
  destruct (goesBefore cmp elementLow elementHigh) eqn:Hd.
  - symmetry. apply descending_run_sorted; [exact Hfirst|].
    split; [exact Hd|exact Hrun].
  - symmetry. apply ascending_run_sorted; [exact Hfirst|].
    split; [exact Hd|exact Hrun].
Qed.

End V8Facts.

(** The engine of the samples: the sort of V8 for arrays of fewer than 64
    elements, which all the samples are. *)
Module SampleEngine.
Import Projector.

#[export] Instance v8 : Engine := {|
  Array_sort := V8.sort;
  Array_sort_rearranges := V8_sort_rearranges;
  Array_sort_consistent := V8_sort_consistent
|}.

End SampleEngine.

(* ===================================================================== *)
(** * The comparators that are differences                                *)
(* ===================================================================== *)

Section ComparatorFacts.
Import Str Sanitize Board Projector.

Lemma Qle_bool_difference (p q : Q) : Qle_bool (q - p) 0 = Qle_bool q p.
Proof.
  apply Bool.eq_iff_eq_true. rewrite !Qle_bool_iff. split; intros; lra.
Qed.

Lemma Qle_bool_difference_r (p q : Q) : Qle_bool 0 (q - p) = Qle_bool p q.
Proof.
  apply Bool.eq_iff_eq_true. rewrite !Qle_bool_iff. split; intros; lra.
Qed.

(** The sign of a difference of two numbers, neither of them NaN, tells
    which is smaller; the two infinities are as far apart as can be and an
    infinity is at no distance from itself. *)
Lemma difference_positive (x y : number) :
  isNaN x = false -> isNaN y = false ->
  ltNum (ofZ 0) (sub y x) = ltNum x y.
Proof.
  destruct x as [| |p|], y as [| |q|]; simpl; try discriminate; try reflexivity.
  intros _ _. f_equal. apply Qle_bool_difference.
Qed.

Lemma difference_negative (x y : number) :
  isNaN x = false -> isNaN y = false ->
  ltNum (sub y x) (ofZ 0) = ltNum y x.
Proof.
  destruct x as [| |p|], y as [| |q|]; simpl; try discriminate; try reflexivity.
  intros _ _. f_equal. apply Qle_bool_difference_r.
Qed.

Lemma not_less_trans (x y z : number) :
  isNaN x = false -> isNaN y = false -> isNaN z = false ->
  ltNum x y = false -> ltNum y z = false -> ltNum x z = false.
Proof.
  destruct x as [| |p|], y as [| |q|], z as [| |r|]; simpl;
    try discriminate; try reflexivity.
  intros _ _ _ Hqp Hrq.
  apply negb_false_iff, Qle_bool_iff in Hqp, Hrq.
  apply negb_false_iff, Qle_bool_iff. lra.
Qed.

(** A comparator that is the difference of a key is consistent wherever the
    key is never NaN, downwards and upwards. *)
Lemma difference_consistent (key : Task -> number) (l : list Task) :
  (forall t, In t l -> isNaN (key t) = false) ->
  consistentOn (fun a b => sub (key b) (key a)) l
  /\ consistentOn (fun a b => sub (key a) (key b)) l.
Proof.
  intros Hkey. split; split.
  - intros a b Ha Hb. unfold goesBefore, goesAfter.
    rewrite difference_negative, difference_positive; auto.
  - intros a b c Ha Hb Hc. unfold goesAfter.
    rewrite !difference_positive by auto.
    apply not_less_trans; auto.
  - intros a b Ha Hb. unfold goesBefore, goesAfter.
    rewrite difference_negative, difference_positive; auto.
  - intros a b c Ha Hb Hc. unfold goesAfter.
    rewrite !difference_positive by auto.
    intros Hba Hcb. apply (not_less_trans _ (key b)); auto.
Qed.

Lemma priorityOrder_number (p : string) :
  In p allowedPriorities -> isNaN (priorityOrder p) = false.
Proof. intros [<-|[<-|[<-|[<-|[]]]]]; reflexivity. Qed.

Lemma ratingOrZero_is_number (t : Task) : isNaN (ratingOrZero t) = false.
Proof.
  unfold ratingOrZero, orNumber. destruct (rating t) as [[| |q|]|]; try reflexivity.
  simpl. destruct (negb (Qeq_bool q 0)); reflexivity.
Qed.

End ComparatorFacts.


(* ===================================================================== *)
(** * The projection                                                      *)
(* ===================================================================== *)

Section SortFacts.
Import Str Sanitize Board Projector.
Context `{Host} {engine : Engine}.

Lemma Array_sort_perm (cmp : Comparator) (l : list Task) :
  Permutation (Array_sort cmp l) l.
Proof. apply Array_sort_rearranges. Qed.

Lemma Array_sort_In (cmp : Comparator) (l : list Task) (t : Task) :
  In t (Array_sort cmp l) <-> In t l.
Proof.
  split; apply Permutation_in;
    [apply Array_sort_perm | symmetry; apply Array_sort_perm].
Qed.

(** ** The filters *)

Lemma applyStage_filter_In (stage : option (list Task -> list Task))
    (p : Task -> bool) (l : list Task) (t : Task) :
  stage = Some (List.filter p) ->
  In t (applyStage stage l) <-> In t l /\ p t = true.
Proof. intros ->. simpl. apply filter_In. Qed.

Lemma filterColumn_incl (filters : Filters) (l : list Task) (t : Task) :
  In t (filterColumn filters l) -> In t l.
Proof.
  unfold filterColumn, priorityStage, labelStage, searchStage, filterTasksByLabel.
  intros Hin.
  assert (Hstep : forall (st : option (list Task -> list Task)) l0,
             (st = None \/ exists p, st = Some (List.filter p)) ->
             In t (applyStage st l0) -> In t l0).
  { intros st l0 [->|[p ->]]; simpl; [auto|]. intros Hf.
    apply filter_In in Hf. tauto. }
  apply Hstep in Hin.
  2:{ destruct (fpriority filters) as [p|]; [|auto].
      destruct (nonEmpty p); eauto. }
  apply Hstep in Hin.
  2:{ destruct (label filters) as [|labelId|ids]; [auto| |eauto].
      destruct (nonEmpty labelId); [|auto].
      right. exists (hasLabel labelId). reflexivity. }
  apply Hstep in Hin; [exact Hin|].
  destruct (nonEmpty (search filters)); eauto.
Qed.

Lemma sortStage_perm (filters : Filters) (l : list Task) :
  Permutation (sortStage filters l) l.
Proof.
  unfold sortStage. destruct (comparatorOf (sort filters)); [|reflexivity].
  apply Array_sort_perm.
Qed.

Lemma processColumn_In (filters : Filters) (l : list Task) (t : Task) :
  In t (processColumn filters l) <-> In t (filterColumn filters l).
Proof.
  unfold processColumn. split; apply Permutation_in;
    [apply sortStage_perm | symmetry; apply sortStage_perm].
Qed.

Lemma nonEmpty_true (s : string) : s <> EmptyString -> nonEmpty s = true.
Proof.
  intros Hs. unfold nonEmpty. apply negb_true_iff, String.eqb_neq, Hs.
Qed.

Lemma hasSomeLabel_spec (labelIds : list string) (t : Task) :
  hasSomeLabel labelIds t = true <->
  exists labelId taskLabels,
    labels t = Some taskLabels /\ In labelId labelIds /\ In labelId taskLabels.
Proof.
  unfold hasSomeLabel, arrayIncludes. destruct (labels t) as [ls|].
  - rewrite existsb_exists. split.
    + intros (labelId & Hin & Hex). apply existsb_exists in Hex as (x & Hx & Heq).
      apply String.eqb_eq in Heq as <-. eauto.
    + intros (labelId & ls' & [= <-] & Hin & Hls).
      exists labelId. split; [exact Hin|].
      apply existsb_exists. exists labelId. split; [exact Hls|].
      apply String.eqb_refl.
  - split; [discriminate|]. intros (? & ? & ? & _). discriminate.
Qed.

(** C1.  When a search string, an array of label ids and a priority are all
    set, the projected list of a column holds exactly the stored tasks of the
    column for which the lower-cased search term occurs in the lower-cased
    title or details, some id of the array is among the labels of the task,
    and the priority is the one of the filter. *)
Theorem filters_compose (filters : Filters) (labelIds : list string)
    (p : string) (columnTasks : list Task) (t : Task) :
  search filters <> EmptyString ->
  label filters = ManyLabels labelIds ->
  fpriority filters = Some p ->
  p <> EmptyString ->
  In t (processColumn filters columnTasks) <->
    In t columnTasks
    /\ (isSubstringOf (toLowerCase (search filters)) (toLowerCase (title t))
        \/ isSubstringOf (toLowerCase (search filters)) (toLowerCase (details t)))
    /\ (exists labelId taskLabels,
           labels t = Some taskLabels
           /\ In labelId labelIds /\ In labelId taskLabels)
    /\ priority t = p.
Proof.
  intros Hsearch Hlabel Hprio Hp.
  rewrite processColumn_In.
  unfold filterColumn, priorityStage, labelStage, searchStage.
  rewrite Hlabel, Hprio, (nonEmpty_true _ Hsearch), (nonEmpty_true _ Hp).
  simpl. rewrite !filter_In.
  unfold matchesSearch.
  rewrite orb_true_iff, !includes_spec, hasSomeLabel_spec, String.eqb_eq.
  tauto.
Qed.

(** ** Ranks *)

Lemma priorityOrder_rank (p : string) :
  In p allowedPriorities -> priorityOrder p = ofZ (priorityRank p).
Proof.
  intros [<-|[<-|[<-|[<-|[]]]]]; reflexivity.
Qed.

Lemma positive_difference (x y : Z) :
  ltNum (ofZ 0) (sub (ofZ x) (ofZ y)) = (y <? x).
Proof.
  unfold ltNum, sub, ofZ.
  destruct (Z.ltb_spec y x) as [Hlt|Hge].
  - apply negb_true_iff. apply not_true_is_false. intros Hle.
    apply Qle_bool_iff in Hle. unfold Qle, Qminus, Qplus, Qopp, inject_Z in Hle.
    simpl in Hle. lia.
  - apply negb_false_iff. apply Qle_bool_iff.
    unfold Qle, Qminus, Qplus, Qopp, inject_Z. simpl. lia.
Qed.

Lemma StronglySorted_impl (R S : Task -> Task -> Prop) (l : list Task) :
  (forall a b, R a b -> S a b) -> StronglySorted R l -> StronglySorted S l.
Proof.
  intros HRS. induction 1 as [|x l Hs IH Hall]; constructor; [exact IH|].
  eapply List.Forall_impl; [|exact Hall]. intros b. apply HRS.
Qed.

(** C7.  When every task of the column has a priority of the enum, the
    projected list holds the surviving tasks, each as often as it survives,
    and the sort key priority puts them in descending order of the rank
    Critical=4, High=3, Medium=2, Low=1, the sort key priority-asc in
    ascending order of it. *)
Theorem priority_sort_orders_by_rank (filters : Filters)
    (columnTasks : list Task) :
  (forall t, In t columnTasks -> In (priority t) allowedPriorities) ->
  Permutation (processColumn filters columnTasks)
    (filterColumn filters columnTasks)
  /\ (sort filters = "priority" ->
     StronglySorted (fun a b => rankOf a >= rankOf b)
       (processColumn filters columnTasks))
  /\ (sort filters = "priority-asc" ->
     StronglySorted (fun a b => rankOf a <= rankOf b)
       (processColumn filters columnTasks)).
Proof.
  intros Hvalid.
  assert (Hkept : forall t, In t (filterColumn filters columnTasks) ->
                            priorityOrder (priority t) = ofZ (rankOf t)).
  { intros t Ht. apply priorityOrder_rank, Hvalid.
    apply filterColumn_incl in Ht. exact Ht. }
  destruct (difference_consistent (fun t => priorityOrder (priority t))
              (filterColumn filters columnTasks)) as [Hdown Hup].
  { intros t Ht. apply priorityOrder_number, Hvalid.
    apply filterColumn_incl in Ht. exact Ht. }
  split; [apply sortStage_perm|].
  split; intros Hsort; unfold processColumn, sortStage; rewrite Hsort.
  - change (comparatorOf "priority") with
      (Some (fun a b : Task =>
               sub (priorityOrder (priority b)) (priorityOrder (priority a)))).
    cbv beta iota. rewrite (Array_sort_consistent _ _ Hdown).
    apply StronglySorted_impl with (R := fun a b => - rankOf a <= - rankOf b);
      [intros a b; lia|].
    apply stableSort_sorted. intros a b Ha Hb. unfold goesAfter.
    rewrite (Hkept a Ha), (Hkept b Hb), positive_difference.
    destruct (Z.ltb_spec (rankOf a) (rankOf b));
      destruct (Z.ltb_spec (- rankOf b) (- rankOf a)); lia || reflexivity.
  - change (comparatorOf "priority-asc") with
      (Some (fun a b : Task =>
               sub (priorityOrder (priority a)) (priorityOrder (priority b)))).
    cbv beta iota. rewrite (Array_sort_consistent _ _ Hup).
    apply stableSort_sorted. intros a b Ha Hb. unfold goesAfter.
    rewrite (Hkept a Ha), (Hkept b Hb), positive_difference. reflexivity.
Qed.

(** A difference of two equal keys is not positive: equal keys tie. *)
Lemma equal_keys_tie (x : number) : ltNum (ofZ 0) (sub x x) = false.
Proof.
  destruct x as [| |q|]; try reflexivity.
  unfold sub, ltNum, ofZ. apply negb_false_iff, Qle_bool_iff.
  destruct q as [n d]. unfold Qle, Qminus, Qplus, Qopp, inject_Z. simpl. lia.
Qed.

(** Two tasks of the same priority are tied under both priority sorts. *)
Lemma same_priority_tied (key : string) (cmp : Comparator) (a b : Task) :
  key = "priority" \/ key = "priority-asc" ->
  comparatorOf key = Some cmp ->
  priority a = priority b ->
  tied cmp a b = true.
Proof.
  intros [ -> | -> ] [= <-] Hp; unfold tied, goesAfter; rewrite Hp;
    rewrite equal_keys_tie; reflexivity.
Qed.

Lemma dateValue_number (s : string) :
  is_Some (Date_parse s) -> isNaN (dateValue s) = false.
Proof. intros [t Ht]. unfold dateValue. rewrite Ht. reflexivity. Qed.

(** C2 (as amended).  Under a sort key whose comparator is a consistent
    order on the surviving tasks of the column, two tasks between which the
    comparator makes no difference come out of the projection in the
    relative order they had before the sort; without a sort key of the enum
    the order is not touched at all.  The comparator is consistent for the
    two priority sorts when every surviving task has a priority of the enum,
    for the two date sorts when every createdAt parses, and for the two
    rating sorts always. *)
Theorem sort_is_stable (filters : Filters) (columnTasks : list Task) :
  let kept := filterColumn filters columnTasks in
  (forall cmp a b,
      comparatorOf (sort filters) = Some cmp ->
      consistentOn cmp kept ->
      before a b kept -> tied cmp a b = true ->
      before a b (processColumn filters columnTasks))
  /\ (forall a b,
        comparatorOf (sort filters) = None ->
        before a b kept -> before a b (processColumn filters columnTasks))
  /\ (forall cmp,
        comparatorOf (sort filters) = Some cmp ->
        ((sort filters = "priority" \/ sort filters = "priority-asc") ->
         (forall t, In t kept -> In (priority t) allowedPriorities) ->
         consistentOn cmp kept)
        /\ ((sort filters = "date" \/ sort filters = "date-asc") ->
            (forall t, In t kept -> is_Some (Date_parse (createdAt t))) ->
            consistentOn cmp kept)
        /\ ((sort filters = "rating" \/ sort filters = "rating-asc") ->
            consistentOn cmp kept)).
Proof.
  intros kept. split; [|split].
  - intros cmp a b Hcmp Hcons Hb Htied. unfold processColumn, sortStage.
    rewrite Hcmp. cbv beta iota. fold kept.
    rewrite (Array_sort_consistent _ _ Hcons).
    apply stableSort_stable; [exact Hb|].
    unfold tied in Htied. apply andb_true_iff in Htied as [Hab _].
    apply negb_true_iff in Hab. exact Hab.
  - intros a b Hcmp Hb. unfold processColumn, sortStage. rewrite Hcmp.
    exact Hb.
  - intros cmp Hcmp. split; [|split].
    + intros Hsort Hvalid.
      destruct (difference_consistent (fun t => priorityOrder (priority t))
                  kept) as [Hdown Hup].
      { intros t Ht. apply priorityOrder_number, Hvalid, Ht. }
      destruct Hsort as [Hsort|Hsort]; rewrite Hsort in Hcmp;
        injection Hcmp as <-; assumption.
    + intros Hsort Hvalid.
      destruct (difference_consistent (fun t => dateValue (createdAt t))
                  kept) as [Hdown Hup].
      { intros t Ht. apply dateValue_number, Hvalid, Ht. }
      destruct Hsort as [Hsort|Hsort]; rewrite Hsort in Hcmp;
        injection Hcmp as <-; assumption.
    + intros Hsort.
      destruct (difference_consistent ratingOrZero kept) as [Hdown Hup].
      { intros t _. apply ratingOrZero_is_number. }
      destruct Hsort as [Hsort|Hsort]; rewrite Hsort in Hcmp;
        injection Hcmp as <-; assumption.
Qed.

End SortFacts.

(* ===================================================================== *)
(** * The projector and the arrays of the store                           *)
(* ===================================================================== *)

Section HeapFacts.
Import Str Sanitize Board Projector.
Context `{Host} {engine : Engine}.

Lemma alloc_holds (h0 ext : list (list Task)) (c : list Task) :
  holds h0 ((h0 ++ ext) ++ [c]) (length (h0 ++ ext)) c.
Proof.
  repeat split.
  - exists (ext ++ [c]). rewrite app_assoc. reflexivity.
  - rewrite length_app. lia.
  - apply list_lookup_middle. reflexivity.
Qed.

Lemma runStage_holds (stage : option (list Task -> list Task))
    (h0 h : list (list Task)) (l : nat) (c : list Task) :
  holds h0 h l c ->
  holds h0 (runStage stage l h).1 (runStage stage l h).2 (applyStage stage c).
Proof.
  intros Hh. destruct stage as [f|]; simpl; [|exact Hh].
  destruct Hh as ([ext ->] & Hl & Hc).
  unfold bind, read, alloc. simpl. rewrite Hc. simpl.
  apply alloc_holds.
Qed.

Lemma write_holds (h0 h : list (list Task)) (l : nat) (c v : list Task) :
  holds h0 h l c -> holds h0 (<[l := v]> h) l v.
Proof.
  intros ([ext ->] & Hl & Hc). repeat split.
  - exists (<[(l - length h0)%nat := v]> ext). apply insert_app_r_alt. exact Hl.
  - exact Hl.
  - apply list_lookup_insert_eq. apply lookup_lt_Some in Hc. exact Hc.
Qed.

(** One column: the stored arrays are as they were, the result is a new
    array, and it holds the projection of the stored contents. *)
Lemma projectColumn_holds (filters : Filters) (stored : nat)
    (h : list (list Task)) :
  holds h (projectColumn filters stored h).1 (projectColumn filters stored h).2
    (processColumn filters (default [] (h !! stored))).
Proof.
  unfold projectColumn, processColumn, filterColumn, bind, read, alloc, write, ret.
  remember (default [] (h !! stored)) as arr eqn:Earr.
  assert (H0 : holds h (h ++ [arr]) (length h) arr).
  { pose proof (alloc_holds h [] arr) as Ha. rewrite app_nil_r in Ha. exact Ha. }
  pose proof (runStage_holds (searchStage filters) _ _ _ _ H0) as H1.
  destruct (runStage (searchStage filters) (length h) (h ++ [arr])) as [h1 l1].
  simpl in H1.
  pose proof (runStage_holds (labelStage filters) _ _ _ _ H1) as H2.
  destruct (runStage (labelStage filters) l1 h1) as [h2 l2].
  simpl in H2.
  pose proof (runStage_holds (priorityStage filters) _ _ _ _ H2) as H3.
  destruct (runStage (priorityStage filters) l2 h2) as [h3 l3].
  simpl in H3. simpl.
  destruct H3 as (Hext & Hl & Hc). rewrite Hc. simpl.
  eapply write_holds. repeat split; eassumption.
Qed.

Lemma holds_old (h0 h : list (list Task)) (l i : nat) (c : list Task) :
  holds h0 h l c -> (i < length h0)%nat -> h !! i = h0 !! i.
Proof.
  intros ([ext ->] & _ & _) Hi. apply lookup_app_l. exact Hi.
Qed.

(** The loop over the columns. *)
Lemma forEachColumn_spec (filters : Filters) (entries : list (string * nat)) :
  forall (result : gmap string nat) (h : list (list Task)),
  (forall c l, In (c, l) entries -> (l < length h)%nat) ->
  let out := forEachColumn filters entries result h in
  (exists ext, out.1 = h ++ ext)
  /\ (forall c l', out.2 !! c = Some l' ->
        result !! c = Some l'
        \/ ((length h <= l')%nat
            /\ exists l, In (c, l) entries
                 /\ out.1 !! l' = Some (processColumn filters (default [] (h !! l)))))
  /\ (forall c, is_Some (result !! c) \/ (exists l, In (c, l) entries) ->
                is_Some (out.2 !! c)).
Proof.
  induction entries as [|[columnId stored] rest IH]; intros result h Hwf; simpl.
  - split; [exists []; rewrite app_nil_r; reflexivity|].
    split; [auto|]. intros c [Hc|[l []]]. exact Hc.
  - unfold bind.
    pose proof (projectColumn_holds filters stored h) as Hp.
    destruct (projectColumn filters stored h) as [h1 l1]. simpl in Hp.
    destruct Hp as ([ext1 Hext1] & Hl1 & Hc1).
    assert (Hlen : (length h <= length h1)%nat).
    { rewrite Hext1, length_app. lia. }
    specialize (IH (<[columnId := l1]> result) h1).
    destruct IH as ([ext2 Hext2] & Hres & Hall).
    { intros c l Hin. specialize (Hwf c l (or_intror Hin)). lia. }
    split; [|split].
    + exists (ext1 ++ ext2). rewrite Hext2, Hext1, app_assoc. reflexivity.
    + intros c l' Hlook. destruct (Hres c l' Hlook) as [Hold|(Hge & l & Hin & Hcont)].
      * destruct (decide (columnId = c)) as [->|Hne].
        -- rewrite lookup_insert_eq in Hold. injection Hold as <-.
           right. split; [exact Hl1|]. exists stored. split; [left; reflexivity|].
           rewrite Hext2. rewrite lookup_app_l; [exact Hc1|].
           apply lookup_lt_Some in Hc1. exact Hc1.
        -- rewrite lookup_insert_ne in Hold by exact Hne. left. exact Hold.
      * right. split; [lia|]. exists l. split; [right; exact Hin|].
        rewrite Hcont. f_equal. f_equal. f_equal.
        rewrite Hext1. apply lookup_app_l. apply (Hwf c l). right. exact Hin.
    + intros c Hc. apply Hall.
      destruct (decide (columnId = c)) as [->|Hne].
      * left. rewrite lookup_insert_eq. eauto.
      * destruct Hc as [Hc|[l [Heq|Hin]]].
        -- left. rewrite lookup_insert_ne by exact Hne. exact Hc.
        -- injection Heq as -> _. contradiction.
        -- right. eauto.
Qed.

(** C4.  Computing the projected view leaves every stored array as it was,
    and the array returned for a column is a new one: it is none of the
    arrays of the store, it did not exist before, and it holds the projection
    of the stored list of the column. *)
Theorem projection_leaves_store_untouched (filters : Filters)
    (kanbanTasks : gmap string nat) (h : list (list Task)) :
  (forall c l, kanbanTasks !! c = Some l -> (l < length h)%nat) ->
  let out := processedTasks filters kanbanTasks h in
  (forall c l, kanbanTasks !! c = Some l -> out.1 !! l = h !! l)
  /\ (forall c l', out.2 !! c = Some l' ->
        h !! l' = None
        /\ (forall c0 l, kanbanTasks !! c0 = Some l -> l' <> l)
        /\ exists l, kanbanTasks !! c = Some l
             /\ out.1 !! l' = Some (processColumn filters (default [] (h !! l))))
  /\ (forall c l, kanbanTasks !! c = Some l -> is_Some (out.2 !! c)).
Proof.
  intros Hwf out. subst out. unfold processedTasks.
  assert (Hentries : forall c l, In (c, l) (map_to_list kanbanTasks) <->
                                 kanbanTasks !! c = Some l).
  { intros c l. rewrite <- list_elem_of_In. apply elem_of_map_to_list. }
  destruct (forEachColumn_spec filters (map_to_list kanbanTasks) ∅ h)
    as ([ext Hext] & Hres & Hall).
  { intros c l Hin. apply (Hwf c l), Hentries, Hin. }
  split; [|split].
  - intros c l Hc. rewrite Hext. apply lookup_app_l. eapply Hwf, Hc.
  - intros c l' Hlook. destruct (Hres c l' Hlook) as [Hempty|(Hge & l & Hin & Hcont)].
    + rewrite lookup_empty in Hempty. discriminate.
    + split; [apply lookup_ge_None; exact Hge|].
      split.
      * intros c0 l0 Hc0 ->. specialize (Hwf c0 l0 Hc0). lia.
      * exists l. split; [apply Hentries, Hin|exact Hcont].
  - intros c l Hc. apply Hall. right. exists l. apply Hentries, Hc.
Qed.

End HeapFacts.

(* ===================================================================== *)
(** * The board store: creating and editing tasks                         *)
(* ===================================================================== *)

Section StoreFacts.
Import Str Sanitize Board.
Context `{Host}.



(** C5 (as amended).  For every existing column id and every [taskData] that
    omits id, priority, rating and createdAt, addTask constructs a task with
    the generated id, priority Medium, rating 8.8 and createdAt the current
    time, and appends it at the end of the list of that column. *)
Theorem addTask_defaults (k : Kanban) (columnId : string) (l : list Task)
    (taskData : TaskData) (random : Q) (now : string) :
  tasks k !! columnId = Some l ->
  td_id taskData = None ->
  td_priority taskData = None ->
  td_rating taskData = None ->
  td_createdAt taskData = None ->
  exists newTask,
    addTask (addNewTask columnId taskData random now) k
      = Ok (withTasks k (<[columnId := l ++ [newTask]]> (tasks k)))
    /\ id newTask = generateId random
    /\ priority newTask = "Medium"
    /\ rating newTask = Some (Fin 8.8)
    /\ createdAt newTask = now.
Proof.
  intros Hcol Hid Hprio Hrating Hcreated.
  unfold addNewTask, addTask. rewrite Hcol.
  unfold validateTask, spread. simpl.
  rewrite Hid, Hprio, Hrating, Hcreated. simpl.
  eexists. split; [reflexivity|]. simpl. repeat split.
Qed.

(** C5 as stated fails when [taskData] brings an id: the spread puts it over
    the generated one. *)
Lemma addNewTask_id_overridden :
  let taskData :=
    {| td_id := Some 5; td_title := Some "Patch the gateway";
       td_details := None; td_labels := None; td_priority := None;
       td_rating := None; td_starred := None; td_status := None;
       td_createdAt := None; td_dueDate := None; td_priorityColor := None |} in
  let newTask :=
    (addNewTask "backlog" taskData 0.5 "2026-11-03T10:00:00.000Z").2 in
  td_priority taskData = None /\ td_rating taskData = None
  /\ td_createdAt taskData = None
  /\ id newTask = 5 /\ generateId 0.5 = 5500 /\ id newTask <> generateId 0.5.
Proof. repeat split. discriminate. Qed.

(** ** Reading the store *)

Lemma anyTask_true (p : Task -> bool) (k : Kanban) :
  anyTask p k = true <->
  exists c l t, tasks k !! c = Some l /\ In t l /\ p t = true.
Proof.
  unfold anyTask. rewrite existsb_exists. split.
  - intros ([c l] & Hin & Hex). simpl in Hex.
    apply existsb_exists in Hex as (t & Ht & Hp).
    exists c, l, t. split; [|auto].
    apply elem_of_map_to_list, list_elem_of_In, Hin.
  - intros (c & l & t & Hc & Ht & Hp). exists (c, l). split.
    + apply list_elem_of_In, elem_of_map_to_list, Hc.
    + simpl. apply existsb_exists. eauto.
Qed.

Lemma anyTask_false (p : Task -> bool) (k : Kanban) (c : string)
    (l : list Task) (t : Task) :
  anyTask p k = false -> tasks k !! c = Some l -> In t l -> p t = false.
Proof.
  intros Hany Hc Ht. destruct (p t) eqn:Hp; [|reflexivity].
  rewrite <- Hany. symmetry. apply anyTask_true. eauto 6.
Qed.

(** The lists of the store after every task went through [f]. *)
Lemma lookup_mapped (f : Task -> Task) (k : Kanban) (c : string)
    (l : list Task) (t : Task) :
  (List.map f <$> tasks k) !! c = Some l -> In t l ->
  exists l0 t0, tasks k !! c = Some l0 /\ In t0 l0 /\ t = f t0.
Proof.
  rewrite lookup_fmap. destruct (tasks k !! c) as [l0|]; [|discriminate].
  simpl. intros [= <-] Hin. apply in_map_iff in Hin as (t0 & <- & Hin).
  eauto.
Qed.

Lemma editTask_rating (k : Kanban) (taskId r : Z) (clamped : number) :
  taskExists taskId k = true ->
  clampRating (ofZ r) = clamped ->
  exists k', editTask (updateTask taskId (ratingPatch r)) k = Ok k'
             /\ readsBackRating taskId clamped k'.
Proof.
  intros Hex Hclamp. unfold editTask, updateTask. rewrite Hex.
  unfold validatePatch, ratingPatch. simpl. rewrite Hclamp.
  eexists. split; [reflexivity|]. split.
  - apply anyTask_true in Hex as (c & l & t & Hc & Ht & Hid).
    exists c. eexists. eexists. simpl.
    split; [rewrite lookup_fmap, Hc; reflexivity|].
    split; [apply (in_map _ _ _ Ht)|].
    cbv beta. rewrite Hid. simpl. unfold hasId in Hid. lia.
  - simpl. intros c l t Hc Ht Hid.
    destruct (lookup_mapped _ _ _ _ _ Hc Ht) as (l0 & t0 & _ & _ & ->).
    destruct (hasId taskId t0) eqn:Hh; [reflexivity|].
    unfold hasId in Hh. lia.
Qed.

(** C3.  For every stored task id, [editTask(id, {rating: 15})] is applied
    and the task reads back with rating 10, and [editTask(id, {rating: -3})]
    is applied and the task reads back with rating 0: the rating is clamped
    into [0,10], neither rejected nor stored as it came. *)
Theorem editTask_clamps_rating (k : Kanban) (taskId : Z) :
  taskExists taskId k = true ->
  (exists k', editTask (updateTask taskId (ratingPatch 15)) k = Ok k'
              /\ readsBackRating taskId (ofZ 10) k')
  /\ (exists k', editTask (updateTask taskId (ratingPatch (-3))) k = Ok k'
                 /\ readsBackRating taskId (ofZ 0) k').
Proof.
  intros Hex. split; apply editTask_rating; auto.
Qed.

(** ** The cap on the labels of a task *)

Lemma capped_length (ls : list string) :
  (length (firstn labelCap ls) <= labelCap)%nat.
Proof. rewrite length_firstn. lia. Qed.

Lemma addTask_withinCap (payload : string * Task) (k k' : Kanban) :
  withinCap k -> addTask payload k = Ok k' -> withinCap k'.
Proof.
  destruct payload as [columnId task]. unfold addTask.
  intros Hcap Hadd.
  destruct (tasks k !! columnId) as [l0|] eqn:Hc0; [|discriminate].
  unfold validateTask in Hadd.
  destruct (validPriority (priority task)); [|discriminate].
  injection Hadd as <-. intros c l t ls Hc Ht Hls. simpl in Hc.
  destruct (decide (columnId = c)) as [->|Hne].
  - rewrite lookup_insert_eq in Hc. injection Hc as <-.
    apply in_app_or in Ht as [Ht|[<-|[]]].
    + eapply Hcap; eauto.
    + simpl in Hls. destruct (labels task) as [ls0|]; [|discriminate].
      injection Hls as <-. apply capped_length.
  - rewrite lookup_insert_ne in Hc by exact Hne. eapply Hcap; eauto.
Qed.

Lemma editTask_withinCap (payload : Z * TaskData) (k k' : Kanban) :
  withinCap k -> editTask payload k = Ok k' -> withinCap k'.
Proof.
  destruct payload as [taskId data]. unfold editTask.
  intros Hcap Hedit.
  destruct (taskExists taskId k); [|discriminate].
  unfold validatePatch in Hedit.
  destruct (match td_priority data with
            | Some p => validPriority p
            | None => true
            end); [|discriminate].
  injection Hedit as <-. intros c l t ls Hc Ht Hls. simpl in Hc.
  destruct (lookup_mapped _ _ _ _ _ Hc Ht) as (l0 & t0 & Hc0 & Ht0 & ->).
  destruct (hasId taskId t0); [|eapply Hcap; eauto].
  simpl in Hls. destruct (td_labels data) as [ls0|]; simpl in Hls.
  - injection Hls as <-. apply capped_length.
  - eapply Hcap; eauto.
Qed.

Lemma attachLabel_withinCap (taskId : Z) (labelId : string) (k k' : Kanban) :
  withinCap k -> attachLabel taskId labelId k = Ok k' -> withinCap k'.
Proof.
  unfold attachLabel. intros Hcap Hatt.
  destruct (taskExists taskId k); [|discriminate].
  destruct (anyTask _ k) eqn:Hfull; [discriminate|].
  injection Hatt as <-. intros c l t ls Hc Ht Hls. simpl in Hc.
  destruct (lookup_mapped _ _ _ _ _ Hc Ht) as (l0 & t0 & Hc0 & Ht0 & ->).
  pose proof (anyTask_false _ _ _ _ _ Hfull Hc0 Ht0) as Hroom.
  cbv beta in Hroom.
  destruct (hasId taskId t0 && negb (hasLabel labelId t0)); [|eapply Hcap; eauto].
  rewrite andb_true_l in Hroom. apply Nat.leb_gt in Hroom.
  simpl in Hls. injection Hls as <-.
  rewrite length_app. simpl. lia.
Qed.

Lemma submitNewTask_capped (columnId : string) (formData : FormData)
    (random : Q) (now : string) (c : string) (t : Task) :
  submitNewTask columnId formData random now = Some (c, t) ->
  exists ls, labels t = Some ls /\ (length ls <= labelCap)%nat.
Proof.
  unfold submitNewTask, handleSubmit.
  destruct (validateForm formData) as [isValid sanitizedData] eqn:Hv.
  destruct (negb isValid); [discriminate|].
  unfold addNewTask. intros [= <- <-]. simpl.
  eexists. split; [reflexivity|].
  unfold validateForm in Hv. injection Hv as _ <-. simpl.
  apply capped_length.
Qed.

(** C8.  Creating a task and editing a task keep the number of labels of
    every stored task at most 10, whatever the length of the labels array
    that comes in: the task built from the form of the modal has at most 10
    labels, and the store operations addTask, editTask and attachLabel turn
    a store within the cap into a store within the cap. *)
Theorem label_cap_kept :
  (forall columnId formData random now c t,
      submitNewTask columnId formData random now = Some (c, t) ->
      exists ls, labels t = Some ls /\ (length ls <= 10)%nat)
  /\ (forall k columnId taskData random now k',
        withinCap k ->
        addTask (addNewTask columnId taskData random now) k = Ok k' ->
        withinCap k')
  /\ (forall k taskId data k',
        withinCap k ->
        editTask (updateTask taskId data) k = Ok k' ->
        withinCap k')
  /\ (forall k taskId labelId k',
        withinCap k ->
        attachLabel taskId labelId k = Ok k' ->
        withinCap k').
Proof.
  split; [apply submitNewTask_capped|].
  split; [intros; eapply addTask_withinCap; eauto|].
  split; [intros; eapply editTask_withinCap; eauto|].
  intros; eapply attachLabel_withinCap; eauto.
Qed.

End StoreFacts.

(* ===================================================================== *)
(** * The thunks and the kanban store                                     *)
(* ===================================================================== *)

Section AuthFacts.
Import Str Sanitize Board Auth.
Context `{Persist}.





End AuthFacts.

(* ===================================================================== *)
(** * The statements at work on a sample board                            *)
(* ===================================================================== *)

Section Samples.
Import Str Sanitize Board Projector Auth Sample SampleEngine.

Lemma filters_compose_witness :
  In fixInjection (processColumn sqlFilters backlog).
Proof.
  apply (filters_compose sqlFilters ["lbl-A"; "lbl-B"] "High" backlog
           fixInjection);
    [discriminate | reflexivity | reflexivity | discriminate |].
  split; [right; left; reflexivity|].
  split; [left; exists "fix ", " injection in login"; reflexivity|].
  split; [|reflexivity].
  exists "lbl-A", ["lbl-A"]. split; [reflexivity|]. split; left; reflexivity.
Defined.

Lemma sort_is_stable_witness :
  before fixInjection updateDocs (processColumn (bySort "priority") backlog).
Proof.
  pose proof (sort_is_stable (bySort "priority") backlog) as Hs.
  cbv zeta in Hs. destruct Hs as (Hstable & _ & Hcons).
  apply (Hstable (fun a b => sub (priorityOrder (priority b))
                                 (priorityOrder (priority a)))).
  - reflexivity.
  - apply (proj1 (Hcons _ eq_refl)); [left; reflexivity|].
    intros t [<-|[<-|[<-|[<-|[]]]]]; simpl; tauto.
  - apply before_later, before_here. right. left. reflexivity.
  - reflexivity.
Defined.

(** C2 as stated fails.  On V8 the seven findings are sorted by priority
    with the seventh in front of the sixth, though both are High and the
    sixth came first: the comparator gives NaN against the finding whose
    priority is not of the enum, and is no consistent order. *)
Lemma sort_reorders_tied_tasks :
  @processColumn host v8 (bySort "priority") mixedBacklog
  = [finding 1 "Critical"; finding 2 "Critical"; finding 4 "High";
     finding 7 "High"; finding 3 "Medium"; finding 5 "Urgent";
     finding 6 "High"]
  /\ (forall cmp, comparatorOf "priority" = Some cmp ->
                  tied cmp (finding 6 "High") (finding 7 "High") = true)
  /\ before (finding 6 "High") (finding 7 "High") mixedBacklog
  /\ ~ before (finding 6 "High") (finding 7 "High")
        (@processColumn host v8 (bySort "priority") mixedBacklog).
Proof.
  assert (Hout : @processColumn host v8 (bySort "priority") mixedBacklog
                 = [finding 1 "Critical"; finding 2 "Critical";
                    finding 4 "High"; finding 7 "High"; finding 3 "Medium";
                    finding 5 "Urgent"; finding 6 "High"])
    by (vm_compute; reflexivity).
  split; [exact Hout|]. split; [|split].
  - intros cmp [= <-]. reflexivity.
  - do 5 apply before_later. apply before_here. left. reflexivity.
  - rewrite Hout. unfold finding, task. intros Hb.
    repeat match goal with
           | Hb : before _ _ (_ :: _) |- _ => inversion Hb; clear Hb; subst
           | Hb : before _ _ [] |- _ => inversion Hb
           | Hi : In _ _ |- _ => simpl in Hi; intuition discriminate
           end.
Qed.

Lemma priority_sort_witness :
  Permutation (processColumn (bySort "priority") backlog) backlog
  /\ StronglySorted (fun a b => rankOf a >= rankOf b)
       (processColumn (bySort "priority") backlog).
Proof.
  destruct (priority_sort_orders_by_rank (bySort "priority") backlog)
    as (Hperm & Hdown & _).
  - intros t [<-|[<-|[<-|[<-|[]]]]]; simpl; tauto.
  - split; [exact Hperm|apply Hdown; reflexivity].
Defined.

Lemma projection_witness :
  (processedTasks sqlFilters {[ "backlog" := 0%nat ]} [backlog]).1 !! 0%nat
  = Some backlog.
Proof.
  apply (proj1 (projection_leaves_store_untouched sqlFilters
                  {[ "backlog" := 0%nat ]} [backlog]
                  ltac:(intros c l Hl;
                        apply lookup_singleton_Some in Hl as [_ <-];
                        simpl; lia))
           "backlog" 0%nat).
  apply lookup_singleton_eq.
Defined.


Lemma addTask_defaults_witness :
  exists newTask,
    addTask (addNewTask "backlog" noTaskData 0.5 today) seed
      = Ok (withTasks seed (<["backlog" := [] ++ [newTask]]> (tasks seed)))
    /\ id newTask = 5500
    /\ priority newTask = "Medium"
    /\ rating newTask = Some (Fin 8.8)
    /\ createdAt newTask = today.
Proof.
  destruct (addTask_defaults seed "backlog" [] noTaskData 0.5 today)
    as (t & Hadd & Hid & Hp & Hr & Hc); try reflexivity.
  exists t. repeat split; assumption.
Defined.

Lemma editTask_clamps_witness :
  (exists k', editTask (updateTask 1001 (ratingPatch 15)) busyBoard = Ok k'
              /\ readsBackRating 1001 (ofZ 10) k')
  /\ (exists k', editTask (updateTask 1001 (ratingPatch (-3))) busyBoard = Ok k'
                 /\ readsBackRating 1001 (ofZ 0) k').
Proof.
  apply (editTask_clamps_rating busyBoard 1001). reflexivity.
Defined.

Lemma seed_withinCap : withinCap seed.
Proof.
  intros c l t ls Hc Ht _. unfold seed in Hc. simpl in Hc.
  apply lookup_insert_Some in Hc as [[_ <-]|[_ Hc]]; [destruct Ht|].
  apply lookup_singleton_Some in Hc as [_ <-]. destruct Ht.
Qed.

Lemma label_cap_witness : withinCap afterAdd.
Proof.
  apply (proj1 (proj2 label_cap_kept) seed "backlog" twelveLabels 0.5%Q today
           afterAdd seed_withinCap).
  reflexivity.
Defined.



End Samples.

(* ===================================================================== *)
(** * More on sanitizeInput                                               *)
(* ===================================================================== *)

Section SanitizeInputMore.
Import Str Sanitize.

Lemma sanitizeInput_string (s : string) (options : InputOptions) :
  sanitizeInput (VStr s) options =
  if Z.of_nat (String.length (stripped options s)) >? default 1000 (maxLength options)
  then take (Z.to_nat (default 1000 (maxLength options))) (stripped options s)
  else stripped options s.
Proof. reflexivity. Qed.

(** Replacing the characters of a class by a text that has none of them
    leaves none of them. *)
Lemma allChars_replace_class (p : ascii -> bool) (by_ : string) (skip : nat)
    (s : string) :
  allChars (fun c => negb (p c)) by_ = true ->
  allChars (fun c => negb (p c)) (replaceFrom (charClass p) by_ skip s) = true.
Proof.
  intros Hby. revert skip. induction s as [|c s IH]; intros skip; simpl; auto.
  destruct skip as [|k]; [|apply IH].
  destruct (p c) eqn:Hp; simpl.
  - apply allChars_append; [exact Hby|apply IH].
  - rewrite Hp. simpl. apply IH.
Qed.

(** The steps after the first bring in nothing but the space. *)
Lemma stripped_keeps (p : ascii -> bool) (options : InputOptions) (s : string) :
  p " "%char = true ->
  allChars p (replaceAll (charClass isControl) EmptyString s) = true ->
  allChars p (stripped options s) = true.
Proof.
  intros Hsp H0. unfold stripped. apply allChars_trim.
  set (s0 := replaceAll (charClass isControl) EmptyString s) in *.
  clearbody s0.
  assert (H1 : allChars p
                 (if negb (default false (allowHTML options))
                  then replaceAll eventHandler EmptyString
                         (replaceAll (literalCI "javascript:") EmptyString
                            (replaceAll (charClass isDangerous) EmptyString
                               (replaceAll htmlTag EmptyString s0)))
                  else s0) = true).
  { destruct (negb (default false (allowHTML options))); [|exact H0].
    unfold replaceAll. repeat (apply allChars_replaceFrom; [reflexivity|]).
    exact H0. }
  destruct (negb (default true (preserveNewlines options))); [|exact H1].
  apply allChars_replaceFrom; [|exact H1].
  simpl. rewrite Hsp. reflexivity.
Qed.

Lemma cut_keeps (p : ascii -> bool) (input : value) (options : InputOptions) :
  (forall s, input = VStr s -> allChars p (stripped options s) = true) ->
  allChars p (sanitizeInput input options) = true.
Proof.
  intros Hs. destruct input as [| |b|n|s|l]; try reflexivity.
  rewrite sanitizeInput_string. specialize (Hs s eq_refl).
  destruct (_ >? _); [apply allChars_take|]; exact Hs.
Qed.

(** X1.  Whatever the input and the options, the result of [sanitizeInput]
    has no control character of the class the first step removes. *)
Theorem sanitizeInput_no_control (input : value) (options : InputOptions) :
  allChars printable (sanitizeInput input options) = true.
Proof.
  apply cut_keeps. intros s _. apply stripped_keeps; [reflexivity|].
  apply allChars_delete_class.
Qed.

Lemma startsWithSpace_trimEnd (s : string) :
  startsWithSpace s = false -> startsWithSpace (trimEnd s) = false.
Proof.
  destruct s as [|c s]; [reflexivity|]. simpl. intros Hc.
  destruct (trimEnd s); [rewrite Hc|]; simpl; auto.
Qed.

Lemma startsWithSpace_trimStart (s : string) :
  startsWithSpace (trimStart s) = false.
Proof.
  induction s as [|c s IH]; [reflexivity|]. simpl.
  destruct (isSpace c) eqn:Hc; [exact IH|]. simpl. exact Hc.
Qed.

Lemma startsWithSpace_take (n : nat) (s : string) :
  startsWithSpace s = false -> startsWithSpace (take n s) = false.
Proof. destruct n, s; simpl; auto. Qed.

(** X2.  The result of [sanitizeInput] never starts with white space, and
    with [preserveNewlines] false it has no carriage return and no line
    feed. *)
Theorem sanitizeInput_trimmed (input : value) (options : InputOptions) :
  startsWithSpace (sanitizeInput input options) = false
  /\ (preserveNewlines options = Some false ->
      allChars (fun c => negb (isNewline c)) (sanitizeInput input options) = true).
Proof.
  split.
  - destruct input as [| |b|n|s|l]; try reflexivity.
    rewrite sanitizeInput_string.
    assert (Hb : startsWithSpace (stripped options s) = false).
    { unfold stripped, trim.
      apply startsWithSpace_trimEnd, startsWithSpace_trimStart. }
    destruct (_ >? _); [apply startsWithSpace_take|]; exact Hb.
  - intros Hnl. apply cut_keeps. intros s _.
    unfold stripped. rewrite Hnl. simpl negb. cbv iota.
    apply allChars_trim. apply allChars_replace_class. reflexivity.
Qed.

(** A regular expression that finds nothing in texts of a kind closed under
    taking the rest leaves such a text as it is. *)
Lemma replaceFrom_id (q : ascii -> bool) (re : Regex) (by_ : string)
    (s : string) :
  (forall t, allChars q t = true -> re t = None) ->
  allChars q s = true ->
  replaceFrom re by_ O s = s.
Proof.
  intros Hre. induction s as [|c s IH]; intros Hs; [reflexivity|].
  simpl. rewrite (Hre _ Hs). simpl in Hs.
  apply andb_true_iff in Hs as [_ Hs]. rewrite (IH Hs). reflexivity.
Qed.

Lemma charClass_none (q p : ascii -> bool) (t : string) :
  (forall c, q c = true -> p c = false) ->
  allChars q t = true -> charClass p t = None.
Proof.
  intros Hqp Ht. destruct t as [|c t]; [reflexivity|]. simpl in *.
  apply andb_true_iff in Ht as [Hc _]. rewrite (Hqp c Hc). reflexivity.
Qed.

Lemma allChars_impl (p q : ascii -> bool) (s : string) :
  (forall c, p c = true -> q c = true) ->
  allChars p s = true -> allChars q s = true.
Proof.
  intros Hpq. induction s as [|c s IH]; simpl; [auto|].
  intros Hs. apply andb_true_iff in Hs as [Hc Hs].
  rewrite (Hpq c Hc), (IH Hs). reflexivity.
Qed.

Lemma allChars_drop (p : ascii -> bool) (n : nat) (s : string) :
  allChars p s = true -> allChars p (drop n s) = true.
Proof.
  revert s. induction n as [|n IH]; intros [|c s]; simpl; auto.
  intros Hs. apply andb_true_iff in Hs as [_ Hs]. auto.
Qed.

Lemma allChars_toLowerCase (p : ascii -> bool) (s : string) :
  allChars (fun c => p (toLowerChar c)) s = true ->
  allChars p (toLowerCase s) = true.
Proof.
  induction s as [|c s IH]; simpl; [auto|].
  intros Hs. apply andb_true_iff in Hs as [Hc Hs]. rewrite Hc, (IH Hs).
  reflexivity.
Qed.

(** The characters of a prefix are characters of the text. *)
Lemma allChars_prefix (p : ascii -> bool) (pre s : string) :
  isPrefixOf pre s = true -> allChars p s = true -> allChars p pre = true.
Proof.
  revert s. induction pre as [|a pre IH]; intros [|b s]; simpl; try discriminate; auto.
  intros Hpre Hs. apply andb_true_iff in Hpre as [Hab Hpre].
  apply andb_true_iff in Hs as [Hb Hs]. apply Ascii.eqb_eq in Hab. subst b.
  rewrite Hb. simpl. eauto.
Qed.

(** Lower-casing turns no character into a colon. *)
Lemma toLowerChar_colon (c : ascii) :
  isChar 58 (toLowerChar c) = isChar 58 c.
Proof. destruct c as [[] [] [] [] [] [] [] []]; reflexivity. Qed.

Lemma literalCI_none (q : ascii -> bool) (t : string) :
  (forall c, q c = true -> isChar 58 c = false) ->
  allChars q t = true -> literalCI "javascript:" t = None.
Proof.
  intros Hq Ht. unfold literalCI.
  destruct (isPrefixOf (toLowerCase "javascript:") (toLowerCase t)) eqn:Hp;
    [|reflexivity].
  apply (allChars_prefix (fun c => negb (isChar 58 c))) in Hp.
  - discriminate Hp.
  - apply allChars_toLowerCase. eapply allChars_impl; [|exact Ht].
    intros c Hc. cbv beta. rewrite toLowerChar_colon, (Hq c Hc). reflexivity.
Qed.

Lemma eventHandler_none (q : ascii -> bool) (t : string) :
  (forall c, q c = true -> isChar 61 c = false) ->
  allChars q t = true -> eventHandler t = None.
Proof.
  intros Hq Ht. unfold eventHandler.
  destruct (isPrefixOf "on" (toLowerCase t)); [|reflexivity].
  destruct (spanLength isWord (drop 2 t)); [reflexivity|].
  match goal with
  | |- match ?u with _ => _ end = None =>
      assert (Hu : allChars q u = true) by (repeat apply allChars_drop; exact Ht);
      destruct u as [|c rest]; [reflexivity|]
  end.
  simpl in Hu. apply andb_true_iff in Hu as [Hc _].
  rewrite (Hq c Hc). reflexivity.
Qed.

Lemma htmlTag_none (q : ascii -> bool) (t : string) :
  (forall c, q c = true -> isChar 60 c = false) ->
  allChars q t = true -> htmlTag t = None.
Proof.
  intros Hq Ht. destruct t as [|c t]; [reflexivity|]. simpl in *.
  apply andb_true_iff in Ht as [Hc _]. rewrite (Hq c Hc). reflexivity.
Qed.

Lemma trimStart_id (s : string) : startsWithSpace s = false -> trimStart s = s.
Proof. destruct s as [|c s]; simpl; [auto|]. intros ->. reflexivity. Qed.

Lemma trimEnd_id (s : string) :
  allChars (fun c => negb (isSpace c)) s = true -> trimEnd s = s.
Proof.
  induction s as [|c s IH]; simpl; [auto|].
  intros Hs. apply andb_true_iff in Hs as [Hc Hs]. rewrite (IH Hs).
  apply negb_true_iff in Hc. rewrite Hc. destruct s; reflexivity.
Qed.

Lemma trim_id (s : string) :
  allChars (fun c => negb (isSpace c)) s = true -> trim s = s.
Proof.
  intros Hs. unfold trim. rewrite trimStart_id; [apply trimEnd_id, Hs|].
  destruct s as [|c s]; [reflexivity|]. simpl in *.
  apply andb_true_iff in Hs as [Hc _]. apply negb_true_iff, Hc.
Qed.

Lemma inert_parts (c : ascii) :
  inert c = true ->
  isControl c = false /\ isDangerous c = false /\ isChar 58 c = false
  /\ isChar 61 c = false /\ isSpace c = false.
Proof.
  unfold inert. rewrite negb_true_iff, !orb_false_iff. tauto.
Qed.

Lemma space_of_newline (c : ascii) : isSpace c = false -> isNewline c = false.
Proof. destruct c as [[] [] [] [] [] [] [] []]; vm_compute; congruence. Qed.

Lemma less_than_dangerous (c : ascii) :
  isDangerous c = false -> isChar 60 c = false.
Proof. unfold isDangerous. rewrite !orb_false_iff. tauto. Qed.

Lemma stripped_inert (options : InputOptions) (s : string) :
  allChars inert s = true -> stripped options s = s.
Proof.
  intros Hs. unfold stripped, replaceAll.
  assert (Hpart : forall c, inert c = true -> _) by exact inert_parts.
  rewrite (replaceFrom_id inert (charClass isControl)); [|
    intros t; apply charClass_none; intros c Hc; apply Hpart, Hc | exact Hs].
  assert (Hhtml : replaceFrom eventHandler EmptyString O
                    (replaceFrom (literalCI "javascript:") EmptyString O
                       (replaceFrom (charClass isDangerous) EmptyString O
                          (replaceFrom htmlTag EmptyString O s))) = s).
  { rewrite (replaceFrom_id inert htmlTag); [| |exact Hs].
    2:{ intros t; apply htmlTag_none; intros c Hc.
        apply less_than_dangerous, Hpart, Hc. }
    rewrite (replaceFrom_id inert (charClass isDangerous)); [| |exact Hs].
    2:{ intros t; apply charClass_none; intros c Hc; apply Hpart, Hc. }
    rewrite (replaceFrom_id inert (literalCI "javascript:")); [| |exact Hs].
    2:{ intros t; apply literalCI_none; intros c Hc; apply Hpart, Hc. }
    apply (replaceFrom_id inert); [|exact Hs].
    intros t; apply eventHandler_none; intros c Hc; apply Hpart, Hc. }
  assert (Hnl : replaceFrom (charClass isNewline) " " O s = s).
  { apply (replaceFrom_id inert); [|exact Hs].
    intros t; apply charClass_none; intros c Hc.
    apply space_of_newline, Hpart, Hc. }
  destruct (negb (default false (allowHTML options)));
    destruct (negb (default true (preserveNewlines options)));
    rewrite ?Hhtml, ?Hnl; apply trim_id;
    (eapply allChars_impl; [|exact Hs]); intros c Hc;
    apply negb_true_iff, Hpart, Hc.
Qed.

Lemma sanitizeInput_inert_plain (s : string) (options : InputOptions) :
  allChars inert s = true ->
  Z.of_nat (String.length s) <= default 1000 (maxLength options) ->
  sanitizeInput (VStr s) options = s.
Proof.
  intros Hs Hlen. rewrite sanitizeInput_string, (stripped_inert _ _ Hs).
  destruct (Z.gtb_spec (Z.of_nat (String.length s))
              (default 1000 (maxLength options))); [lia|reflexivity].
Qed.

(** X3.  A string of inert characters (no control character, none of the
    four dangerous characters, no colon, no equals sign, no white space) that
    fits [maxLength] comes out of [sanitizeInput] as it went in, whatever the
    options. *)
Theorem sanitizeInput_inert_unchanged (s : string) (options : InputOptions) :
  allChars inert s = true ->
  Z.of_nat (String.length s) <= default 1000 (maxLength options) ->
  sanitizeInput (VStr s) options = s.
Proof. apply sanitizeInput_inert_plain. Qed.

End SanitizeInputMore.

(* ===================================================================== *)
(** * sanitizeEmail                                                       *)
(* ===================================================================== *)

Section SanitizeEmailFacts.
Import Str Sanitize.

Lemma emailChar_lower (c : ascii) : emailChar c = true -> toLowerChar c = c.
Proof. destruct c as [[] [] [] [] [] [] [] []]; vm_compute; congruence. Qed.

Lemma emailChar_no_space (c : ascii) :
  emailChar c = true -> negb (isSpace c) = true.
Proof. destruct c as [[] [] [] [] [] [] [] []]; vm_compute; congruence. Qed.

Lemma toLowerCase_id (s : string) :
  allChars emailChar s = true -> toLowerCase s = s.
Proof.
  induction s as [|c s IH]; simpl; [auto|].
  intros Hs. apply andb_true_iff in Hs as [Hc Hs].
  rewrite (emailChar_lower c Hc), (IH Hs). reflexivity.
Qed.

Lemma sanitizeEmail_cases (email : string) :
  let sanitized :=
    trim (replaceAll (charClass isEmailJunk) EmptyString (toLowerCase email)) in
  allChars emailChar sanitized = true
  /\ sanitizeEmail (VStr email)
     = if emailRegex_test sanitized then sanitized else EmptyString.
Proof.
  split; [|reflexivity].
  apply allChars_trim. apply allChars_delete_class.
Qed.

Lemma sanitizeEmail_empty_or_parts (email : value) :
  sanitizeEmail email = EmptyString
  \/ wellFormedEmail (sanitizeEmail email) = true.
Proof.
  destruct email as [| |b|n|s|l]; try (left; reflexivity).
  destruct (sanitizeEmail_cases s) as [Hchars ->].
  destruct (emailRegex_test _) eqn:Ht; [right|left; reflexivity].
  unfold wellFormedEmail. rewrite Hchars, Ht. reflexivity.
Qed.

(** X4.  [sanitizeEmail] returns the empty string or a well-formed address:
    only lower-case letters, digits and the five signs, in the shape the
    regular expression of the function asks for.  A value that is not a
    string gives the empty string. *)
Theorem sanitizeEmail_empty_or_well_formed (email : value) :
  (sanitizeEmail email = EmptyString
   \/ wellFormedEmail (sanitizeEmail email) = true)
  /\ ((forall s, email <> VStr s) -> sanitizeEmail email = EmptyString).
Proof.
  split; [apply sanitizeEmail_empty_or_parts|].
  intros Hns. destruct email; try reflexivity. exfalso. eapply Hns. reflexivity.
Qed.

Lemma sanitizeEmail_fixed (s : string) :
  wellFormedEmail s = true -> sanitizeEmail (VStr s) = s.
Proof.
  unfold wellFormedEmail. intros Hs. apply andb_true_iff in Hs as [Hc Ht].
  unfold sanitizeEmail. rewrite (toLowerCase_id s Hc).
  unfold replaceAll.
  rewrite (replaceFrom_id emailChar (charClass isEmailJunk)); [| |exact Hc].
  2:{ intros t. apply charClass_none. intros c. unfold emailChar.
      apply negb_true_iff. }
  rewrite trim_id; [rewrite Ht; reflexivity|].
  eapply allChars_impl; [|exact Hc]. apply emailChar_no_space.
Qed.

(** X5.  A well-formed address goes through [sanitizeEmail] unchanged, and
    so [sanitizeEmail] applied to its own result changes nothing. *)
Theorem sanitizeEmail_idempotent :
  (forall s, wellFormedEmail s = true -> sanitizeEmail (VStr s) = s)
  /\ (forall email,
        sanitizeEmail (VStr (sanitizeEmail email)) = sanitizeEmail email).
Proof.
  split; [exact sanitizeEmail_fixed|].
  intros email.
  destruct (sanitizeEmail_empty_or_parts email) as [->|Hw];
    [reflexivity|apply sanitizeEmail_fixed, Hw].
Qed.

End SanitizeEmailFacts.

(* ===================================================================== *)
(** * sanitizeNumber                                                      *)
(* ===================================================================== *)

Section SanitizeNumberFacts.
Import Str Sanitize.
Context `{Host}.

Lemma Qle_bool_false (p q : Q) : Qle_bool p q = false -> (q <= p)%Q.
Proof.
  intros Hf. apply Qlt_le_weak, Qnot_le_lt. intros Hle.
  apply Qle_bool_iff in Hle. congruence.
Qed.

(** The clamp of a finite number between ordered bounds lies between them. *)
Lemma clamp_between (lo hi : number) (q : Q) :
  leNum lo hi ->
  leNum lo (clamp lo hi (Fin q)) /\ leNum (clamp lo hi (Fin q)) hi.
Proof.
  unfold clamp.
  destruct lo as [| |l|], hi as [| |h|]; simpl; try tauto; intros Hlh.
  - destruct (Qle_bool h q) eqn:E; simpl; split; auto; try apply Qle_refl.
    apply Qle_bool_false, E.
  - destruct (Qle_bool h q) eqn:Eh; simpl.
    + destruct (Qle_bool h l) eqn:El; simpl; split;
        auto using Qle_refl, Qle_bool_false.
    + destruct (Qle_bool q l) eqn:El; simpl; split;
        auto using Qle_refl, Qle_bool_false.
  - destruct (Qle_bool q l) eqn:El; simpl; split;
      auto using Qle_refl, Qle_bool_false.
Qed.

(** The clamp is one of the bounds or the number itself. *)
Lemma clamp_choice (lo hi n : number) :
  clamp lo hi n = lo \/ clamp lo hi n = hi \/ clamp lo hi n = n.
Proof.
  unfold clamp.
  destruct lo as [| |l|], hi as [| |h|], n as [| |q|]; simpl; auto;
    repeat match goal with
           | |- context [if ?b then _ else _] => destruct b; simpl; auto
           end.
Qed.

(** What [sanitizeNumber] returns, by what [parseFloat] found. *)
Lemma sanitizeNumber_cases (input : value) (options : NumberOptions) :
  match parseFloat input with
  | Fin q =>
      sanitizeNumber input options =
      clamp (default NegInf (min options)) (default PosInf (max options))
        (if negb (default true (allowFloat options))
         then Fin (inject_Z (Qfloor q)) else Fin q)
  | _ =>
      sanitizeNumber input options = default (ofZ 0) (defaultValue options)
  end.
Proof.
  unfold sanitizeNumber, clamp. destruct (parseFloat input); simpl; reflexivity.
Qed.

(** X6.  [sanitizeNumber] returns [defaultValue] when [parseFloat] finds no
    finite number (NaN or an infinity: an infinity is not clamped); when it
    finds one and [min] is at most [max], the result lies from [min] to
    [max]. *)
Theorem sanitizeNumber_default_or_clamped (input : value)
    (options : NumberOptions) :
  let lo := default NegInf (min options) in
  let hi := default PosInf (max options) in
  let result := sanitizeNumber input options in
  (isFinite (parseFloat input) = false ->
   result = default (ofZ 0) (defaultValue options))
  /\ (isFinite (parseFloat input) = true -> leNum lo hi ->
      leNum lo result /\ leNum result hi).
Proof.
  intros lo hi result. subst result lo hi.
  pose proof (sanitizeNumber_cases input options) as Hc.
  destruct (parseFloat input) as [| |q|]; simpl; split; try discriminate; auto.
  intros _ Hlh. rewrite Hc.
  destruct (negb (default true (allowFloat options)));
    apply clamp_between, Hlh.
Qed.

(** X7.  With [allowFloat] false and a finite number parsed, the result of
    [sanitizeNumber] is an integer, unless it is one of the two bounds. *)
Theorem sanitizeNumber_integer (input : value) (options : NumberOptions) :
  allowFloat options = Some false ->
  isFinite (parseFloat input) = true ->
  let result := sanitizeNumber input options in
  result = default NegInf (min options)
  \/ result = default PosInf (max options)
  \/ isInteger result.
Proof.
  intros Hfl Hfin result. subst result.
  pose proof (sanitizeNumber_cases input options) as Hc.
  destruct (parseFloat input) as [| |q|]; try discriminate.
  rewrite Hc, Hfl. simpl.
  destruct (clamp_choice (default NegInf (min options))
              (default PosInf (max options)) (Fin (inject_Z (Qfloor q))))
    as [->|[->| ->]]; auto.
  right. right. exists (Qfloor q). reflexivity.
Qed.

(** An integer clamp of a whole number: the order of a column. *)
Lemma sanitizeNumber_integerWithin (lo hi : Z) (input : value) :
  lo <= 0 <= hi ->
  integerWithin lo hi
    (sanitizeNumber input
       {| min := Some (ofZ lo); max := Some (ofZ hi);
          defaultValue := Some (ofZ 0); allowFloat := Some false |}).
Proof.
  intros Hlh. set (options := {| min := _ |}).
  pose proof (sanitizeNumber_cases input options) as Hc. simpl in Hc.
  destruct (parseFloat input) as [| |q|];
    try (rewrite Hc; exists 0; split; [reflexivity|lia]).
  rewrite Hc.
  destruct (clamp_between (ofZ lo) (ofZ hi) (inject_Z (Qfloor q))) as [Hlo Hhi].
  { simpl. rewrite <- Zle_Qle. lia. }
  destruct (clamp_choice (ofZ lo) (ofZ hi) (Fin (inject_Z (Qfloor q))))
    as [E|[E|E]]; rewrite E in *.
  - exists lo. split; [reflexivity|lia].
  - exists hi. split; [reflexivity|lia].
  - exists (Qfloor q). split; [reflexivity|].
    simpl in Hlo, Hhi. rewrite <- Zle_Qle in Hlo, Hhi. lia.
Qed.

(** A clamp of a number that may have a fraction: the rating of a task. *)
Lemma sanitizeNumber_finiteWithin (lo hi : Z) (input : value) :
  lo <= 0 <= hi ->
  finiteWithin lo hi
    (sanitizeNumber input
       {| min := Some (ofZ lo); max := Some (ofZ hi);
          defaultValue := Some (ofZ 0); allowFloat := Some true |}).
Proof.
  intros Hlh. set (options := {| min := _ |}).
  pose proof (sanitizeNumber_cases input options) as Hc. simpl in Hc.
  assert (Hzero : finiteWithin lo hi (ofZ 0)).
  { exists (inject_Z 0). rewrite <- !Zle_Qle. split; [reflexivity|lia]. }
  destruct (parseFloat input) as [| |q|]; try (rewrite Hc; exact Hzero).
  rewrite Hc.
  destruct (clamp_between (ofZ lo) (ofZ hi) q) as [Hlo Hhi].
  { simpl. rewrite <- Zle_Qle. lia. }
  destruct (clamp_choice (ofZ lo) (ofZ hi) (Fin q)) as [E|[E|E]];
    rewrite E in *; simpl in Hlo, Hhi; eexists; (split; [reflexivity|]);
    split; assumption.
Qed.

End SanitizeNumberFacts.

(* ===================================================================== *)
(** * sanitizeFilename                                                    *)
(* ===================================================================== *)

Section SanitizeFilenameFacts.
Import Str Sanitize SanitizeMore.

(** Passing over the rest of a match is dropping it. *)
Lemma replaceFrom_skip (re : Regex) (by_ : string) (k : nat) (s : string) :
  replaceFrom re by_ k s = replaceFrom re by_ O (drop k s).
Proof.
  revert k. induction s as [|c s IH]; intros [|k]; try reflexivity.
  simpl. apply IH.
Qed.

Lemma length_drop (k : nat) (s : string) :
  (String.length (drop k s) <= String.length s)%nat.
Proof.
  revert s. induction k as [|k IH]; intros [|c s]; simpl; try lia.
  specialize (IH s). lia.
Qed.

Lemma startsWithDot_after_run (s : string) :
  startsWithDot (drop (spanLength isDot s) s) = false.
Proof.
  induction s as [|c s IH]; [reflexivity|]. simpl.
  destruct (isDot c) eqn:Hc; simpl; [exact IH|exact Hc].
Qed.

Lemma startsWithDot_no_run (s : string) :
  spanLength isDot s = O -> startsWithDot s = false.
Proof.
  destruct s as [|c s]; [reflexivity|]. simpl.
  destruct (isDot c); [discriminate|reflexivity].
Qed.

Lemma startsWithDot_dotRun (t : string) :
  startsWithDot t = false ->
  startsWithDot (replaceFrom dotRun "." O t) = false.
Proof.
  destruct t as [|d r]; [reflexivity|]. simpl. intros Hd.
  unfold dotRun. simpl. rewrite Hd. simpl. exact Hd.
Qed.

(** After the runs of dots are replaced by one dot, no dot follows a dot. *)
Lemma noDoubleDot_dotRun (n : nat) :
  forall s, (String.length s <= n)%nat ->
            noDoubleDot (replaceFrom dotRun "." O s) = true.
Proof.
  induction n as [|n IH]; intros [|c s] Hlen; try reflexivity;
    simpl in Hlen; [lia|].
  assert (Hs : (String.length s <= n)%nat) by lia.
  simpl replaceFrom. unfold dotRun at 1. simpl spanLength.
  destruct (isDot c) eqn:Hc.
  - destruct (spanLength isDot s) as [|m] eqn:Hm; simpl.
    + rewrite Hc, (IH s Hs).
      rewrite startsWithDot_dotRun; [reflexivity|].
      apply startsWithDot_no_run, Hm.
    + rewrite replaceFrom_skip.
      change (EmptyString ++ ?x)%string with x.
      rewrite IH.
      2:{ pose proof (length_drop (S m) s). lia. }
      rewrite startsWithDot_dotRun; [reflexivity|].
      rewrite <- Hm. apply startsWithDot_after_run.
  - simpl. rewrite Hc. simpl. apply IH, Hs.
Qed.

Lemma noDoubleDot_cons (c : ascii) (s : string) :
  noDoubleDot (String c s)
  = negb (isDot c && startsWithDot s) && noDoubleDot s.
Proof. reflexivity. Qed.

Lemma noDoubleDot_tail (c : ascii) (s : string) :
  noDoubleDot (String c s) = true -> noDoubleDot s = true.
Proof. simpl. intros Hs. apply andb_true_iff in Hs as [_ Hs]. exact Hs. Qed.

Lemma noDoubleDot_drop (k : nat) (s : string) :
  noDoubleDot s = true -> noDoubleDot (drop k s) = true.
Proof.
  revert s. induction k as [|k IH]; intros [|c s]; auto.
  intros Hs. simpl drop. apply IH. eapply noDoubleDot_tail, Hs.
Qed.

Lemma noDoubleDot_trimStart (s : string) :
  noDoubleDot s = true -> noDoubleDot (trimStart s) = true.
Proof.
  induction s as [|c s IH]; auto. intros Hs. simpl trimStart.
  destruct (isSpace c); [|exact Hs]. apply IH. eapply noDoubleDot_tail, Hs.
Qed.

Lemma startsWithDot_trimEnd (s : string) :
  startsWithDot (trimEnd s) = true -> startsWithDot s = true.
Proof.
  destruct s as [|c s]; [auto|]. simpl.
  destruct (trimEnd s); [destruct (isSpace c)|]; simpl; auto; discriminate.
Qed.

Lemma noDoubleDot_trimEnd (s : string) :
  noDoubleDot s = true -> noDoubleDot (trimEnd s) = true.
Proof.
  induction s as [|c s IH]; auto. intros Hs.
  pose proof (noDoubleDot_tail _ _ Hs) as Ht. specialize (IH Ht).
  simpl in Hs. apply andb_true_iff in Hs as [Hc _].
  pose proof (startsWithDot_trimEnd s) as Hd.
  simpl trimEnd. destruct (trimEnd s) as [|d r] eqn:Hr.
  - destruct (isSpace c); [reflexivity|]. simpl. rewrite andb_false_r. reflexivity.
  - rewrite noDoubleDot_cons, IH, andb_true_r.
    destruct (isDot c); [|reflexivity].
    destruct (startsWithDot (String d r)) eqn:Hsd; [|reflexivity].
    rewrite (Hd eq_refl) in Hc. discriminate Hc.
Qed.

Lemma startsWithDot_take (n : nat) (s : string) :
  startsWithDot (take n s) = true -> startsWithDot s = true.
Proof. destruct n, s; simpl; auto; discriminate. Qed.

Lemma noDoubleDot_take (n : nat) (s : string) :
  noDoubleDot s = true -> noDoubleDot (take n s) = true.
Proof.
  revert s. induction n as [|n IH]; intros [|c s]; auto. intros Hs.
  pose proof (noDoubleDot_tail _ _ Hs) as Ht.
  simpl in Hs. apply andb_true_iff in Hs as [Hc _].
  simpl take. rewrite noDoubleDot_cons, (IH s Ht), andb_true_r.
  destruct (isDot c); [|reflexivity].
  destruct (startsWithDot (take n s)) eqn:Hsd; [|reflexivity].
  rewrite (startsWithDot_take _ _ Hsd) in Hc. discriminate Hc.
Qed.

Lemma noDoubleDot_spec (s : string) :
  noDoubleDot s = true -> ~ isSubstringOf ".." s.
Proof.
  intros Hs (pre & suf & ->). induction pre as [|c pre IH].
  - discriminate Hs.
  - apply IH. eapply noDoubleDot_tail, Hs.
Qed.

(** X8.  For every file name that is a string and every [maxLength],
    [sanitizeFilename] returns a name that is not empty, has none of the
    characters slash, backslash, colon, star, question mark, double quote,
    less-than, greater-than and bar, and has no two dots in a row. *)
Theorem sanitizeFilename_safe (filename : string) (maxLength : option Z) :
  let result := sanitizeFilename (VStr filename) maxLength in
  result <> EmptyString
  /\ allChars (fun c => negb (isPathChar c)) result = true
  /\ ~ isSubstringOf ".." result.
Proof.
  intros result. subst result. unfold sanitizeFilename.
  set (replaced := replaceAll dotRun "." _).
  set (cut := take _ _).
  assert (Hsafe : allChars (fun c => negb (isPathChar c)) cut = true).
  { subst cut. apply allChars_take, allChars_trim, allChars_drop.
    subst replaced. unfold replaceAll.
    apply allChars_replaceFrom; [reflexivity|].
    apply allChars_replace_class. reflexivity. }
  assert (Hdots : noDoubleDot cut = true).
  { subst cut. apply noDoubleDot_take. unfold trim.
    apply noDoubleDot_trimEnd, noDoubleDot_trimStart, noDoubleDot_drop.
    subst replaced. unfold replaceAll. eapply noDoubleDot_dotRun. reflexivity. }
  destruct (String.eqb_spec cut EmptyString) as [_|Hne].
  - split; [discriminate|]. split; [reflexivity|].
    apply noDoubleDot_spec. reflexivity.
  - split; [exact Hne|]. split; [exact Hsafe|].
    apply noDoubleDot_spec, Hdots.
Qed.

End SanitizeFilenameFacts.

(* ===================================================================== *)
(** * sanitizeTaskData, sanitizeColumnData, sanitizeLabelData             *)
(* ===================================================================== *)

Section SanitizeRecordsFacts.
Import Str Sanitize SanitizeMore.
Context `{Host}.

Lemma stripped_harmless (options : InputOptions) (s : string) :
  default false (allowHTML options) = false ->
  allChars harmless (stripped options s) = true.
Proof.
  intros Hhtml. unfold stripped. rewrite Hhtml. simpl negb. cbv iota.
  apply allChars_trim.
  assert (Hclean : allChars harmless
            (replaceAll eventHandler EmptyString
               (replaceAll (literalCI "javascript:") EmptyString
                  (replaceAll (charClass isDangerous) EmptyString
                     (replaceAll htmlTag EmptyString
                        (replaceAll (charClass isControl) EmptyString s)))))
            = true).
  { unfold replaceAll.
    apply allChars_replaceFrom; [reflexivity|].
    apply allChars_replaceFrom; [reflexivity|].
    apply allChars_delete_class. }
  destruct (negb (default true (preserveNewlines options))); [|exact Hclean].
  apply allChars_replaceFrom; [reflexivity|exact Hclean].
Qed.

(** With a limit that is not negative and [allowHTML] false, the result of
    [sanitizeInput] is a clean text within the limit. *)
Lemma sanitizeInput_cleanText (input : value) (n : Z) (nl : option bool) :
  0 <= n ->
  cleanText (Z.to_nat n) (sanitizeInput input (opts n (Some false) nl)).
Proof.
  intros Hn. split.
  - destruct input as [| |b|x|s|l]; try (simpl; lia).
    rewrite sanitizeInput_string. simpl default.
    destruct (Z.gtb_spec (Z.of_nat (String.length
                (stripped (opts n (Some false) nl) s))) n).
    + apply length_take.
    + lia.
  - apply cut_keeps. intros s _. apply stripped_harmless. reflexivity.
Qed.

Lemma sanitizeInput_one_line (input : value) (n : Z) (html : option bool) :
  allChars (fun c => negb (isNewline c))
    (sanitizeInput input (opts n html (Some false))) = true.
Proof.
  apply cut_keeps. intros s _. unfold stripped. simpl preserveNewlines.
  simpl default. simpl negb. cbv iota.
  apply allChars_trim. apply allChars_replace_class. reflexivity.
Qed.

Lemma In_firstn_In {A} (n : nat) (l : list A) (x : A) :
  In x (firstn n l) -> In x l.
Proof.
  revert l. induction n as [|n IH]; intros [|y l]; simpl; try tauto.
  intros [->|Hx]; auto.
Qed.

Lemma memberOf_spec (allowed : list string) (v : value) (s : string) :
  memberOf allowed v = Some s -> v = VStr s /\ In s allowed.
Proof.
  destruct v as [| |b|n|x|l]; simpl; try discriminate.
  destruct (existsb (String.eqb x) allowed) eqn:Hex; [|discriminate].
  intros [= <-]. split; [reflexivity|].
  apply existsb_exists in Hex as (y & Hy & Heq).
  apply String.eqb_eq in Heq. subst y. exact Hy.
Qed.

Lemma sanitizeTaskData_title (taskData : option RawTaskData) (t : string) :
  s_title (sanitizeTaskData taskData) = Some t -> cleanText 200 t.
Proof.
  destruct taskData as [raw|]; simpl; [|discriminate].
  destruct (truthy (raw_title raw)); [|discriminate].
  intros [= <-]. apply (sanitizeInput_cleanText _ 200). lia.
Qed.

Lemma sanitizeTaskData_labels (taskData : option RawTaskData) :
  (length (default [] (s_labels (sanitizeTaskData taskData))) <= 10)%nat.
Proof.
  destruct taskData as [raw|]; simpl; [|lia].
  destruct (raw_labels raw); simpl; try lia.
  rewrite length_firstn. lia.
Qed.

(** X9.  Whatever the raw task object, every key [sanitizeTaskData] returns
    is well-formed: the title has at most 200 characters, none dangerous, on
    one line; the details have at most 2000 characters, none dangerous; the
    priority is one of the four of the enum; the rating is a finite number
    from 0 to 10; there are at most 10 labels, each not empty, of at most 50
    characters, none dangerous; the status is active, completed or archived
    (never the empty string, although the list of allowed statuses has
    it). *)
Theorem sanitizeTaskData_well_formed (taskData : option RawTaskData) :
  let out := sanitizeTaskData taskData in
  (forall t, s_title out = Some t ->
     cleanText 200 t /\ allChars (fun c => negb (isNewline c)) t = true)
  /\ (forall d, s_details out = Some d -> cleanText 2000 d)
  /\ (forall p, s_priority out = Some p -> In p allowedPriorities)
  /\ (forall r, s_rating out = Some r -> finiteWithin 0 10 r)
  /\ (forall ls, s_labels out = Some ls ->
        (length ls <= 10)%nat
        /\ forall l, In l ls -> l <> EmptyString /\ cleanText 50 l)
  /\ (forall st, s_status out = Some st ->
        In st ["active"; "completed"; "archived"]).
Proof.
  destruct taskData as [raw|]; simpl;
    [|repeat split; intros; discriminate].
  split; [|split; [|split; [|split; [|split]]]].
  - intros t Ht. destruct (truthy (raw_title raw)); [|discriminate].
    injection Ht as <-. split.
    + apply (sanitizeInput_cleanText _ 200). lia.
    + apply sanitizeInput_one_line.
  - intros d Hd. destruct (truthy (raw_details raw)); [|discriminate].
    injection Hd as <-. apply (sanitizeInput_cleanText _ 2000). lia.
  - intros p Hp. destruct (truthy (raw_priority raw)); [|discriminate].
    apply memberOf_spec in Hp as [_ Hp]. exact Hp.
  - intros r Hr.
    assert (Hfin : finiteWithin 0 10
              (sanitizeNumber (raw_rating raw)
                 {| min := Some (ofZ 0); max := Some (ofZ 10);
                    defaultValue := Some (ofZ 0); allowFloat := Some true |}))
      by (apply sanitizeNumber_finiteWithin; lia).
    destruct (raw_rating raw); try discriminate; injection Hr as <-; exact Hfin.
  - intros ls Hls. destruct (raw_labels raw) as [| | | | |labels];
      try discriminate.
    injection Hls as <-. split.
    + rewrite length_firstn. lia.
    + intros l Hl. apply In_firstn_In in Hl.
      apply filter_In in Hl as [Hl Hne]. apply in_map_iff in Hl as (x & <- & _).
      split.
      * intros He. rewrite He in Hne. discriminate Hne.
      * apply (sanitizeInput_cleanText _ 50). lia.
  - intros st Hst. destruct (truthy (raw_status raw)) eqn:Ht; [|discriminate].
    apply memberOf_spec in Hst as [Hv Hin]. rewrite Hv in Ht.
    destruct Hin as [<-|Hin]; [discriminate Ht|exact Hin].
Qed.

(** X10.  Whatever the raw column object, the title [sanitizeColumnData]
    returns has at most 100 characters, none dangerous, on one line, and the
    order it returns is an integer from 0 to 1000. *)
Theorem sanitizeColumnData_well_formed (columnData : option RawColumnData) :
  let out := sanitizeColumnData columnData in
  (forall t, sc_title out = Some t ->
     cleanText 100 t /\ allChars (fun c => negb (isNewline c)) t = true)
  /\ (forall n, sc_order out = Some n -> integerWithin 0 1000 n).
Proof.
  destruct columnData as [raw|]; simpl; [|split; intros; discriminate].
  split.
  - intros t Ht. destruct (truthy (rawc_title raw)); [|discriminate].
    injection Ht as <-. split.
    + apply (sanitizeInput_cleanText _ 100). lia.
    + apply sanitizeInput_one_line.
  - intros n Hn.
    assert (Hint : integerWithin 0 1000
              (sanitizeNumber (rawc_order raw)
                 {| min := Some (ofZ 0); max := Some (ofZ 1000);
                    defaultValue := Some (ofZ 0); allowFloat := Some false |}))
      by (apply sanitizeNumber_integerWithin; lia).
    destruct (rawc_order raw); try discriminate; injection Hn as <-; exact Hint.
Qed.

Lemma hex_inert (c : ascii) : isHex c || isChar 35 c = true -> inert c = true.
Proof. destruct c as [[] [] [] [] [] [] [] []]; vm_compute; congruence. Qed.

Lemma colorRegex_inert (s : string) :
  colorRegex_test s = true ->
  allChars inert s = true /\ (String.length s <= 7)%nat /\ s <> EmptyString.
Proof.
  destruct s as [|c digits]; [discriminate|]. simpl. intros Ht.
  rewrite !andb_true_iff, orb_true_iff, !Nat.eqb_eq in Ht.
  destruct Ht as [[Hc Hd] Hlen]. split; [|split; [lia|discriminate]].
  rewrite hex_inert by (rewrite Hc; apply orb_true_r). simpl.
  eapply allChars_impl; [|exact Hd].
  intros x Hx. apply hex_inert. rewrite Hx. reflexivity.
Qed.

(** X11.  The color [sanitizeLabelData] returns is always a hex color (a
    hash sign and three or six hex digits), the name it returns has at most
    50 characters, none dangerous; and a hex color that comes in is returned
    as it is. *)
Theorem sanitizeLabelData_color (name : value) :
  (forall labelData c,
      sl_color (sanitizeLabelData labelData) = Some c ->
      colorRegex_test c = true)
  /\ (forall labelData n,
        sl_name (sanitizeLabelData labelData) = Some n -> cleanText 50 n)
  /\ (forall c,
        colorRegex_test c = true ->
        sl_color (sanitizeLabelData
                    (Some {| rawl_name := name; rawl_color := VStr c |}))
        = Some c).
Proof.
  split; [|split].
  - intros [raw|] c; simpl; [|discriminate].
    destruct (truthy (rawl_color raw)); [|discriminate].
    destruct (colorRegex_test _) eqn:Ht; [|discriminate].
    intros [= <-]. exact Ht.
  - intros [raw|] n; simpl; [|discriminate].
    destruct (truthy (rawl_name raw)); [|discriminate].
    intros [= <-]. apply (sanitizeInput_cleanText _ 50). lia.
  - intros c Hc. destruct (colorRegex_inert c Hc) as (Hin & Hlen & Hne).
    change (sl_color (sanitizeLabelData
                        (Some {| rawl_name := name; rawl_color := VStr c |})))
      with (if truthy (VStr c)
            then if colorRegex_test
                      (sanitizeInput (VStr c) (opts 7 (Some false) None))
                 then Some (sanitizeInput (VStr c) (opts 7 (Some false) None))
                 else None
            else None).
    rewrite sanitizeInput_inert_plain by (simpl; try assumption; lia).
    rewrite Hc. simpl. apply String.eqb_neq in Hne. rewrite Hne. reflexivity.
Qed.

End SanitizeRecordsFacts.

(* ===================================================================== *)
(** * The modal and the construction of a task                            *)
(* ===================================================================== *)

Section NewTaskFacts.
Import Str Sanitize Board.
Context `{Host}.

(** A rating the form lets through is kept by the clamp of [handleSubmit]. *)
Lemma accepted_rating (r : number) :
  isNaN r || ltNum r (ofZ 0) || ltNum (ofZ 10) r = false ->
  Math_min (Math_max r (ofZ 0)) (ofZ 10) = r /\ finiteWithin 0 10 r.
Proof.
  destruct r as [| |q|]; simpl; try discriminate.
  intros Hr. apply orb_false_iff in Hr as [H0 H10].
  apply negb_false_iff in H0, H10. rewrite H0. simpl. rewrite H10.
  split; [reflexivity|]. exists q. split; [reflexivity|].
  split; apply Qle_bool_iff; assumption.
Qed.

(** X12.  What [handleSubmit] of the modal passes on is well-formed: the
    column is the one of the modal; the title is the sanitized title, not
    empty, of at most 200 characters, none dangerous; the priority is the
    one of the form, not empty; the rating is the number parsed from the
    form, finite and from 0 to 10; starred is false; there are at most 10
    labels; no id is given.  A form that fails one of these is not
    submitted. *)
Theorem handleSubmit_well_formed (columnId : string) (formData : FormData)
    (c : string) (taskData : TaskData) :
  handleSubmit columnId formData = Some (c, taskData) ->
  c = columnId
  /\ (exists t, td_title taskData = Some t /\ t <> EmptyString
                /\ cleanText 200 t)
  /\ td_priority taskData = Some (fd_priority formData)
  /\ fd_priority formData <> EmptyString
  /\ td_rating taskData = Some (parseFloat (VStr (fd_rating formData)))
  /\ finiteWithin 0 10 (parseFloat (VStr (fd_rating formData)))
  /\ td_starred taskData = Some false
  /\ (exists ls, td_labels taskData = Some ls /\ (length ls <= 10)%nat)
  /\ td_id taskData = None.
Proof.
  unfold handleSubmit, validateForm.
  set (sanitizedData := sanitizeTaskData (Some (rawOfForm formData))).
  assert (Htitles : forall t, s_title sanitizedData = Some t -> cleanText 200 t)
    by (intros t; apply sanitizeTaskData_title).
  assert (Hlabels : (length (default [] (s_labels sanitizedData)) <= 10)%nat)
    by apply sanitizeTaskData_labels.
  clearbody sanitizedData. cbv beta iota zeta.
  match goal with
  | |- (if negb ?b then _ else _) = _ -> _ => destruct b eqn:Hvalid
  end; cbn [negb]; cbv iota; [|discriminate].
  intros Heq. injection Heq as Hc Htd. subst c taskData.
  apply andb_true_iff in Hvalid as [Hvalid Hrating].
  apply andb_true_iff in Hvalid as [Htitle Hprio].
  apply andb_true_iff in Hrating as [_ Hrating].
  apply negb_true_iff in Hrating.
  destruct (accepted_rating _ Hrating) as [Hkeep Hfin].
  apply negb_true_iff, String.eqb_neq in Hprio.
  cbn [td_title td_priority td_rating td_starred td_labels td_id].
  split; [reflexivity|].
  split.
  { destruct (s_title sanitizedData) as [t|] eqn:Ht; [|discriminate].
    exists t. split; [reflexivity|].
    apply andb_true_iff in Htitle as [Htitle _].
    apply andb_true_iff in Htitle as [Hne _].
    apply negb_true_iff, String.eqb_neq in Hne. split; [exact Hne|].
    apply Htitles. reflexivity. }
  split; [reflexivity|]. split; [exact Hprio|].
  split; [apply f_equal; exact Hkeep|]. split; [exact Hfin|].
  split; [reflexivity|]. split; [|reflexivity].
  eexists. split; [reflexivity|exact Hlabels].
Qed.

(** X13.  When [taskData] brings no priorityColor, the color of the new task
    is the color of its priority: [getPriorityColor] of the priority the
    task ends up with, also when the priority of [taskData] is empty or not
    of the enum. *)
Theorem addNewTask_color_of_priority (columnId : string) (taskData : TaskData)
    (random : Q) (now : string) :
  td_priorityColor taskData = None ->
  let newTask := (addNewTask columnId taskData random now).2 in
  priorityColor newTask = getPriorityColor (priority newTask).
Proof.
  intros Hc. simpl. rewrite Hc. simpl.
  destruct (td_priority taskData) as [p|]; simpl; [|reflexivity].
  destruct (String.eqb_spec p EmptyString) as [->|Hne]; reflexivity.
Qed.

(** X14.  In the new task every key of [taskData] wins, a falsy value
    included (an empty title stays empty, a rating 0 stays 0); a default
    shows exactly when the key is absent: title New Task, details empty, no
    labels, priority Medium, rating 8.8, not starred, status and dueDate
    empty, createdAt now, id generated. *)
Theorem addNewTask_keys_win (columnId : string) (taskData : TaskData)
    (random : Q) (now : string) :
  let newTask := (addNewTask columnId taskData random now).2 in
  (addNewTask columnId taskData random now).1 = columnId
  /\ id newTask = default (generateId random) (td_id taskData)
  /\ title newTask = default "New Task" (td_title taskData)
  /\ details newTask = default EmptyString (td_details taskData)
  /\ labels newTask = Some (default [] (td_labels taskData))
  /\ priority newTask = default "Medium" (td_priority taskData)
  /\ rating newTask = Some (default (Fin 8.8) (td_rating taskData))
  /\ starred newTask = default false (td_starred taskData)
  /\ status newTask = default EmptyString (td_status taskData)
  /\ createdAt newTask = default now (td_createdAt taskData)
  /\ dueDate newTask = default EmptyString (td_dueDate taskData).
Proof.
  simpl.
  destruct (td_id taskData), (td_title taskData), (td_details taskData),
    (td_labels taskData), (td_priority taskData), (td_rating taskData),
    (td_starred taskData), (td_status taskData), (td_createdAt taskData),
    (td_dueDate taskData); simpl; repeat split.
Qed.

End NewTaskFacts.

(* ===================================================================== *)
(** * More on the projector                                               *)
(* ===================================================================== *)

Section ProjectorMore.
Import Str Sanitize Board Projector.
Context `{Host} {engine : Engine}.

Lemma filter_nothing (p : Task -> bool) (l : list Task) :
  (forall t, p t = false) -> List.filter p l = [].
Proof.
  intros Hp. induction l as [|t l IH]; simpl; [reflexivity|].
  rewrite Hp. exact IH.
Qed.

Lemma hasSomeLabel_nil (t : Task) : hasSomeLabel [] t = false.
Proof. unfold hasSomeLabel. destruct (labels t); reflexivity. Qed.

Lemma priorityStage_nil (filters : Filters) :
  applyStage (priorityStage filters) [] = [].
Proof.
  unfold priorityStage. destruct (fpriority filters) as [p|]; [|reflexivity].
  destruct (nonEmpty p); reflexivity.
Qed.

Lemma sortStage_nil (filters : Filters) : sortStage filters [] = [].
Proof.
  unfold sortStage. destruct (comparatorOf (sort filters)) as [cmp|];
    [|reflexivity].
  apply Permutation_nil. symmetry. apply Array_sort_perm.
Qed.

(** X15.  A label filter that is an empty array hides every task of every
    column (the array is truthy, and no id of it can match); and under a
    label filter that is an array, a task whose labels are missing never
    shows. *)
Theorem empty_label_array_hides_all (filters : Filters)
    (columnTasks : list Task) :
  (label filters = ManyLabels [] -> processColumn filters columnTasks = [])
  /\ (forall labelIds t,
        label filters = ManyLabels labelIds ->
        In t (processColumn filters columnTasks) -> labels t <> None).
Proof.
  split.
  - intros Hl. unfold processColumn, filterColumn, labelStage. rewrite Hl.
    simpl applyStage at 2.
    rewrite (filter_nothing _ _ hasSomeLabel_nil), priorityStage_nil.
    apply sortStage_nil.
  - intros labelIds t Hl Hin Hnone.
    apply processColumn_In in Hin.
    unfold filterColumn, labelStage in Hin. rewrite Hl in Hin.
    assert (Hin' : In t (List.filter (hasSomeLabel labelIds)
                           (applyStage (searchStage filters) columnTasks))).
    { unfold priorityStage in Hin.
      destruct (fpriority filters) as [p|]; [|exact Hin].
      destruct (nonEmpty p); [|exact Hin].
      simpl in Hin. apply filter_In in Hin. tauto. }
    apply filter_In in Hin' as [_ Hhas].
    unfold hasSomeLabel in Hhas. rewrite Hnone in Hhas. discriminate Hhas.
Qed.

Lemma filter_sublist (p : Task -> bool) (l : list Task) :
  sublist (List.filter p l) l.
Proof.
  induction l as [|t l IH]; simpl; [constructor|].
  destruct (p t); [apply sublist_skip|apply sublist_cons]; exact IH.
Qed.

Lemma applyStage_sublist (stage : option (list Task -> list Task))
    (l : list Task) :
  (stage = None \/ exists p, stage = Some (List.filter p)) ->
  sublist (applyStage stage l) l.
Proof.
  intros [->|[p ->]]; simpl; [reflexivity|apply filter_sublist].
Qed.

Lemma filterColumn_sublist (filters : Filters) (l : list Task) :
  sublist (filterColumn filters l) l.
Proof.
  unfold filterColumn.
  transitivity (applyStage (labelStage filters)
                  (applyStage (searchStage filters) l));
    [|transitivity (applyStage (searchStage filters) l)];
    apply applyStage_sublist.
  - unfold priorityStage. destruct (fpriority filters) as [p|]; [|auto].
    destruct (nonEmpty p); eauto.
  - unfold labelStage, filterTasksByLabel.
    destruct (label filters) as [|labelId|ids]; [auto| |eauto].
    destruct (nonEmpty labelId); [|auto].
    right. exists (hasLabel labelId). reflexivity.
  - unfold searchStage. destruct (nonEmpty (search filters)); eauto.
Qed.

(** X16.  The projection of a column shows stored tasks only, each at most
    as often as it is stored: it is a rearrangement of a list got from the
    stored list by leaving tasks out; with a sort key outside the enum
    nothing is rearranged, the tasks that pass keep the stored order. *)
Theorem projection_is_rearranged_sublist (filters : Filters)
    (columnTasks : list Task) :
  Permutation (processColumn filters columnTasks)
    (filterColumn filters columnTasks)
  /\ sublist (filterColumn filters columnTasks) columnTasks
  /\ (length (processColumn filters columnTasks) <= length columnTasks)%nat
  /\ (comparatorOf (sort filters) = None ->
      processColumn filters columnTasks = filterColumn filters columnTasks).
Proof.
  pose proof (sortStage_perm filters (filterColumn filters columnTasks)) as Hp.
  pose proof (filterColumn_sublist filters columnTasks) as Hs.
  split; [exact Hp|]. split; [exact Hs|]. split.
  - unfold processColumn. rewrite (Permutation_length Hp).
    apply sublist_length, Hs.
  - intros Hnone. unfold processColumn, sortStage. rewrite Hnone. reflexivity.
Qed.

(** X17.  When the createdAt of every task of the column parses as a date,
    the projected list holds the tasks that pass the filters, the sort key
    date leaves them newest first and the sort key date-asc oldest first. *)
Theorem date_sort_orders_by_time (filters : Filters)
    (columnTasks : list Task) :
  (forall t, In t columnTasks -> is_Some (Date_parse (createdAt t))) ->
  Permutation (processColumn filters columnTasks)
    (filterColumn filters columnTasks)
  /\ (sort filters = "date" ->
     StronglySorted (fun a b => createdTime a >= createdTime b)
       (processColumn filters columnTasks))
  /\ (sort filters = "date-asc" ->
     StronglySorted (fun a b => createdTime a <= createdTime b)
       (processColumn filters columnTasks)).
Proof.
  intros Hvalid.
  assert (Hkept : forall t, In t (filterColumn filters columnTasks) ->
                            dateValue (createdAt t) = ofZ (createdTime t)).
  { intros t Ht. apply filterColumn_incl in Ht.
    destruct (Hvalid t Ht) as [ms Hms].
    unfold dateValue, createdTime. rewrite Hms. reflexivity. }
  destruct (difference_consistent (fun t => dateValue (createdAt t))
              (filterColumn filters columnTasks)) as [Hdown Hup].
  { intros t Ht. rewrite (Hkept t Ht). reflexivity. }
  split; [apply sortStage_perm|].
  split; intros Hsort; unfold processColumn, sortStage; rewrite Hsort.
  - change (comparatorOf "date") with
      (Some (fun a b : Task =>
               sub (dateValue (createdAt b)) (dateValue (createdAt a)))).
    cbv beta iota. rewrite (Array_sort_consistent _ _ Hdown).
    apply StronglySorted_impl
      with (R := fun a b => - createdTime a <= - createdTime b);
      [intros a b; lia|].
    apply stableSort_sorted. intros a b Ha Hb. unfold goesAfter.
    rewrite (Hkept a Ha), (Hkept b Hb), positive_difference.
    destruct (Z.ltb_spec (createdTime a) (createdTime b));
      destruct (Z.ltb_spec (- createdTime b) (- createdTime a));
      lia || reflexivity.
  - change (comparatorOf "date-asc") with
      (Some (fun a b : Task =>
               sub (dateValue (createdAt a)) (dateValue (createdAt b)))).
    cbv beta iota. rewrite (Array_sort_consistent _ _ Hup).
    apply stableSort_sorted. intros a b Ha Hb. unfold goesAfter.
    rewrite (Hkept a Ha), (Hkept b Hb), positive_difference. reflexivity.
Qed.

(** Insertion keeps a list sorted by an order the comparator agrees with. *)
Lemma insertSorted_sorted_by (le : Task -> Task -> Prop) (cmp : Comparator)
    (x : Task) (l : list Task) :
  (forall a b c, le a b -> le b c -> le a c) ->
  (forall y, In y l -> if goesAfter cmp x y then le y x else le x y) ->
  StronglySorted le l -> StronglySorted le (insertSorted cmp x l).
Proof.
  intros Htrans Hcmp Hs. induction Hs as [|y l Hs IH Hall]; simpl.
  - repeat constructor.
  - pose proof (Hcmp y (or_introl eq_refl)) as Hxy.
    destruct (goesAfter cmp x y).
    + constructor.
      * apply IH. intros z Hz. apply Hcmp. right. exact Hz.
      * apply List.Forall_forall. intros z Hz.
        apply (Permutation_in z (insertSorted_perm cmp x l)) in Hz.
        destruct Hz as [<-|Hz]; [exact Hxy|].
        rewrite List.Forall_forall in Hall. apply Hall, Hz.
    + constructor; [constructor; assumption|].
      constructor; [exact Hxy|].
      apply List.Forall_forall. intros z Hz.
      rewrite List.Forall_forall in Hall. eapply Htrans; [exact Hxy|].
      apply Hall, Hz.
Qed.

Lemma stableSort_sorted_by (le : Task -> Task -> Prop) (cmp : Comparator)
    (l : list Task) :
  (forall a b c, le a b -> le b c -> le a c) ->
  (forall a b, if goesAfter cmp a b then le b a else le a b) ->
  StronglySorted le (stableSort cmp l).
Proof.
  intros Htrans Hcmp. induction l as [|x l IH]; simpl; [constructor|].
  apply insertSorted_sorted_by;
    [exact Htrans | intros y _; apply Hcmp | exact IH].
Qed.

Lemma leNum_trans (a b c : number) : leNum a b -> leNum b c -> leNum a c.
Proof.
  destruct a as [| |p|], b as [| |q|], c as [| |r|]; simpl; try tauto.
  apply Qle_trans.
Qed.

Lemma Qminus_nonpositive (p q : Q) : (q - p <= 0)%Q <-> (q <= p)%Q.
Proof.
  destruct p as [pn pd], q as [qn qd].
  unfold Qle, Qminus, Qplus, Qopp. simpl. lia.
Qed.

(** The difference decides the order of two numbers that are not NaN. *)
Lemma difference_orders (x y : number) :
  isNaN x = false -> isNaN y = false ->
  if ltNum (ofZ 0) (sub y x) then leNum x y else leNum y x.
Proof.
  destruct x as [| |p|], y as [| |q|]; simpl; try discriminate; auto.
  intros _ _. change (inject_Z 0) with 0%Q.
  destruct (Qle_bool (q - p) 0) eqn:E; simpl.
  - apply Qle_bool_iff in E. exact (proj1 (Qminus_nonpositive p q) E).
  - apply Qlt_le_weak, Qnot_le_lt.
    intros Hqp. apply (proj2 (Qminus_nonpositive p q)) in Hqp.
    apply Qle_bool_iff in Hqp. congruence.
Qed.

(** X18.  For every column, the sort key rating leaves the tasks in
    descending order of the rating and the sort key rating-asc in ascending
    order, a rating that is missing, zero or NaN counting as 0. *)
Theorem rating_sort_orders_by_rating (filters : Filters)
    (columnTasks : list Task) :
  (sort filters = "rating" ->
     StronglySorted (fun a b => leNum (ratingOrZero b) (ratingOrZero a))
       (processColumn filters columnTasks))
  /\ (sort filters = "rating-asc" ->
     StronglySorted (fun a b => leNum (ratingOrZero a) (ratingOrZero b))
       (processColumn filters columnTasks)).
Proof.
  destruct (difference_consistent ratingOrZero
              (filterColumn filters columnTasks)) as [Hdown Hup].
  { intros t _. apply ratingOrZero_is_number. }
  split; intros Hsort; unfold processColumn, sortStage; rewrite Hsort.
  - change (comparatorOf "rating") with
      (Some (fun a b : Task => sub (ratingOrZero b) (ratingOrZero a))).
    cbv beta iota. rewrite (Array_sort_consistent _ _ Hdown).
    apply stableSort_sorted_by.
    + intros a b c Hab Hbc. eapply leNum_trans; eassumption.
    + intros a b. unfold goesAfter.
      apply difference_orders; apply ratingOrZero_is_number.
  - change (comparatorOf "rating-asc") with
      (Some (fun a b : Task => sub (ratingOrZero a) (ratingOrZero b))).
    cbv beta iota. rewrite (Array_sort_consistent _ _ Hup).
    apply stableSort_sorted_by.
    + intros a b c Hab Hbc. eapply leNum_trans; eassumption.
    + intros a b. unfold goesAfter.
      apply difference_orders; apply ratingOrZero_is_number.
Qed.

End ProjectorMore.

(* ===================================================================== *)
(** * More on the thunks                                                  *)
(* ===================================================================== *)

Section AuthMore.
Import Str Sanitize Board Auth.
Context `{Persist}.

(** What a fulfilled signup did. *)
Lemma signup_fulfilled (email_ password_ : value) (nowMs : Z) (nowIso : string)
    (w w1 : World) (u : UserInfo) :
  signup email_ password_ nowMs nowIso w = (w1, Fulfilled u) ->
  let sanitizedEmail := sanitizeEmail email_ in
  let sanitizedPassword := sanitizeInput password_ passwordOptions in
  let newUser := {| user_id := nowMs; email := sanitizedEmail;
                    password := sanitizedPassword; user_createdAt := nowIso |} in
  exists users,
    getRegisteredUsers (localStorage w) = Some users
    /\ List.find (fun x => String.eqb (email x) sanitizedEmail) users = None
    /\ isEmpty sanitizedEmail = false
    /\ isEmpty sanitizedPassword = false
    /\ (6 <= String.length sanitizedPassword <= 50)%nat
    /\ w1 = {| store := store w;
               localStorage :=
                 saveRegisteredUsers (users ++ [newUser]) (localStorage w) |}
    /\ u = {| info_email := sanitizedEmail; info_id := nowMs |}.
Proof.
  unfold signup. intros Hs.
  destruct (isEmpty (sanitizeEmail email_)) eqn:He; [discriminate|].
  destruct (isEmpty (sanitizeInput password_ passwordOptions)) eqn:Hp;
    [discriminate|].
  simpl in Hs.
  destruct (String.length (sanitizeInput password_ passwordOptions) <? 6)%nat
    eqn:H6; [discriminate|].
  destruct (50 <? String.length (sanitizeInput password_ passwordOptions))%nat
    eqn:H50; [discriminate|].
  destruct (getRegisteredUsers (localStorage w)) as [users|]; [|discriminate].
  destruct (List.find _ users) eqn:Hf; [discriminate|].
  injection Hs as <- <-. exists users.
  apply Nat.ltb_ge in H6, H50. repeat split; auto.
Qed.

Lemma find_app_last (f : User -> bool) (users : list User) (x : User) :
  List.find f users = None -> f x = true ->
  List.find f (users ++ [x]) = Some x.
Proof.
  intros Hn Hx. induction users as [|y users IH]; simpl in *.
  - rewrite Hx. reflexivity.
  - destruct (f y); [discriminate|]. auto.
Qed.

(** The users read back after a write that went through. *)
Lemma saved_users_read_back (users : list User) (ls : Storage) :
  full ls = false ->
  getRegisteredUsers (saveRegisteredUsers users ls) = Some users.
Proof. intros Hfull. unfold saveRegisteredUsers. rewrite Hfull. reflexivity. Qed.

(** X19.  After a fulfilled signup whose write to localStorage went through,
    a login with the same email and password finds the user and passes
    every check, whatever the store has become in between: it is fulfilled
    with the same user data, or it ends with the internal failure, never
    with one of the four messages of the checks.  When the write failed
    (the storage is full), the signup is fulfilled all the same and the
    login is rejected: the user is not registered. *)
Theorem signup_then_login (email_ password_ : value) (nowMs : Z)
    (nowIso : string) (w w1 : World) (u : UserInfo) :
  signup email_ password_ nowMs nowIso w = (w1, Fulfilled u) ->
  (full (localStorage w) = false ->
   forall s w2 out,
     login email_ password_ {| store := s; localStorage := localStorage w1 |}
     = (w2, out) ->
     out = Fulfilled u \/ out = Rejected loginFailed)
  /\ (full (localStorage w) = true ->
      forall s w2 out,
        login email_ password_ {| store := s; localStorage := localStorage w1 |}
        = (w2, out) ->
        out = Rejected "User not registered. Please sign up first.").
Proof.
  intros Hs.
  destruct (signup_fulfilled _ _ _ _ _ _ _ Hs)
    as (users & Hget & Hfind & He & Hp & [H6 _] & -> & ->).
  assert (Hlen : (String.length (sanitizeInput password_ passwordOptions) <? 1)%nat
                 = false) by (apply Nat.ltb_ge; lia).
  split; intros Hfull s w2 out Hl; unfold login in Hl;
    rewrite He, Hp, Hlen in Hl; cbn [orb store localStorage] in Hl.
  - rewrite (saved_users_read_back _ _ Hfull) in Hl.
    rewrite (find_app_last _ _ _ Hfind) in Hl
      by (simpl; apply String.eqb_refl).
    cbn [password email user_id] in Hl. rewrite String.eqb_refl in Hl.
    cbn [negb] in Hl.
    repeat match type of Hl with
           | context [match ?x with _ => _ end] => destruct x
           end;
      injection Hl as <- <-; auto.
  - unfold saveRegisteredUsers in Hl. rewrite Hfull, Hget, Hfind in Hl.
    injection Hl as <- <-. reflexivity.
Qed.

(** X20.  The signup thunk, when fulfilled, leaves the board as it is and
    returns the sanitized email with the id; the email was the one of no
    registered user and the sanitized password has 6 to 50 characters.
    When the write to localStorage goes through, exactly one user is put at
    the end of the registered list (a stored list that does not parse
    counts as empty and is replaced), and any later signup with the same
    email is rejected and changes nothing; when the write fails, the
    storage is as it was. *)
Theorem signup_registers_once (email_ password_ : value) (nowMs : Z)
    (nowIso : string) (w w1 : World) (u : UserInfo) :
  signup email_ password_ nowMs nowIso w = (w1, Fulfilled u) ->
  let newUser := {| user_id := nowMs; email := sanitizeEmail email_;
                    password := sanitizeInput password_ passwordOptions;
                    user_createdAt := nowIso |} in
  kanban (store w1) = kanban (store w)
  /\ u = {| info_email := sanitizeEmail email_; info_id := nowMs |}
  /\ (6 <= String.length (password newUser) <= 50)%nat
  /\ (exists users,
        getRegisteredUsers (localStorage w) = Some users
        /\ (forall x, In x users -> email x <> sanitizeEmail email_)
        /\ (full (localStorage w) = false ->
            registeredUsers (localStorage w1) = UserList (users ++ [newUser])))
  /\ (full (localStorage w) = false ->
      registeredUsers (localStorage w) = Unparsable ->
      registeredUsers (localStorage w1) = UserList [newUser])
  /\ (full (localStorage w) = true -> localStorage w1 = localStorage w)
  /\ (full (localStorage w) = false ->
      forall s password' nowMs' nowIso' w2 out,
        signup email_ password' nowMs' nowIso'
          {| store := s; localStorage := localStorage w1 |} = (w2, out) ->
        w2 = {| store := s; localStorage := localStorage w1 |}
        /\ exists msg, out = Rejected msg).
Proof.
  intros Hs newUser.
  destruct (signup_fulfilled _ _ _ _ _ _ _ Hs)
    as (users & Hget & Hfind & He & Hp & Hlen & -> & ->).
  fold newUser. cbn [store localStorage].
  split; [reflexivity|]. split; [reflexivity|]. split; [exact Hlen|].
  split; [|split; [|split]].
  - exists users. split; [exact Hget|]. split.
    + intros x Hx Heq.
      apply (find_none _ _ Hfind) in Hx. simpl in Hx.
      rewrite Heq, String.eqb_refl in Hx. discriminate Hx.
    + intros Hfull. unfold saveRegisteredUsers. rewrite Hfull. reflexivity.
  - intros Hfull Hun. unfold getRegisteredUsers in Hget. rewrite Hun in Hget.
    injection Hget as <-. unfold saveRegisteredUsers. rewrite Hfull.
    reflexivity.
  - intros Hfull. unfold saveRegisteredUsers. rewrite Hfull. reflexivity.
  - intros Hfull s password' nowMs' nowIso' w2 out Hs2. unfold signup in Hs2.
    rewrite He in Hs2.
    destruct (isEmpty _ || _); [injection Hs2 as <- <-; eauto|].
    destruct (50 <? _)%nat; [injection Hs2 as <- <-; eauto|].
    cbn [store localStorage] in Hs2.
    rewrite (saved_users_read_back _ _ Hfull) in Hs2.
    rewrite (find_app_last _ _ _ Hfind) in Hs2
      by (simpl; apply String.eqb_refl).
    injection Hs2 as <- <-; eauto.
Qed.

(** X21.  A login is fulfilled only for a registered user whose email is the
    sanitized email and whose password is the sanitized password; the user
    data returned are the email and id of that user, and the board is then
    the saved board that was loaded or the initial board. *)
Theorem login_fulfilled_sound (email_ password_ : value) (w w' : World)
    (u : UserInfo) :
  login email_ password_ w = (w', Fulfilled u) ->
  (exists users user,
      getRegisteredUsers (localStorage w) = Some users
      /\ In user users
      /\ email user = sanitizeEmail email_
      /\ password user = sanitizeInput password_ passwordOptions
      /\ u = {| info_email := email user; info_id := user_id user |})
  /\ (kanban (store w') = initialState
      \/ loadPersistedState (localStorage w') (sanitizeEmail email_)
         = LoadObject (Some (kanban (store w')))).
Proof.
  unfold login. intros Hl.
  destruct (isEmpty (sanitizeEmail email_)); [discriminate|].
  destruct (isEmpty _ || _); [discriminate|].
  destruct (getRegisteredUsers (localStorage w)) as [users|]; [|discriminate].
  destruct (List.find _ users) as [user|] eqn:Hf; [|discriminate].
  destruct (negb (String.eqb (password user) _)) eqn:Hpw; [discriminate|].
  apply find_some in Hf as [Hin Hem]. simpl in Hem.
  apply String.eqb_eq in Hem. apply negb_false_iff, String.eqb_eq in Hpw.
  assert (Huser : exists users0 user0,
             Some users = Some users0 /\ In user0 users0
             /\ email user0 = sanitizeEmail email_
             /\ password user0 = sanitizeInput password_ passwordOptions
             /\ {| info_email := email user; info_id := user_id user |}
                = {| info_email := email user0; info_id := user_id user0 |})
    by (exists users, user; auto).
  destruct (match authUser (store w) with
            | Some current => _
            | None => Some w
            end) as [w1|]; [|discriminate].
  destruct (loadPersistedState (localStorage w1) (sanitizeEmail email_))
    as [| |[k|]] eqn:Hload; try discriminate;
    injection Hl as <- <-; (split; [exact Huser|]); simpl; auto.
Qed.

End AuthMore.

(* ===================================================================== *)
(** * The card                                                            *)
(* ===================================================================== *)

Section CardFacts.
Import Str Sanitize Board Card.

Lemma ltNum_integers (i z : Z) : ltNum (ofZ i) (ofZ z) = (i <? z).
Proof.
  unfold ltNum, ofZ, Qle_bool. simpl. rewrite !Z.mul_1_r.
  rewrite Z.ltb_antisym. reflexivity.
Qed.

(** The indices below [z] among [n] indices from [a] on are the first ones. *)
Lemma below_prefix (z : Z) (n a : nat) :
  List.map (fun i => Z.of_nat i <? z) (seq a n)
  = repeat true (Nat.min n (Z.to_nat z - a))
    ++ repeat false (n - (Z.to_nat z - a)).
Proof.
  revert a. induction n as [|n IH]; intros a; [reflexivity|].
  cbn [seq List.map]. rewrite IH.
  destruct (Z.ltb_spec (Z.of_nat a) z) as [Hlt|Hge].
  - replace (Z.to_nat z - a)%nat with (S (Z.to_nat z - S a)) by lia.
    reflexivity.
  - replace (Z.to_nat z - a)%nat with 0%nat by lia.
    replace (Z.to_nat z - S a)%nat with 0%nat by lia.
    rewrite Nat.min_0_r, !Nat.sub_0_r. reflexivity.
Qed.

Lemma floor_within (x : Q) :
  (0 <= x)%Q /\ (x < 13)%Q -> 0 <= Qfloor x <= 12.
Proof.
  intros [H0 H13]. split.
  - change 0 with (Qfloor 0). apply Qfloor_resp_le, H0.
  - assert (Qfloor x < 13); [|lia].
    apply Z.lt_nge. intros Hc.
    assert (inject_Z 13 <= inject_Z (Qfloor x))%Q
      by (rewrite <- Zle_Qle; exact Hc).
    pose proof (Qfloor_le x). change (inject_Z 13) with 13%Q in *. lra.
Qed.

Lemma segments_prefix (n : number) :
  exists k : nat,
    (k <= 12)%nat
    /\ List.map (fun i => ltNum (ofZ (Z.of_nat i)) (Math_round n)) (seq 0 12)
       = repeat true k ++ repeat false (12 - k)
    /\ forall q, n = Fin q ->
         (0 <= Qfloor (q + (1 # 2)) <= 12 ->
          Z.of_nat k = Qfloor (q + (1 # 2))).
Proof.
  destruct n as [| |q|].
  - exists 0%nat. split; [lia|]. split; [reflexivity|]. discriminate.
  - exists 0%nat. split; [lia|]. split; [reflexivity|]. discriminate.
  - exists (Nat.min 12 (Z.to_nat (Qfloor (q + (1 # 2))) - 0)).
    split; [lia|]. split.
    + cbn [Math_round].
      rewrite (map_ext _ (fun i => Z.of_nat i <? Qfloor (q + (1 # 2))))
        by (intros i; apply ltNum_integers).
      rewrite below_prefix. f_equal. f_equal. lia.
    + intros q' [= <-] Hz. lia.
  - exists 12%nat. split; [lia|]. split; [reflexivity|]. discriminate.
Qed.

Lemma floor_between (z : Z) (x : Q) :
  (inject_Z z <= x)%Q -> (x < inject_Z z + 1)%Q -> Qfloor x = z.
Proof.
  intros Hlo Hhi.
  assert (Hge : z <= Qfloor x).
  { rewrite <- (Qfloor_Z z). apply Qfloor_resp_le, Hlo. }
  assert (Hlt : Qfloor x < z + 1).
  { apply Z.lt_nge. intros Hc.
    assert (inject_Z (z + 1) <= inject_Z (Qfloor x))%Q
      by (rewrite <- Zle_Qle; exact Hc).
    rewrite inject_Z_plus in *. pose proof (Qfloor_le x).
    change (inject_Z 1) with 1%Q in *. lra. }
  lia.
Qed.

Section Gauge.
Context `{Doubles}.

(** Twelve tenths of a rating from 0 to 10, as the doubles give it: a finite
    number, not negative, within [gaugeSlack] of the exact value. *)
Lemma twelfths_near (q : Q) :
  (0 <= q)%Q -> (q <= 10)%Q ->
  exists m, twelfths (Fin q) = Fin m
            /\ (0 <= m)%Q
            /\ (q * (6 # 5) - gaugeSlack <= m)%Q
            /\ (m <= q * (6 # 5) + gaugeSlack)%Q.
Proof.
  intros H0 H10. unfold twelfths.
  pose proof (divide_rounded q 10) as Hd.
  destruct (divide q 10) as [| |d|];
    try (exfalso; apply Hd; lra).
  destruct Hd as (Hd0 & Hdlo & Hdhi); try lra.
  assert (Hq : (q / 10 == q * (1 # 10))%Q) by field.
  rewrite Hq in Hdlo, Hdhi.
  unfold roundoff, tiniest in *.
  assert (Hd1 : (d <= 2)%Q) by lra.
  pose proof (times_rounded d 12) as Hm.
  destruct (times d 12) as [| |m|];
    try (exfalso; apply Hm; lra).
  destruct Hm as (Hm0 & Hmlo & Hmhi); try lra.
  unfold roundoff, tiniest in *.
  exists m. split; [reflexivity|]. split; [exact Hm0|].
  unfold gaugeSlack. split; lra.
Qed.

(** X22.  The gauge of a card fills its segments from the first on: some
    number k of the twelve are filled and the others are not.  For a rating
    above 0 and up to 10, k is twelve tenths of the rating rounded to the
    nearest integer, a half going up, up to the rounding of the division and
    of the multiplication in doubles; a task with no rating, or whose rating
    is 0 or NaN, shows the 11 segments of the rating 8.8. *)
Theorem ratingSegments_gauge (task : Task) :
  exists k : nat,
    (k <= 12)%nat
    /\ ratingSegments task = repeat true k ++ repeat false (12 - k)
    /\ (forall q, rating task = Some (Fin q) -> (0 < q)%Q -> (q <= 10)%Q ->
         (inject_Z (Z.of_nat k) - (1 # 2) - gaugeSlack <= q * (6 # 5))%Q
         /\ (q * (6 # 5) < inject_Z (Z.of_nat k) + (1 # 2) + gaugeSlack)%Q)
    /\ (rating task = None -> k = 11%nat)
    /\ (forall n, rating task = Some n -> truthyNum n = false -> k = 11%nat).
Proof.
  unfold ratingSegments, filledSegments.
  destruct (segments_prefix (twelfths (ratingValue task)))
    as (k & Hk & Hseg & Hround).
  exists k. split; [exact Hk|]. split; [exact Hseg|].
  assert (Hunrated : ratingValue task = Fin 8.8 -> k = 11%nat).
  { intros Hv. rewrite Hv in Hround.
    destruct (twelfths_near 8.8) as (m & Hm & Hm0 & Hlo & Hhi);
      [lra|lra|].
    specialize (Hround m Hm). unfold gaugeSlack in *.
    assert (Hfloor : Qfloor (m + (1 # 2)) = 11)
      by (apply floor_between; change (inject_Z 11) with 11%Q; lra).
    rewrite Hfloor in Hround. lia. }
  split; [|split].
  - intros q Hq Hpos Hle. unfold ratingValue in Hround. rewrite Hq in Hround.
    cbn [orNumber truthyNum] in Hround.
    assert (Hnz : Qeq_bool q 0 = false).
    { destruct (Qeq_bool q 0) eqn:E; [|reflexivity].
      apply Qeq_bool_iff in E. rewrite E in Hpos.
      exfalso. exact (Qlt_irrefl _ Hpos). }
    rewrite Hnz in Hround. cbn [negb] in Hround.
    destruct (twelfths_near q) as (m & Hm & Hm0 & Hlo & Hhi);
      [lra|exact Hle|].
    specialize (Hround m Hm). unfold gaugeSlack in *.
    assert (Hz : 0 <= Qfloor (m + (1 # 2)) <= 12).
    { apply floor_within. split; lra. }
    rewrite (Hround Hz).
    pose proof (Qfloor_le (m + (1 # 2))) as Hfl.
    pose proof (Qlt_floor (m + (1 # 2))) as Hlt.
    rewrite inject_Z_plus in Hlt. change (inject_Z 1) with 1%Q in Hlt.
    split; lra.
  - intros Hnone. apply Hunrated. unfold ratingValue. rewrite Hnone.
    reflexivity.
  - intros n Hn Hfalsy. apply Hunrated. unfold ratingValue. rewrite Hn.
    simpl. rewrite Hfalsy. reflexivity.
Qed.

End Gauge.

Lemma omap_find_ids (availableLabels : list Label) (ids : list string) :
  List.map label_id
    (omap (fun labelId =>
             List.find (fun label => String.eqb (label_id label) labelId)
               availableLabels) ids)
  = List.filter (hasRecord availableLabels) ids
  /\ forall label,
       In label
         (omap (fun labelId =>
                  List.find (fun label => String.eqb (label_id label) labelId)
                    availableLabels) ids) ->
       In label availableLabels.
Proof.
  induction ids as [|i ids [IHm IHi]]; [split; [reflexivity|intros ? []]|].
  cbn [omap list_omap List.filter].
  destruct (List.find _ availableLabels) as [label|] eqn:Hf.
  - pose proof (find_some _ _ Hf) as [Hin Heq]. simpl in Heq.
    assert (Hrec : hasRecord availableLabels i = true).
    { unfold hasRecord. apply existsb_exists. exists label. auto. }
    rewrite Hrec. split.
    + cbn [List.map]. rewrite IHm. apply String.eqb_eq in Heq.
      rewrite Heq. reflexivity.
    + intros l [<-|Hl]; auto.
  - assert (Hrec : hasRecord availableLabels i = false).
    { unfold hasRecord. destruct (existsb _ _) eqn:E; [|reflexivity].
      apply existsb_exists in E as (l & Hl & Heq).
      pose proof (find_none _ _ Hf l Hl) as Hno. simpl in Hno. congruence. }
    rewrite Hrec. split; assumption.
Qed.

(** X23.  The labels a card shows are records of the board: their ids are
    the label ids of the task that have a record, in the order of the task
    and as often as the task lists them; an id without a record is dropped.
    A task without a label array shows none. *)
Theorem getTaskLabels_known (task : Task) (availableLabels : list Label) :
  List.map label_id (getTaskLabels task availableLabels)
  = List.filter (hasRecord availableLabels) (default [] (labels task))
  /\ forall label, In label (getTaskLabels task availableLabels) ->
       In label availableLabels.
Proof.
  unfold getTaskLabels. destruct (labels task) as [ids|].
  - apply omap_find_ids.
  - split; [reflexivity|intros ? []].
Qed.

(** The arithmetic of the samples is rounded as the gauge needs it. *)
Lemma toGrid_rounded (x : Q) :
  (0 <= x)%Q -> rounded x (Fin (MoreSamples.toGrid x)).
Proof.
  intros Hx. unfold rounded, MoreSamples.toGrid.
  pose proof (Qfloor_le (x * MoreSamples.gridSize + (1 # 2))) as Hle.
  pose proof (Qlt_floor (x * MoreSamples.gridSize + (1 # 2))) as Hlt.
  rewrite inject_Z_plus in Hlt. change (inject_Z 1) with 1%Q in Hlt.
  assert (Hz : 0 <= Qfloor (x * MoreSamples.gridSize + (1 # 2))).
  { change 0 with (Qfloor 0). apply Qfloor_resp_le.
    unfold MoreSamples.gridSize. lra. }
  assert (Hq : (0 <= inject_Z (Qfloor (x * MoreSamples.gridSize + (1 # 2))))%Q)
    by (change 0%Q with (inject_Z 0); rewrite <- Zle_Qle; exact Hz).
  unfold MoreSamples.gridSize, MoreSamples.gridStep, roundoff, tiniest in *.
  set (z := inject_Z _) in *. clearbody z.
  split; [lra|]. split; lra.
Qed.

Lemma grid_divide_rounded (x y : Q) :
  (0 <= x)%Q -> (x <= 1024)%Q -> (1 <= y)%Q -> (y <= 1024)%Q ->
  rounded (x / y) (Fin (MoreSamples.toGrid (x / y))).
Proof.
  intros Hx _ Hy _. apply toGrid_rounded.
  apply Qle_shift_div_l; [lra|]. rewrite Qmult_0_l. exact Hx.
Qed.

Lemma grid_times_rounded (x y : Q) :
  (0 <= x)%Q -> (x <= 1024)%Q -> (0 <= y)%Q -> (y <= 1024)%Q ->
  rounded (x * y) (Fin (MoreSamples.toGrid (x * y))).
Proof.
  intros Hx _ Hy _. apply toGrid_rounded. apply Qmult_le_0_compat; assumption.
Qed.

End CardFacts.

Module SampleArithmetic.
Import Card.

#[export] Instance gridArithmetic : Doubles := {|
  divide := fun x y => Fin (MoreSamples.toGrid (x / y));
  times := fun x y => Fin (MoreSamples.toGrid (x * y));
  divide_rounded := grid_divide_rounded;
  times_rounded := grid_times_rounded
|}.

End SampleArithmetic.

(* ===================================================================== *)
(** * Nested data                                                         *)
(* ===================================================================== *)

Section DeepSanitizeFacts.
Import Str Sanitize SanitizeMore.

(** Induction on nested data: the items of an array and the values of an
    object come with the property. *)
Lemma data_nested_ind (P : data -> Prop) :
  P DUndefined -> P DNull -> (forall b, P (DBool b)) ->
  (forall n, P (DNum n)) -> (forall s, P (DStr s)) ->
  (forall items, List.Forall P items -> P (DArr items)) ->
  (forall entries, List.Forall (fun entry => P entry.2) entries ->
                   P (DObj entries)) ->
  forall d, P d.
Proof.
  intros Hu Hn Hb Hnum Hs Ha Ho. fix IH 1.
  intros [| |b|n|s|items|entries];
    [exact Hu|exact Hn|apply Hb|apply Hnum|apply Hs| |].
  - apply Ha. induction items as [|x items IHitems]; constructor.
    + apply IH.
    + exact IHitems.
  - apply Ho.
    induction entries as [|[k v] entries IHentries]; constructor.
    + apply IH.
    + exact IHentries.
Qed.

Lemma assign_forallb (ok : string * data -> bool) (obj : list (string * data))
    (key : string) (v : data) :
  forallb ok obj = true -> ok (key, v) = true ->
  forallb ok (assign obj key v) = true.
Proof.
  intros Hobj Hnew. induction obj as [|[k x] obj IH]; simpl in *.
  - rewrite Hnew. reflexivity.
  - apply andb_true_iff in Hobj as [Hx Hrest].
    destruct (String.eqb_spec k key) as [->|Hne]; simpl.
    + rewrite Hnew. exact Hrest.
    + rewrite Hx. apply IH, Hrest.
Qed.

Lemma sanitizeInput_within (input : value) (options : InputOptions) :
  0 <= default 1000 (maxLength options) ->
  Z.of_nat (String.length (sanitizeInput input options))
  <= default 1000 (maxLength options).
Proof.
  intros Hn. destruct input as [| |b|x|s|l]; try (simpl; lia).
  rewrite sanitizeInput_string.
  destruct (Z.gtb_spec (Z.of_nat (String.length (stripped options s)))
              (default 1000 (maxLength options))).
  - pose proof (length_take (Z.to_nat (default 1000 (maxLength options)))
                  (stripped options s)). lia.
  - lia.
Qed.

Lemma sanitizeInput_cleanKey (key : string) :
  sanitizeInput (VStr key) keyOptions <> EmptyString ->
  cleanKey (sanitizeInput (VStr key) keyOptions) = true.
Proof.
  intros Hne. unfold cleanKey.
  apply String.eqb_neq in Hne. rewrite Hne. simpl negb.
  pose proof (sanitizeInput_within (VStr key) keyOptions) as Hlen.
  simpl default in Hlen.
  replace (String.length _ <=? 100)%nat with true
    by (symmetry; apply Nat.leb_le; lia).
  apply cut_keeps. intros s _. apply stripped_harmless. reflexivity.
Qed.

(** X24.  With allowHTML off and a maxLength that is not negative, nothing
    dangerous is left anywhere in the result of [deepSanitize], however deep
    the data are nested: every string value has none of the four dangerous
    characters and fits maxLength, and every key of every object is not
    empty, has at most 100 characters and none of the dangerous ones. *)
Theorem deepSanitize_clean (obj : data) (options : InputOptions) :
  default false (allowHTML options) = false ->
  0 <= default 1000 (maxLength options) ->
  everywhere cleanKey (cleanValue options) (deepSanitize obj options) = true.
Proof.
  intros Hhtml Hmax. induction obj as [| |b|n|s|items IH|entries IH]
    using data_nested_ind; try reflexivity.
  - cbn [deepSanitize everywhere]. unfold cleanValue.
    apply andb_true_iff. split.
    + apply cut_keeps. intros s0 _. apply stripped_harmless, Hhtml.
    + apply Z.leb_le, sanitizeInput_within, Hmax.
  - cbn [deepSanitize everywhere]. apply forallb_forall.
    intros x Hx. apply in_map_iff in Hx as (item & <- & Hitem).
    exact (proj1 (List.Forall_forall _ _) IH item Hitem).
  - cbn [deepSanitize everywhere].
    set (ok := fun entry : string * data =>
                 cleanKey entry.1
                 && everywhere cleanKey (cleanValue options) entry.2).
    assert (Hfold : forall sanitized,
               forallb ok sanitized = true ->
               forallb ok
                 (fold_left
                    (fun sanitized entry =>
                       let '(key, value) := entry in
                       let cleanKey := sanitizeInput (VStr key) keyOptions in
                       if negb (String.eqb cleanKey EmptyString)
                       then assign sanitized cleanKey
                              (deepSanitize value options)
                       else sanitized)
                    entries sanitized) = true).
    { induction IH as [|[key v] entries Hv _ IHentries]; intros sanitized Hs;
        [exact Hs|].
      cbn [fold_left]. apply IHentries.
      destruct (String.eqb_spec (sanitizeInput (VStr key) keyOptions)
                  EmptyString) as [_|Hne]; [exact Hs|].
      cbn [negb]. apply assign_forallb; [exact Hs|].
      unfold ok. cbn [fst snd]. rewrite (sanitizeInput_cleanKey _ Hne).
      exact Hv. }
    apply Hfold. reflexivity.
Qed.

End DeepSanitizeFacts.

(* ===================================================================== *)
(** * The submit button of the modal                                      *)
(* ===================================================================== *)

Section ModalFacts.
Import Str Sanitize Board Modal.
Context `{Host}.

Lemma trimStart_blank (s : string) :
  trimStart s = EmptyString <-> allChars isSpace s = true.
Proof.
  induction s as [|c s IH]; simpl; [tauto|].
  destruct (isSpace c); simpl; [exact IH|]. split; discriminate.
Qed.

Lemma trimEnd_blank (s : string) :
  trimEnd s = EmptyString -> allChars isSpace s = true.
Proof.
  induction s as [|c s IH]; simpl; [auto|].
  destruct (trimEnd s) as [|d r]; [|discriminate].
  destruct (isSpace c); [|discriminate]. auto.
Qed.

Lemma allChars_of_trimStart (s : string) :
  allChars isSpace (trimStart s) = true -> allChars isSpace s = true.
Proof.
  induction s as [|c s IH]; simpl; [auto|].
  destruct (isSpace c) eqn:Hc; simpl; [exact IH|].
  rewrite Hc. discriminate.
Qed.

(** A text is blank, for [trim], exactly when it is white space only. *)
Lemma trim_blank (s : string) :
  trim s = EmptyString <-> allChars isSpace s = true.
Proof.
  unfold trim. split.
  - intros Ht. apply allChars_of_trimStart, trimEnd_blank, Ht.
  - intros Hs. apply trimStart_blank in Hs. rewrite Hs. reflexivity.
Qed.

(** What [trimEnd] leaves is not white space only, unless it is empty. *)
Lemma trimEnd_all_blank (s : string) :
  allChars isSpace (trimEnd s) = true -> trimEnd s = EmptyString.
Proof.
  induction s as [|c s IH]; simpl; [auto|].
  destruct (trimEnd s) as [|d r].
  - destruct (isSpace c) eqn:Hc; [auto|]. simpl. rewrite Hc. discriminate.
  - intros Hall. simpl in Hall. apply andb_true_iff in Hall as [_ Hall].
    specialize (IH Hall). discriminate IH.
Qed.

(** White space only goes in, the empty string comes out. *)
Lemma sanitizeInput_blank (s : string) (options : InputOptions) :
  allChars isSpace s = true -> sanitizeInput (VStr s) options = EmptyString.
Proof.
  intros Hs.
  assert (Hst : stripped options s = EmptyString).
  { apply trimEnd_all_blank. apply stripped_keeps; [reflexivity|].
    apply allChars_replaceFrom; [reflexivity|exact Hs]. }
  rewrite sanitizeInput_string, Hst. destruct (_ >? _); [|reflexivity].
  destruct (Z.to_nat _); reflexivity.
Qed.

(** X25.  The modal submits a form only if [isFormValid] holds for it, the
    condition under which the submit button is enabled: what passes the
    validation of [handleSubmit] has a title and a rating that are not
    blank and a priority. *)
Theorem submitted_form_was_enabled (columnId : string) (formData : FormData)
    (payload : string * TaskData) :
  handleSubmit columnId formData = Some payload ->
  isFormValid formData = true.
Proof.
  unfold handleSubmit, validateForm, isFormValid.
  set (sanitizedData := sanitizeTaskData (Some (rawOfForm formData))).
  assert (Htitle : forall t, s_title sanitizedData = Some t ->
                     t <> EmptyString ->
                     trim (fd_title formData) <> EmptyString).
  { intros t Ht Hne Hblank. apply trim_blank in Hblank.
    change (s_title sanitizedData)
      with (if truthy (VStr (fd_title formData))
            then Some (sanitizeInput (VStr (fd_title formData))
                         (opts 200 (Some false) (Some false)))
            else None) in Ht.
    destruct (truthy _); [|discriminate].
    rewrite (sanitizeInput_blank _ _ Hblank) in Ht. congruence. }
  clearbody sanitizedData. cbv beta iota zeta.
  match goal with
  | |- (if negb ?b then _ else _) = _ -> _ => destruct b eqn:Hvalid
  end; cbn [negb]; cbv iota; [intros _|discriminate].
  apply andb_true_iff in Hvalid as [Hvalid Hrating].
  apply andb_true_iff in Hvalid as [Htitleok Hpriority].
  apply andb_true_iff in Hrating as [Hrating _].
  apply andb_true_iff in Hrating as [_ Hrating].
  rewrite Hpriority, Hrating, !andb_true_r.
  destruct (s_title sanitizedData) as [t|]; [|discriminate].
  apply andb_true_iff in Htitleok as [Htitleok _].
  apply andb_true_iff in Htitleok as [Hne _].
  apply negb_true_iff, String.eqb_neq in Hne.
  apply negb_true_iff, String.eqb_neq. exact (Htitle t eq_refl Hne).
Qed.

End ModalFacts.

(* ===================================================================== *)
(** * More samples                                                        *)
(* ===================================================================== *)

Section MoreSampleFacts.
Import Str Sanitize SanitizeMore Board Projector Auth Card Modal Sample.
Import MoreSamples SampleEngine SampleArithmetic.

Lemma sanitizeInput_trimmed_witness :
  startsWithSpace (sanitizeInput (VStr twoLines) passwordOptions) = false
  /\ allChars (fun c => negb (isNewline c))
       (sanitizeInput (VStr twoLines) passwordOptions) = true.
Proof.
  destruct (sanitizeInput_trimmed (VStr twoLines) passwordOptions)
    as [Hstart Hlines].
  split; [exact Hstart|apply Hlines; reflexivity].
Defined.

Lemma sanitizeInput_inert_witness :
  sanitizeInput (VStr "hunter22") passwordOptions = "hunter22".
Proof.
  apply (sanitizeInput_inert_unchanged "hunter22" passwordOptions);
    [reflexivity|simpl; lia].
Defined.

Lemma sanitizeEmail_not_string_witness :
  sanitizeEmail (VNum (ofZ 7)) = EmptyString.
Proof.
  apply (proj2 (sanitizeEmail_empty_or_well_formed (VNum (ofZ 7)))).
  intros s. discriminate.
Defined.

Lemma sanitizeEmail_idempotent_witness :
  sanitizeEmail (VStr "bob@corp.io") = "bob@corp.io".
Proof. apply (proj1 sanitizeEmail_idempotent "bob@corp.io"). reflexivity. Defined.

Lemma sanitizeNumber_clamped_witness :
  leNum (ofZ 0) (sanitizeNumber (VNum (ofZ 15)) ratingBounds)
  /\ leNum (sanitizeNumber (VNum (ofZ 15)) ratingBounds) (ofZ 10).
Proof.
  apply (proj2 (sanitizeNumber_default_or_clamped (VNum (ofZ 15)) ratingBounds));
    [reflexivity|].
  simpl. unfold Qle. simpl. lia.
Defined.

Lemma sanitizeNumber_integer_witness :
  sanitizeNumber (VNum (Fin 2.5)) orderBounds = ofZ 0
  \/ sanitizeNumber (VNum (Fin 2.5)) orderBounds = ofZ 1000
  \/ isInteger (sanitizeNumber (VNum (Fin 2.5)) orderBounds).
Proof.
  apply (sanitizeNumber_integer (VNum (Fin 2.5)) orderBounds); reflexivity.
Defined.

Lemma sanitizeTaskData_witness :
  cleanText 200 "Fix the login"
  /\ allChars (fun c => negb (isNewline c)) "Fix the login" = true.
Proof.
  apply (proj1 (sanitizeTaskData_well_formed (Some rawTask)) "Fix the login").
  reflexivity.
Defined.

Lemma sanitizeColumnData_witness : integerWithin 0 1000 (ofZ 2).
Proof.
  apply (proj2 (sanitizeColumnData_well_formed (Some rawColumn)) (ofZ 2)).
  reflexivity.
Defined.

Lemma sanitizeLabelData_witness :
  sl_color (sanitizeLabelData
              (Some {| rawl_name := VStr "bug"; rawl_color := VStr "#ff0000" |}))
  = Some "#ff0000".
Proof.
  apply (proj2 (proj2 (sanitizeLabelData_color (VStr "bug")))). reflexivity.
Defined.

Lemma handleSubmit_witness :
  td_rating submitted.2 = Some (Fin 7.5)
  /\ finiteWithin 0 10 (Fin 7.5)
  /\ td_id submitted.2 = None.
Proof.
  destruct (@handleSubmit_well_formed decimalHost "backlog" newForm
              submitted.1 submitted.2 eq_refl)
    as (_ & _ & _ & _ & Hrating & Hwithin & _ & _ & Hid).
  split; [exact Hrating|]. split; [exact Hwithin|exact Hid].
Defined.

Lemma addNewTask_color_witness :
  priorityColor (addNewTask "backlog" twelveLabels 0.5 today).2
  = getPriorityColor (priority (addNewTask "backlog" twelveLabels 0.5 today).2).
Proof.
  apply (addNewTask_color_of_priority "backlog" twelveLabels 0.5 today).
  reflexivity.
Defined.

Lemma empty_label_array_witness : processColumn noLabels backlog = [].
Proof.
  apply (proj1 (empty_label_array_hides_all noLabels backlog)). reflexivity.
Defined.

Lemma projection_unsorted_witness :
  processColumn (bySort "manual") backlog = filterColumn (bySort "manual") backlog.
Proof.
  apply (proj2 (proj2 (proj2 (projection_is_rearranged_sublist
                                (bySort "manual") backlog)))).
  reflexivity.
Defined.

Lemma date_sort_witness :
  @processColumn calendarHost v8 (bySort "date") datedBacklog
  = [reviewFindings; patchGateway; rotateTokens]
  /\ StronglySorted
       (fun a b => @createdTime calendarHost a >= @createdTime calendarHost b)
       (@processColumn calendarHost v8 (bySort "date") datedBacklog).
Proof.
  split; [vm_compute; reflexivity|].
  apply (proj1 (proj2 (@date_sort_orders_by_time calendarHost v8
                         (bySort "date") datedBacklog
                         ltac:(intros t [<-|[<-|[<-|[]]]];
                               eexists; reflexivity)))).
  reflexivity.
Defined.

Lemma rating_sort_witness :
  StronglySorted (fun a b => leNum (ratingOrZero b) (ratingOrZero a))
    (processColumn (bySort "rating") backlog).
Proof.
  apply (proj1 (rating_sort_orders_by_rating (bySort "rating") backlog)).
  reflexivity.
Defined.

Lemma signup_then_login_witness :
  (@login objectLoad (VStr "Carol@Corp.io") (VStr "s3cret-pw") carolWorld).2
    = Fulfilled carol
  \/ (@login objectLoad (VStr "Carol@Corp.io") (VStr "s3cret-pw") carolWorld).2
    = Rejected loginFailed.
Proof.
  apply (proj1 (@signup_then_login objectLoad (VStr "Carol@Corp.io")
                  (VStr "s3cret-pw") 3 today busyWorld carolSignup.1 carol
                  eq_refl)
           eq_refl (store carolWorld)
           (@login objectLoad (VStr "Carol@Corp.io") (VStr "s3cret-pw")
              carolWorld).1).
  apply surjective_pairing.
Defined.

Lemma signup_registers_witness :
  kanban (store carolSignup.1) = kanban (store busyWorld)
  /\ registeredUsers (localStorage carolSignup.1)
     = UserList [bob; {| user_id := 3; email := "carol@corp.io";
                         password := "s3cret-pw"; user_createdAt := today |}].
Proof.
  pose proof (signup_registers_once (VStr "Carol@Corp.io") (VStr "s3cret-pw")
                3 today busyWorld carolSignup.1 carol eq_refl) as Hs.
  cbv zeta in Hs. destruct Hs as (Hboard & _ & _ & _ & _ & _ & _).
  split; [exact Hboard|reflexivity].
Defined.

Lemma login_fulfilled_witness :
  kanban (store bobLogin.1) = initialState
  \/ loadPersistedState (localStorage bobLogin.1)
       (sanitizeEmail (VStr "bob@corp.io"))
     = LoadObject (Some (kanban (store bobLogin.1))).
Proof.
  assert (Hout : bobLogin.2 = Fulfilled {| info_email := "bob@corp.io";
                                           info_id := 2 |})
    by (vm_compute; reflexivity).
  apply (proj2 (login_fulfilled_sound (VStr "bob@corp.io") (VStr "hunter22")
                  quietWorld bobLogin.1
                  {| info_email := "bob@corp.io"; info_id := 2 |}
                  (eq_trans (surjective_pairing bobLogin)
                     (f_equal (pair bobLogin.1) Hout)))).
Defined.

Lemma ratingSegments_witness :
  ratingSegments fixInjection = repeat true 11 ++ repeat false 1
  /\ exists k : nat,
       (k <= 12)%nat
       /\ ratingSegments fixInjection = repeat true k ++ repeat false (12 - k)
       /\ (inject_Z (Z.of_nat k) - (1 # 2) - gaugeSlack <= 9.1 * (6 # 5))%Q
       /\ (9.1 * (6 # 5) < inject_Z (Z.of_nat k) + (1 # 2) + gaugeSlack)%Q.
Proof.
  split; [vm_compute; reflexivity|].
  destruct (ratingSegments_gauge fixInjection) as (k & Hk & Hseg & Hround & _).
  exists k. split; [exact Hk|]. split; [exact Hseg|].
  apply (Hround 9.1%Q); [reflexivity|reflexivity|discriminate].
Defined.

Lemma getTaskLabels_witness :
  In {| label_id := "lbl-A"; name := "security"; color := "#dc2626" |}
    boardLabelsSample.
Proof.
  apply (proj2 (getTaskLabels_known updateDocs boardLabelsSample)).
  left. reflexivity.
Defined.

Lemma deepSanitize_witness :
  everywhere cleanKey (cleanValue passwordOptions)
    (deepSanitize nested passwordOptions) = true.
Proof.
  apply (deepSanitize_clean nested passwordOptions); [reflexivity|simpl; lia].
Defined.

Lemma submitted_form_witness : isFormValid newForm = true.
Proof.
  apply (@submitted_form_was_enabled decimalHost "backlog" newForm submitted).
  reflexivity.
Defined.

End MoreSampleFacts.

